(** * apk-package: task pipeline and rule engine

    A shallow embedding of the rule engine ([app/services/rule_engine.py]),
    the task pipeline ([app/services/apk_processor.py]) and the background
    runner ([app/routers/task_router.py]), over a small model of the Python
    runtime they call into: text and byte strings, the UTF-8 and base64
    codecs, [pathlib] paths and a POSIX file tree with [shutil]'s
    [copytree] and [rmtree]. A second part adds the request handlers
    ([create_task], [download_task], [upload_apk], [delete_apk],
    [read_apk_file]), the rest of the storage service
    ([app/services/storage_service.py]) and [read_file_from_cache] and
    [decompile_to_cache] of the processor. The listings
    ([list_files_from_cache], [list_apks], [list_apk_tasks]) are left
    out: they depend on the order in which a directory or a dictionary
    lists its entries, on Unicode lower-casing and on modification
    times, which this model does not have.

    Conventions.
    - A Python [str] is a list of Unicode code points, [bytes] a list of
      octets, both as [list Z].
    - Code that can raise lives in the monad [M]: a state monad over the
      file tree whose outcome is either a value or an exception.
    - What the repository delegates to code that is not modelled (the
      regular-expression engine, the text of library exceptions, the
      lossy decoder used on the tool's error stream, the [apktool]
      process) is a field of the classes [Runtime] and [Apktool]; for
      the second part, the archive reader and the decompiling run of the
      tool are the classes [Zip] and [Decompiler], and the values of
      [uuid4().hex] are arguments of the handlers.
    - The library is CPython's on a POSIX system: [os.linesep] is [\n],
      and [base64.b64decode] is [binascii.a2b_base64] with its
      [strict_mode] (CPython 3.11 and later).
    - [await] is sequencing: one task is followed from start to end, and
      what other tasks do meanwhile is not modelled. *)

From Stdlib Require Import ZArith List String Ascii Lia Bool DecimalString.
From Stdlib Require Import Sorted.
From stdpp Require Import base option list gmap.

Local Open Scope Z_scope.

(** ** Python text and byte strings *)

Module Py.

Abbreviation str := (list Z).
Abbreviation bytes := (list Z).

(** [Py_UNICODE_ISSPACE]: the characters [str.strip()] removes. *)
Definition isspace (c : Z) : bool :=
  ((9 <=? c) && (c <=? 13)) || ((28 <=? c) && (c <=? 32))
  || (c =? 133) || (c =? 160) || (c =? 5760)
  || ((8192 <=? c) && (c <=? 8202))
  || (c =? 8232) || (c =? 8233) || (c =? 8239) || (c =? 8287) || (c =? 12288).

Fixpoint lstrip (s : str) : str :=
  match s with
  | c :: t => if isspace c then lstrip t else s
  | [] => []
  end.

Definition rstrip (s : str) : str := rev (lstrip (rev s)).

(** [s.strip()] *)
Definition strip (s : str) : str := rstrip (lstrip s).

(** [s.startswith(p)] *)
Fixpoint startswith (p s : str) : bool :=
  match p, s with
  | [], _ => true
  | a :: p', b :: s' => (a =? b) && startswith p' s'
  | _ :: _, [] => false
  end.

(** [needle in hay] *)
Fixpoint contains (needle hay : str) : bool :=
  startswith needle hay ||
  match hay with
  | [] => false
  | _ :: t => contains needle t
  end.

(** [s.replace(old, new)] for a non-empty [old]: occurrences are found
    left to right and do not overlap; [skip] counts the characters of the
    current occurrence that are still to be dropped. *)
Fixpoint replace_scan (old new : str) (skip : nat) (s : str) : str :=
  match s with
  | [] => []
  | c :: t =>
      match skip with
      | S k => replace_scan old new k t
      | O =>
          if startswith old s
          then new ++ replace_scan old new (Nat.pred (length old)) t
          else c :: replace_scan old new O t
      end
  end.

(** [s.replace(old, new)]; an empty [old] matches before every character
    and at the end. *)
Definition replace (old new s : str) : str :=
  match old with
  | [] => new ++ flat_map (fun c => c :: new) s
  | _ :: _ => replace_scan old new O s
  end.

(** [s.count(old)] for a non-empty [old], with the same scan. *)
Fixpoint count_scan (old : str) (skip : nat) (s : str) : nat :=
  match s with
  | [] => O
  | _ :: t =>
      match skip with
      | S k => count_scan old k t
      | O =>
          if startswith old s
          then S (count_scan old (Nat.pred (length old)) t)
          else count_scan old O t
      end
  end.

Definition count (old s : str) : nat :=
  match old with
  | [] => S (length s)
  | _ :: _ => count_scan old O s
  end.

(** Text of a Rocq string literal holding UTF-8: see [lit] below. *)
Definition octets (s : string) : bytes :=
  map (fun a => Z.of_N (N_of_ascii a)) (list_ascii_of_string s).

(** [str(n)] for an integer. *)
Definition str_of_int (n : Z) : str :=
  octets (NilZero.string_of_int (Z.to_int n)).

(** *** The UTF-8 codec, strict error handling *)

Definition is_cont (b : Z) : bool := (128 <=? b) && (b <=? 191).

(** Bounds of the second octet of a three-octet sequence: [E0] excludes
    overlong forms, [ED] excludes the surrogates. *)
Definition lo3 (b0 : Z) : Z := if b0 =? 224 then 160 else 128.
Definition hi3 (b0 : Z) : Z := if b0 =? 237 then 159 else 191.
(** Bounds of the second octet of a four-octet sequence. *)
Definition lo4 (b0 : Z) : Z := if b0 =? 240 then 144 else 128.
Definition hi4 (b0 : Z) : Z := if b0 =? 244 then 143 else 191.

(** [bs.decode("utf-8")]; [None] is [UnicodeDecodeError]. *)
Fixpoint utf8_decode (bs : bytes) : option str :=
  match bs with
  | [] => Some []
  | b0 :: r0 =>
      if (0 <=? b0) && (b0 <? 128) then
        cons b0 <$> utf8_decode r0
      else if (194 <=? b0) && (b0 <=? 223) then
        match r0 with
        | b1 :: r1 =>
            if is_cont b1
            then cons ((b0 - 192) * 64 + (b1 - 128)) <$> utf8_decode r1
            else None
        | _ => None
        end
      else if (224 <=? b0) && (b0 <=? 239) then
        match r0 with
        | b1 :: b2 :: r2 =>
            if (lo3 b0 <=? b1) && (b1 <=? hi3 b0) && is_cont b2
            then cons ((b0 - 224) * 4096 + (b1 - 128) * 64 + (b2 - 128))
                   <$> utf8_decode r2
            else None
        | _ => None
        end
      else if (240 <=? b0) && (b0 <=? 244) then
        match r0 with
        | b1 :: b2 :: b3 :: r3 =>
            if (lo4 b0 <=? b1) && (b1 <=? hi4 b0) && is_cont b2 && is_cont b3
            then cons ((b0 - 240) * 262144 + (b1 - 128) * 4096
                       + (b2 - 128) * 64 + (b3 - 128))
                   <$> utf8_decode r3
            else None
        | _ => None
        end
      else None
  end.

(** One code point to its octets; [None] for a surrogate or a value out
    of range ([UnicodeEncodeError]). *)
Definition encode_cp (c : Z) : option bytes :=
  if (0 <=? c) && (c <? 128) then Some [c]
  else if (128 <=? c) && (c <? 2048) then
    Some [192 + c / 64; 128 + c mod 64]
  else if (2048 <=? c) && (c <? 65536) then
    if (55296 <=? c) && (c <=? 57343) then None
    else Some [224 + c / 4096; 128 + (c / 64) mod 64; 128 + c mod 64]
  else if (65536 <=? c) && (c <? 1114112) then
    Some [240 + c / 262144; 128 + (c / 4096) mod 64;
          128 + (c / 64) mod 64; 128 + c mod 64]
  else None.

(** [s.encode("utf-8")] *)
Fixpoint utf8_encode (s : str) : option bytes :=
  match s with
  | [] => Some []
  | c :: t =>
      match encode_cp c, utf8_encode t with
      | Some b, Some r => Some (b ++ r)
      | _, _ => None
      end
  end.

(** A text literal: the code points of the UTF-8 source text. *)
Definition lit (s : string) : str := default [] (utf8_decode (octets s)).

Global Arguments lit : simpl never.
Global Arguments str_of_int : simpl never.

(** Universal newlines, as applied by a text-mode read with
    [newline=None]: [\r\n] and a lone [\r] both become [\n]. *)
Fixpoint universal_newlines (s : str) : str :=
  match s with
  | [] => []
  | c :: t =>
      if c =? 13 then
        10 :: match t with
              | d :: t' =>
                  if d =? 10 then universal_newlines t'
                  else universal_newlines t
              | [] => []
              end
      else c :: universal_newlines t
  end.

End Py.

(** ** The base64 codec ([base64.b64decode] over [binascii.a2b_base64]) *)

Module Base64.
Import Py.

(** Why [binascii.Error] (or [ValueError]) was raised. *)
Inductive error :=
| NonAscii               (* str argument with a non-ASCII character *)
| LeadingPadding
| ExcessData
| OnlyBase64
| DiscontinuousPadding
| InvalidLength (n : Z)  (* one data character more than a multiple of 4 *)
| IncorrectPadding.

(** [table_a2b_base64]: the value of an alphabet character. *)
Definition value (c : Z) : option Z :=
  if (65 <=? c) && (c <=? 90) then Some (c - 65)
  else if (97 <=? c) && (c <=? 122) then Some (c - 97 + 26)
  else if (48 <=? c) && (c <=? 57) then Some (c - 48 + 52)
  else if c =? 43 then Some 62
  else if c =? 47 then Some 63
  else None.

Definition PAD : Z := 61.

(** [*bin_data++ = b]: one more octet in front of what follows, unless
    what follows fails. *)
Definition emit (b : Z) (r : error + bytes) : error + bytes :=
  match r with
  | inr out => inr (b :: out)
  | inl e => inl e
  end.

(** The decoding loop of [a2b_base64]. [quad_pos] is the position in the
    current group of four, [leftchar] the bits left over from the last
    character, [pads] the padding characters seen in a row, [nout] the
    number of octets produced so far. The octets of the rest of the input
    are produced by the recursive call. *)
Fixpoint a2b_loop (strict_mode : bool) (data : bytes)
    (quad_pos : nat) (leftchar pads : Z) (padding_started : bool) (nout : Z)
    : error + bytes :=
  match data with
  | [] =>
      match quad_pos with
      | O => inr []
      | 1%nat => inl (InvalidLength (nout / 3 * 4 + 1))
      | _ => inl IncorrectPadding
      end
  | this_ch :: rest =>
      if this_ch =? PAD then
        if (2 <=? quad_pos)%nat && (4 <=? Z.of_nat quad_pos + (pads + 1)) then
          if strict_mode && negb (bool_decide (rest = [])) then inl ExcessData
          else inr []
        else
          a2b_loop strict_mode rest quad_pos leftchar
            (if (2 <=? quad_pos)%nat then pads + 1 else pads) true nout
      else
        match value this_ch with
        | None =>
            if strict_mode then inl OnlyBase64
            else a2b_loop strict_mode rest quad_pos leftchar pads
                   padding_started nout
        | Some v =>
            if strict_mode && padding_started then inl DiscontinuousPadding
            else
              match quad_pos with
              | O => a2b_loop strict_mode rest 1 v 0 padding_started nout
              | 1%nat =>
                  emit (Z.land (Z.lor (Z.shiftl leftchar 2) (Z.shiftr v 4)) 255)
                    (a2b_loop strict_mode rest 2 (Z.land v 15) 0
                       padding_started (nout + 1))
              | 2%nat =>
                  emit (Z.land (Z.lor (Z.shiftl leftchar 4) (Z.shiftr v 2)) 255)
                    (a2b_loop strict_mode rest 3 (Z.land v 3) 0
                       padding_started (nout + 1))
              | _ =>
                  emit (Z.land (Z.lor (Z.shiftl leftchar 6) v) 255)
                    (a2b_loop strict_mode rest 0 0 0
                       padding_started (nout + 1))
              end
        end
  end.

(** [binascii.a2b_base64(data, strict_mode=...)] *)
Definition a2b_base64 (data : bytes) (strict_mode : bool) : error + bytes :=
  match data with
  | c :: _ =>
      if strict_mode && (c =? PAD) then inl LeadingPadding
      else a2b_loop strict_mode data 0 0 0 false 0
  | [] => a2b_loop strict_mode data 0 0 0 false 0
  end.

(** [base64.b64decode(s, validate=...)] for a [str] argument: the text is
    first encoded as ASCII, then handed to [a2b_base64]. *)
Definition b64decode (s : str) (validate : bool) : error + bytes :=
  if forallb (fun c => (0 <=? c) && (c <? 128)) s
  then a2b_base64 s validate
  else inl NonAscii.

End Base64.

(** ** Exceptions and what the runtime supplies *)

Module Exc.
Import Py.

(** Exceptions raised inside library code. The path of an OS error is the
    text of the path the call was given. *)
Inductive lib_exn :=
| FileNotFoundError (filename : str)
| NotADirectoryError (filename : str)
| IsADirectoryError (filename : str)
| FileExistsError (filename : str)
| UnicodeDecodeError
| UnicodeEncodeError
| Base64Error (why : Base64.error)
| ReError (diagnostic : str)
| AttributeError (name : str)
| KeyError (key : str).

(** Exceptions of the model: the [RuntimeError]s the repository raises
    itself, with their exact text, and library exceptions. All of them
    derive from [Exception]. *)
Inductive exn :=
| RuntimeError (msg : str)
| Lib (e : lib_exn).

Inductive outcome (A : Type) :=
| Returns (a : A)
| Raises (e : exn).
Arguments Returns {A} a.
Arguments Raises {A} e.

(** The parts of the Python runtime that are used but not modelled. *)
Class Runtime := {
  (** the working directory of the process, as a location of the tree *)
  getcwd : list (list Z);
  (** [str(e)] of a library exception *)
  exc_text : lib_exn -> str;
  (** [re.compile(pattern)]: [Some e] when it raises [re.error] *)
  re_compile : str -> option lib_exn;
  (** [re.sub(pattern, repl, string)] *)
  re_sub : str -> str -> str -> lib_exn + str;
  (** [bs.decode("utf-8", errors="replace")] *)
  decode_replace : bytes -> str;
  (** [datetime.now(tz=timezone.utc)] *)
  utcnow : Z
}.

(** [str(e)] *)
Definition exn_str `{Runtime} (e : exn) : str :=
  match e with
  | RuntimeError msg => msg
  | Lib l => exc_text l
  end.

End Exc.

(** ** Paths and the file tree *)

Module FS.
Import Py Exc.

(** A location: the names from the root down to an entry. *)
Abbreviation loc := (list (list Z)).

Inductive entry :=
| File (data : bytes)
| Dir.

(** The file tree: what is stored at each location. The root is a
    directory and has no entry of its own. There are no symbolic links,
    permissions or name-length limits. *)
Abbreviation tree := (gmap (list (list Z)) entry).

#[export] Instance entry_eq_dec : EqDecision entry.
Proof. solve_decision. Defined.

(** A [pathlib.PurePosixPath]: whether it starts at the root, and its
    components. Empty components and [.] are dropped when a path is
    built; [..] is kept. *)
Record Path := mkPath { anchored : bool; parts : list str }.

Definition SLASH : Z := 47.
Definition DOT : str := [46].
Definition DOTDOT : str := [46; 46].

(** [s.split("/")] *)
Fixpoint split_on (sep : Z) (s : str) : list str :=
  match s with
  | [] => [[]]
  | c :: t =>
      if c =? sep then [] :: split_on sep t
      else match split_on sep t with
           | w :: ws => (c :: w) :: ws
           | [] => [[c]]
           end
  end.

Definition keep_part (w : str) : bool :=
  negb (bool_decide (w = [])) && negb (bool_decide (w = DOT)).

(** [Path(s)] *)
Definition parse (s : str) : Path :=
  {| anchored := startswith [SLASH] s;
     parts := List.filter keep_part (split_on SLASH s) |}.

(** [base / s]: an absolute right-hand side replaces the left one. *)
Definition joinpath (base : Path) (s : str) : Path :=
  let p := parse s in
  if anchored p then p
  else {| anchored := anchored base; parts := parts base ++ parts p |}.

(** [p.parent] (lexical: the last component is dropped, whatever it is) *)
Definition parent (p : Path) : Path :=
  {| anchored := anchored p; parts := removelast (parts p) |}.

Fixpoint join_parts (ps : list str) : str :=
  match ps with
  | [] => []
  | [w] => w
  | w :: ws => w ++ SLASH :: join_parts ws
  end.

(** [str(p)] *)
Definition path_str (p : Path) : str :=
  match anchored p, parts p with
  | true, ps => SLASH :: join_parts ps
  | false, [] => DOT
  | false, ps => join_parts ps
  end.

(** What is at a location. *)
Definition entry_at (t : tree) (l : loc) : option entry :=
  match l with
  | [] => Some Dir
  | _ :: _ => t !! l
  end.

Inductive errno := ENOENT | ENOTDIR.

(** Path resolution by the kernel: each component is looked up in the
    directory reached so far, which must exist and be a directory; [..]
    goes to its parent. The last component itself need not exist. *)
Fixpoint walk (t : tree) (cur : loc) (ps : list str) : errno + loc :=
  match ps with
  | [] => inr cur
  | c :: rest =>
      match entry_at t cur with
      | Some Dir =>
          if bool_decide (c = DOTDOT) then walk t (removelast cur) rest
          else walk t (cur ++ [c]) rest
      | Some (File _) => inl ENOTDIR
      | None => inl ENOENT
      end
  end.

Definition resolve `{Runtime} (t : tree) (p : Path) : errno + loc :=
  walk t (if anchored p then [] else getcwd) (parts p).

(** Where a path leads when every directory on the way exists: without
    symbolic links this depends on the path alone. *)
Definition lexical (cur : loc) (ps : list str) : loc :=
  fold_left (fun cur c =>
               if bool_decide (c = DOTDOT) then removelast cur else cur ++ [c])
    ps cur.

Definition locate `{Runtime} (p : Path) : loc :=
  lexical (if anchored p then [] else getcwd) (parts p).

Definition os_error (e : errno) (p : Path) : exn :=
  match e with
  | ENOENT => Lib (FileNotFoundError (path_str p))
  | ENOTDIR => Lib (NotADirectoryError (path_str p))
  end.

(** *** The monad of code that reads and writes the tree and may raise *)

Definition M (A : Type) : Type := tree -> outcome A * tree.

Definition ret {A} (a : A) : M A := fun t => (Returns a, t).
Definition raise {A} (e : exn) : M A := fun t => (Raises e, t).
Definition bind {A B} (m : M A) (k : A -> M B) : M B :=
  fun t =>
    match m t with
    | (Returns a, t') => k a t'
    | (Raises e, t') => (Raises e, t')
    end.
(** [try: m except Exception as e: handler(e)] *)
Definition try_except {A} (m : M A) (handler : exn -> M A) : M A :=
  fun t =>
    match m t with
    | (Returns a, t') => (Returns a, t')
    | (Raises e, t') => handler e t'
    end.

Declare Scope py_scope.
Delimit Scope py_scope with py.
Notation "x <- m ;; k" := (bind m (fun x => k))
  (at level 100, m at next level, right associativity) : py_scope.
Notation "m ;; k" := (bind m (fun _ => k))
  (at level 100, right associativity) : py_scope.

Section WithRuntime.
Context `{Runtime}.
Local Open Scope py_scope.

(** Whether there is an entry at the path; a path that cannot be
    resolved names nothing. *)
Definition present (t : tree) (p : Path) : bool :=
  match resolve t p with
  | inr l => bool_decide (is_Some (entry_at t l))
  | inl _ => false
  end.

(** [p.exists()]. In this tree the [stat] behind it can only fail
    because the path leads nowhere, which [exists] reports as [False]. *)
Definition exists_ (p : Path) : M bool :=
  fun t => (Returns (present t p), t).

(** [p.is_dir()] *)
Definition is_dir (p : Path) : M bool :=
  fun t =>
    (Returns match resolve t p with
             | inr l => bool_decide (entry_at t l = Some Dir)
             | inl _ => false
             end, t).

(** [p.read_bytes()] *)
Definition read_bytes (p : Path) : M bytes :=
  fun t =>
    match resolve t p with
    | inl e => (Raises (os_error e p), t)
    | inr l =>
        match entry_at t l with
        | Some (File data) => (Returns data, t)
        | Some Dir => (Raises (Lib (IsADirectoryError (path_str p))), t)
        | None => (Raises (Lib (FileNotFoundError (path_str p))), t)
        end
    end.

(** [p.read_text(encoding="utf-8")]: a text-mode read, so with universal
    newlines. *)
Definition read_text (p : Path) : M str :=
  data <- read_bytes p ;;
  match utf8_decode data with
  | Some s => ret (universal_newlines s)
  | None => raise (Lib UnicodeDecodeError)
  end.

(** [p.write_bytes(data)]: the file is created or overwritten. *)
Definition write_bytes (p : Path) (data : bytes) : M unit :=
  fun t =>
    match resolve t p with
    | inl e => (Raises (os_error e p), t)
    | inr l =>
        match entry_at t l with
        | Some Dir => (Raises (Lib (IsADirectoryError (path_str p))), t)
        | _ => (Returns tt, <[l := File data]> t)
        end
    end.

(** [p.write_text(s, encoding="utf-8")]: the file is opened for writing,
    which truncates it, before the text is encoded; on POSIX a written
    [\n] stays [\n]. *)
Definition write_text (p : Path) (s : str) : M unit :=
  write_bytes p [] ;;
  match utf8_encode s with
  | Some data => write_bytes p data
  | None => raise (Lib UnicodeEncodeError)
  end.

(** [os.mkdir(p)] *)
Definition os_mkdir (p : Path) : M unit :=
  fun t =>
    match resolve t p with
    | inl e => (Raises (os_error e p), t)
    | inr l =>
        match entry_at t l with
        | Some _ => (Raises (Lib (FileExistsError (path_str p))), t)
        | None => (Returns tt, <[l := Dir]> t)
        end
    end.

Definition is_not_found (e : exn) : bool :=
  match e with
  | Lib (FileNotFoundError _) => true
  | _ => false
  end.

(** [p.mkdir(parents=False, exist_ok=True)] *)
Definition mkdir_exist_ok (p : Path) : M unit :=
  try_except (os_mkdir p) (fun e =>
    if is_not_found e then raise e
    else d <- is_dir p ;; if d : bool then ret tt else raise e).

(** [p.mkdir(parents=True, exist_ok=True)], by recursion on the
    components of [p], innermost first. *)
Fixpoint mkdir_parents_rev (anch : bool) (rparts : list str) : M unit :=
  let self := mkPath anch (rev rparts) in
  try_except (os_mkdir self) (fun e =>
    if is_not_found e then
      match rparts with
      | [] => raise e
      | _ :: up => mkdir_parents_rev anch up ;; mkdir_exist_ok self
      end
    else d <- is_dir self ;; if d : bool then ret tt else raise e).

Definition mkdir_parents (p : Path) : M unit :=
  mkdir_parents_rev (anchored p) (rev (parts p)).

Definition is_file_exists (e : exn) : bool :=
  match e with
  | Lib (FileExistsError _) => true
  | _ => false
  end.

(** [os.makedirs(p, exist_ok=False)] *)
Fixpoint makedirs_rev (anch : bool) (rparts : list str) : M unit :=
  let self := mkPath anch (rev rparts) in
  match rparts with
  | [] => os_mkdir self
  | _ :: up =>
      let head := mkPath anch (rev up) in
      there <- (if anch || negb (bool_decide (up = []))
                then exists_ head else ret true) ;;
      (if there : bool then ret tt
       else try_except (makedirs_rev anch up)
              (fun e => if is_file_exists e then ret tt else raise e)) ;;
      os_mkdir self
  end.

Definition makedirs (p : Path) : M unit :=
  makedirs_rev (anchored p) (rev (parts p)).

(** The entries below [src], grafted below [dst]. *)
Definition graft (src dst : loc) (snapshot t : tree) : tree :=
  map_fold (fun k e acc =>
              if bool_decide (src `prefix_of` k)
              then match drop (length src) k with
                   | [] => acc
                   | rel => <[dst ++ rel := e]> acc
                   end
              else acc) t snapshot.

(** [shutil.copytree(src, dst)]: [src] must be a directory, [dst] must
    not exist and is created with its missing parents, then every entry
    below [src] is copied. The copy is of the tree as it was when the
    call started. *)
Definition copytree (src dst : Path) : M unit :=
  fun t =>
    match resolve t src with
    | inl e => (Raises (os_error e src), t)
    | inr s =>
        match entry_at t s with
        | None => (Raises (Lib (FileNotFoundError (path_str src))), t)
        | Some (File _) => (Raises (Lib (NotADirectoryError (path_str src))), t)
        | Some Dir =>
            match makedirs dst t with
            | (Raises e, t') => (Raises e, t')
            | (Returns _, t') =>
                match resolve t' dst with
                | inl e => (Raises (os_error e dst), t')
                | inr d => (Returns tt, graft s d t t')
                end
            end
        end
    end.

(** [shutil.rmtree(p, ignore_errors=True)]: a directory goes with all
    that is below it; anything else is an error, which is ignored. *)
Definition rmtree_ignore_errors (p : Path) : M unit :=
  fun t =>
    match resolve t p with
    | inl _ => (Returns tt, t)
    | inr l =>
        match entry_at t l with
        | Some Dir =>
            (Returns tt, filter (fun kv => ¬ l `prefix_of` kv.1) t)
        | _ => (Returns tt, t)
        end
    end.

End WithRuntime.

End FS.

(** ** [app/models/schemas.py] *)

Module ScriptRule.
Record t := mk {
  target_path : Py.str;
  pattern : Py.str;
  replacement : Py.str;
  use_regex : bool
}.
End ScriptRule.

Module ImageRule.
Record t := mk {
  target_path : Py.str;
  image_data : Py.str
}.
End ImageRule.

(** An element of a rule list. The request schema only admits the two
    rule models; [Other] stands for any other object a caller of the
    pipeline may hand over: the name of its type and its [target_path]
    attribute, when it has one. *)
Inductive ReplacementRule :=
| Script (rule : ScriptRule.t)
| Image (rule : ImageRule.t)
| Other (type_name : Py.str) (target_path : option Py.str).

Inductive TaskStatus := PENDING | PROCESSING | COMPLETED | FAILED.

Module RuleResult.
Record t := mk {
  rule_index : nat;
  success : bool;
  message : Py.str
}.
(** [result.rule_index = index] *)
Definition set_rule_index (index : nat) (r : t) : t :=
  {| rule_index := index; success := success r; message := message r |}.
End RuleResult.

Module ValidationError.
Record t := mk {
  rule_index : nat;
  field : Py.str;
  message : Py.str
}.
End ValidationError.

Module ValidationResult.
Record t := mk {
  valid : bool;
  errors : list ValidationError.t
}.
End ValidationResult.

(** ** [app/services/rule_engine.py] *)

Module RuleEngine.
Import Py Exc FS.
Local Open Scope py_scope.

Section WithRuntime.
Context `{Runtime}.

(** [not s or not s.strip()] *)
Definition blank (s : str) : bool :=
  bool_decide (s = []) || bool_decide (strip s = []).

Definition _validate_target_path (rule_index : nat) (target_path : str)
    : list ValidationError.t :=
  if blank target_path then
    [ValidationError.mk rule_index (lit "target_path")
       (lit "target_path 不能为空")]
  else
    (if contains (lit "..") target_path
     then [ValidationError.mk rule_index (lit "target_path")
             (lit "target_path 不能包含 '..' 路径遍历")]
     else [])
    ++
    (if startswith (lit "/") target_path
     then [ValidationError.mk rule_index (lit "target_path")
             (lit "target_path 必须是相对路径，不能以 '/' 开头")]
     else []).

Definition _validate_script_rule (rule_index : nat) (rule : ScriptRule.t)
    : list ValidationError.t :=
  if blank (ScriptRule.pattern rule) then
    [ValidationError.mk rule_index (lit "pattern") (lit "pattern 不能为空")]
  else if ScriptRule.use_regex rule then
    match re_compile (ScriptRule.pattern rule) with
    | Some e =>
        [ValidationError.mk rule_index (lit "pattern")
           (lit "无效的正则表达式: " ++ exc_text e)]
    | None => []
    end
  else [].

Definition _validate_image_rule (rule_index : nat) (rule : ImageRule.t)
    : list ValidationError.t :=
  if blank (ImageRule.image_data rule) then
    [ValidationError.mk rule_index (lit "image_data")
       (lit "image_data 不能为空")]
  else
    match Base64.b64decode (ImageRule.image_data rule) true with
    | inl _ =>
        [ValidationError.mk rule_index (lit "image_data")
           (lit "image_data 不是有效的 Base64 编码")]
    | inr _ => []
    end.

(** [rule.target_path] *)
Definition rule_target_path (rule : ReplacementRule) : outcome str :=
  match rule with
  | Script r => Returns (ScriptRule.target_path r)
  | Image r => Returns (ImageRule.target_path r)
  | Other _ (Some p) => Returns p
  | Other _ None => Raises (Lib (AttributeError (lit "target_path")))
  end.

(** The body of the loop of [validate_rules], from position [index] on. *)
Fixpoint validate_loop (index : nat) (rules : list ReplacementRule)
    (errors : list ValidationError.t) : outcome (list ValidationError.t) :=
  match rules with
  | [] => Returns errors
  | rule :: rest =>
      match rule_target_path rule with
      | Raises e => Raises e
      | Returns target_path =>
          let errors := errors ++ _validate_target_path index target_path in
          let errors :=
            match rule with
            | Script r => errors ++ _validate_script_rule index r
            | Image r => errors ++ _validate_image_rule index r
            | Other _ _ => errors
            end in
          validate_loop (S index) rest errors
      end
  end.

Definition validate_rules (rules : list ReplacementRule)
    : outcome ValidationResult.t :=
  match validate_loop 0 rules [] with
  | Returns errors =>
      Returns (ValidationResult.mk (bool_decide (length errors = 0%nat)) errors)
  | Raises e => Raises e
  end.

Definition apply_script_rule (base_dir : Path) (rule : ScriptRule.t)
    : M RuleResult.t :=
  let target_file := joinpath base_dir (ScriptRule.target_path rule) in
  there <- exists_ target_file ;;
  if negb there then
    ret (RuleResult.mk 0 false
           (lit "目标文件不存在: " ++ ScriptRule.target_path rule))
  else
    try_except
      (content <- read_text target_file ;;
       new_content <-
         (if ScriptRule.use_regex rule then
            match re_sub (ScriptRule.pattern rule)
                    (ScriptRule.replacement rule) content with
            | inr s => ret s
            | inl e => raise (Lib e)
            end
          else ret (replace (ScriptRule.pattern rule)
                      (ScriptRule.replacement rule) content)) ;;
       write_text target_file new_content ;;
       ret (RuleResult.mk 0 true
              (lit "脚本替换成功: " ++ ScriptRule.target_path rule)))
      (fun e =>
         ret (RuleResult.mk 0 false
                (lit "脚本替换失败: " ++ ScriptRule.target_path rule
                 ++ lit ", 错误: " ++ exn_str e))).

Definition apply_image_rule (base_dir : Path) (rule : ImageRule.t)
    : M RuleResult.t :=
  let target_file := joinpath base_dir (ImageRule.target_path rule) in
  there <- exists_ target_file ;;
  if negb there then
    ret (RuleResult.mk 0 false
           (lit "目标文件不存在: " ++ ImageRule.target_path rule))
  else
    try_except
      (image_bytes <-
         match Base64.b64decode (ImageRule.image_data rule) false with
         | inr b => ret b
         | inl why => raise (Lib (Base64Error why))
         end ;;
       write_bytes target_file image_bytes ;;
       ret (RuleResult.mk 0 true
              (lit "图片替换成功: " ++ ImageRule.target_path rule)))
      (fun e =>
         ret (RuleResult.mk 0 false
                (lit "图片替换失败: " ++ ImageRule.target_path rule
                 ++ lit ", 错误: " ++ exn_str e))).

End WithRuntime.
End RuleEngine.

(** ** [app/services/storage_service.py]: the path derivations *)

Module StorageService.
Import Py FS.

Record t := mk { base_dir : Path }.

Definition cache_dir (self : t) : Path := joinpath (base_dir self) (lit "cache").
Definition workspace_dir (self : t) : Path :=
  joinpath (base_dir self) (lit "workspace").
Definition output_dir (self : t) : Path := joinpath (base_dir self) (lit "output").

Definition get_cache_dir (self : t) (apk_id : str) : Path :=
  joinpath (cache_dir self) apk_id.
Definition get_work_dir (self : t) (task_id : str) : Path :=
  joinpath (workspace_dir self) task_id.
Definition get_output_path (self : t) (task_id : str) : Path :=
  joinpath (output_dir self) (task_id ++ lit ".apk").

(** [StorageService()], with the default [base_dir="data"] *)
Definition default : t := mk (parse (lit "data")).

End StorageService.

(** ** [app/services/apk_processor.py] *)

Module APKProcessor.
Import Py Exc FS.
Local Open Scope py_scope.

(** The external repackaging tool: [apktool b source_dir -o output_apk]
    run as a subprocess. It returns the exit status and what the tool
    wrote on its error stream, or raises when the process cannot be
    started, and may change the tree. *)
Class Apktool := {
  apktool_b : Path -> Path -> M (Z * bytes)
}.

Section WithRuntime.
Context `{Runtime} `{Apktool}.

Definition copy_cache_to_workdir (cache_dir work_dir : Path) : M unit :=
  try_except (copytree cache_dir work_dir)
    (fun e =>
       raise (RuntimeError (lit "复制缓存到工作目录失败: " ++ exn_str e))).

Definition recompile (source_dir output_apk : Path) : M unit :=
  mkdir_parents (parent output_apk) ;;
  process <- apktool_b source_dir output_apk ;;
  let returncode := fst process in
  let stderr := snd process in
  if negb (returncode =? 0) then
    let error_msg := strip (decode_replace stderr) in
    raise (RuntimeError
             (lit "apktool 重新打包失败 (exit code " ++ str_of_int returncode
              ++ lit "): " ++ error_msg))
  else ret tt.

(** The loop of [process_task] over [enumerate(rules)], from position
    [index] on. *)
Fixpoint apply_rules (decompiled_dir : Path) (index : nat)
    (rules : list ReplacementRule) (rule_results : list RuleResult.t)
    : M (list RuleResult.t) :=
  match rules with
  | [] => ret rule_results
  | rule :: rest =>
      result <-
        match rule with
        | Script r => RuleEngine.apply_script_rule decompiled_dir r
        | Image r => RuleEngine.apply_image_rule decompiled_dir r
        | Other type_name _ =>
            ret (RuleResult.mk index false
                   (lit "未知的规则类型: " ++ type_name))
        end ;;
      let result := RuleResult.set_rule_index index result in
      apply_rules decompiled_dir (S index) rest (rule_results ++ [result])
  end.

Definition process_task (cache_dir work_dir output_path : Path)
    (rules : list ReplacementRule) : M (list RuleResult.t) :=
  try_except (copy_cache_to_workdir cache_dir work_dir)
    (fun e => rmtree_ignore_errors work_dir ;; raise e) ;;
  let decompiled_dir := joinpath work_dir (lit "decompiled") in
  rule_results <- apply_rules decompiled_dir 0 rules [] ;;
  try_except (recompile decompiled_dir output_path)
    (fun e => rmtree_ignore_errors work_dir ;; raise e) ;;
  ret rule_results.

End WithRuntime.
End APKProcessor.

(** ** [app/routers/task_router.py]: the background runner *)

Module TaskRouter.
Import Py Exc FS APKProcessor.

(** A task record of [state.tasks]. *)
Record Task := mkTask {
  apk_id : str;
  status : TaskStatus;
  created_at : Z;
  completed_at : option Z;
  download_url : option str;
  rule_results : list RuleResult.t;
  error : option str
}.

(** The shared state of the application: the in-memory task store and
    the files on disk. *)
Record State := mkState {
  tasks : gmap (list Z) Task;
  disk : tree
}.

Definition set_status (s : TaskStatus) (task : Task) : Task :=
  mkTask (apk_id task) s (created_at task) (completed_at task)
    (download_url task) (rule_results task) (error task).

Section WithRuntime.
Context `{Runtime} `{Apktool}.

(** [task["status"] = COMPLETED] and the three assignments after it *)
Definition completed (task_id : str) (results : list RuleResult.t)
    (task : Task) : Task :=
  mkTask (apk_id task) COMPLETED (created_at task) (Some utcnow)
    (Some (lit "/api/v1/download/" ++ task_id)) results (error task).

(** [task["status"] = FAILED] and the two assignments after it *)
Definition failed (e : exn) (task : Task) : Task :=
  mkTask (apk_id task) FAILED (created_at task) (Some utcnow)
    (download_url task) (rule_results task) (Some (exn_str e)).

(** [_run_task]: the task record is the object stored in [state.tasks],
    so every assignment to it is an update of the store. *)
Definition _run_task (storage : StorageService.t) (task_id apk_id : str)
    (rules : list ReplacementRule) (st : State) : outcome unit * State :=
  match tasks st !! task_id with
  | None => (Raises (Lib (KeyError task_id)), st)
  | Some task0 =>
      let task := set_status PROCESSING task0 in
      let cache_dir := StorageService.get_cache_dir storage apk_id in
      let work_dir := StorageService.get_work_dir storage task_id in
      let output_path := StorageService.get_output_path storage task_id in
      match process_task cache_dir work_dir output_path rules (disk st) with
      | (Returns results, d) =>
          (Returns tt,
           mkState (<[task_id := completed task_id results task]> (tasks st)) d)
      | (Raises e, d) =>
          (Returns tt, mkState (<[task_id := failed e task]> (tasks st)) d)
      end
  end.

End WithRuntime.
End TaskRouter.

(** ** A concrete runtime, tool and tree, for running the model *)

Module Demo.
Import Py Exc FS APKProcessor TaskRouter.

Definition render (e : lib_exn) : str :=
  match e with
  | FileNotFoundError f => lit "[Errno 2] No such file or directory: " ++ f
  | NotADirectoryError f => lit "[Errno 20] Not a directory: " ++ f
  | IsADirectoryError f => lit "[Errno 21] Is a directory: " ++ f
  | FileExistsError f => lit "[Errno 17] File exists: " ++ f
  | UnicodeDecodeError => lit "'utf-8' codec can't decode"
  | UnicodeEncodeError => lit "'utf-8' codec can't encode"
  | Base64Error Base64.NonAscii =>
      lit "string argument should contain only ASCII characters"
  | Base64Error Base64.LeadingPadding => lit "Leading padding not allowed"
  | Base64Error Base64.ExcessData => lit "Excess data after padding"
  | Base64Error Base64.OnlyBase64 => lit "Only base64 data is allowed"
  | Base64Error Base64.DiscontinuousPadding =>
      lit "Discontinuous padding not allowed"
  | Base64Error (Base64.InvalidLength n) =>
      lit "Invalid base64-encoded string: number of data characters ("
      ++ str_of_int n ++ lit ") cannot be 1 more than a multiple of 4"
  | Base64Error Base64.IncorrectPadding => lit "Incorrect padding"
  | ReError d => d
  | AttributeError n => lit "object has no attribute " ++ n
  | KeyError k => k
  end.

(** A runtime whose regular expressions never match, run from [/srv]. *)
#[export] Instance runtime : Runtime := {|
  getcwd := [lit "srv"];
  exc_text := render;
  re_compile := fun _ => None;
  re_sub := fun _ _ s => inr s;
  decode_replace := fun bs => default [65533] (utf8_decode bs);
  utcnow := 1700000000
|}.

(** A tool that writes a two-octet package and exits with status 0. *)
Definition tool_ok : Apktool :=
  {| apktool_b := fun _ out =>
       bind (write_bytes out [80; 75]) (fun _ => ret (0, [])) |}.

(** A tool that writes nothing and exits with status 1. *)
Definition tool_fail : Apktool :=
  {| apktool_b := fun _ _ => ret (1, octets "brut.AndrolibException
") |}.

(** The location named by an absolute path. *)
Definition at_ (s : string) : loc := parts (parse (lit s)).

(** [/srv/data] as it is after an upload: one cached package. *)
Definition disk0 : tree :=
  list_to_map
    [ (at_ "/srv", Dir);
      (at_ "/srv/data", Dir);
      (at_ "/srv/data/cache", Dir);
      (at_ "/srv/data/workspace", Dir);
      (at_ "/srv/data/output", Dir);
      (at_ "/srv/data/cache/apk1", Dir);
      (at_ "/srv/data/cache/apk1/decompiled", Dir);
      (at_ "/srv/data/cache/apk1/decompiled/res", Dir);
      (at_ "/srv/data/cache/apk1/decompiled/res/icon.png",
       File [137; 80; 78; 71]);
      (at_ "/srv/data/cache/apk1/decompiled/a.txt",
       File (octets "hello"));
      (at_ "/srv/data/cache/apk1/decompiled/crlf.txt",
       File [97; 13; 10; 98]) ].



Definition cache1 : Path := StorageService.get_cache_dir StorageService.default (lit "apk1").
Definition work1 : Path := StorageService.get_work_dir StorageService.default (lit "t1").
Definition out1 : Path := StorageService.get_output_path StorageService.default (lit "t1").


(** Two rules the validator accepts. *)
Definition edit_rules : list ReplacementRule :=
  [ Script (ScriptRule.mk (lit "a.txt") (lit "hello") (lit "bye") false);
    Image (ImageRule.mk (lit "res/icon.png") (lit "aGk=")) ].

(** A rule the validator rejects: its target is an absolute path. *)
Definition escaping_rules : list ReplacementRule :=
  [ Script (ScriptRule.mk (lit "/srv/data/cache/apk1/decompiled/a.txt")
              (lit "hello") (lit "bye") false) ].


(** The tree after the copy of the cache into the workspace of [t1],
    and the root the rules of [t1] are applied to. *)
Definition disk1 : tree := (copy_cache_to_workdir cache1 work1 disk0).2.
Definition root1 : Path := joinpath work1 (lit "decompiled").

Definition task0 : Task :=
  mkTask (lit "apk1") PENDING 1699999999 None None [] None.

Definition state0 : State := mkState {[ lit "t1" := task0 ]} disk0.

End Demo.

(** ** Vocabulary of the statements *)

Module Spec.
Import Py Exc FS APKProcessor.


Definition absolute_path_error (i : nat) : ValidationError.t :=
  ValidationError.mk i (lit "target_path")
    (lit "target_path 必须是相对路径，不能以 '/' 开头").

(** The rule has a [target_path] attribute. *)
Definition has_target_path (rule : ReplacementRule) : Prop :=
  match rule with
  | Other _ None => False
  | _ => True
  end.

(** The rule is one of the two rule models. *)
Definition is_model (rule : ReplacementRule) : Prop :=
  match rule with
  | Other _ _ => False
  | _ => True
  end.

(** The target path of a rule, empty when it has none. *)
Definition target_of (rule : ReplacementRule) : str :=
  match rule with
  | Script r => ScriptRule.target_path r
  | Image r => ImageRule.target_path r
  | Other _ (Some p) => p
  | Other _ None => []
  end.

(** What [validate_rules] appends for the rule at position [index]. *)
Definition rule_errors `{Runtime} (index : nat) (rule : ReplacementRule)
    : list ValidationError.t :=
  RuleEngine._validate_target_path index (target_of rule)
  ++ match rule with
     | Script r => RuleEngine._validate_script_rule index r
     | Image r => RuleEngine._validate_image_rule index r
     | Other _ _ => []
     end.

(** One turn of the loop of [process_task]: the rule at position [index]
    is applied and its result is given that position. *)
Definition apply_one `{Runtime} (decompiled_dir : Path) (index : nat)
    (rule : ReplacementRule) : M RuleResult.t :=
  bind
    match rule with
    | Script r => RuleEngine.apply_script_rule decompiled_dir r
    | Image r => RuleEngine.apply_image_rule decompiled_dir r
    | Other type_name _ =>
        ret (RuleResult.mk index false (lit "未知的规则类型: " ++ type_name))
    end
    (fun result => ret (RuleResult.set_rule_index index result)).

(** [applied_in_order d i rules t results t']: starting in the tree [t],
    the rules were applied one after the other, each to the tree the
    previous one left, the first at position [i]; [results] are their
    results in the same order and [t'] is the tree at the end. *)
Inductive applied_in_order `{Runtime} (d : Path)
    : nat -> list ReplacementRule -> tree -> list RuleResult.t -> tree -> Prop :=
| applied_nil i t : applied_in_order d i [] t [] t
| applied_cons i rule rest t r t1 rs t2 :
    apply_one d i rule t = (Returns r, t1) ->
    applied_in_order d (S i) rest t1 rs t2 ->
    applied_in_order d i (rule :: rest) t (r :: rs) t2.

(** Run on [source_dir] for [output_apk], the tool may create, change
    and delete entries, but it does not put a regular file where the
    directory [l] was. *)
Definition tool_keeps_directory `{Runtime} `{Apktool} (l : loc)
    (source_dir output_apk : Path) : Prop :=
  forall (t : tree),
    t !! l = Some Dir ->
    forall data, (apktool_b source_dir output_apk t).2 !! l <> Some (File data).

(** Run on [source_dir] for [output_apk], the tool leaves what is at
    or below the location [c] alone. *)
Definition tool_spares `{Runtime} `{Apktool} (c : loc)
    (source_dir output_apk : Path) : Prop :=
  forall (t : tree) (l : loc),
    c `prefix_of` l -> (apktool_b source_dir output_apk t).2 !! l = t !! l.

(** A single path component, as an identifier that names a file. *)
Definition plain_name (s : str) : Prop :=
  (SLASH ∉ s) /\ s <> [] /\ s <> DOT /\ s <> DOTDOT.

(** A target path as the validator lets it through. *)
Definition safe_target (s : str) : Prop :=
  contains (lit "..") s = false /\ startswith (lit "/") s = false.

Fixpoint loop_errors `{Runtime} (index : nat) (rules : list ReplacementRule)
    : list ValidationError.t :=
  match rules with
  | [] => []
  | rule :: rest => rule_errors index rule ++ loop_errors (S index) rest
  end.

End Spec.

(** ** Vocabulary of the further statements *)

Module Cover.
Import Py Exc FS APKProcessor Spec.

(** What the validator asks of one rule: a target path that is not blank,
    has no [..] and does not start with [/]; for a script rule a pattern
    that is not blank and, in regex mode, compiles; for an image rule
    data that is not blank and decodes as strict base64. *)
Definition acceptable `{Runtime} (rule : ReplacementRule) : Prop :=
  has_target_path rule
  /\ RuleEngine.blank (target_of rule) = false
  /\ safe_target (target_of rule)
  /\ match rule with
     | Script r =>
         RuleEngine.blank (ScriptRule.pattern r) = false
         /\ (ScriptRule.use_regex r = true ->
             re_compile (ScriptRule.pattern r) = None)
     | Image r =>
         RuleEngine.blank (ImageRule.image_data r) = false
         /\ exists b, Base64.b64decode (ImageRule.image_data r) true = inr b
     | Other _ _ => True
     end.

(** The substitution a script rule makes in a text: [re.sub] in regex
    mode, [str.replace] otherwise. *)
Definition substitute `{Runtime} (r : ScriptRule.t) (content : str)
    : lib_exn + str :=
  if ScriptRule.use_regex r
  then re_sub (ScriptRule.pattern r) (ScriptRule.replacement r) content
  else inr (replace (ScriptRule.pattern r) (ScriptRule.replacement r) content).

(** The failure a script rule reports for the exception [e]. *)
Definition script_failure `{Runtime} (r : ScriptRule.t) (e : exn)
    : RuleResult.t :=
  RuleResult.mk 0 false
    (lit "脚本替换失败: " ++ ScriptRule.target_path r
     ++ lit ", 错误: " ++ exn_str e).

Definition script_success (r : ScriptRule.t) : RuleResult.t :=
  RuleResult.mk 0 true (lit "脚本替换成功: " ++ ScriptRule.target_path r).

Definition image_success (r : ImageRule.t) : RuleResult.t :=
  RuleResult.mk 0 true (lit "图片替换成功: " ++ ImageRule.target_path r).

(** The kind of what is at a location: nothing, a regular file or a
    directory. *)
Inductive kind := Absent | IsFile | IsDir.

Definition kind_of (o : option entry) : kind :=
  match o with
  | None => Absent
  | Some (File _) => IsFile
  | Some Dir => IsDir
  end.

(** What an applier can have done to the tree: nothing, or put new
    content in the regular file its target leads to. *)
Definition rewrote `{Runtime} (t t' : tree) (target : Path) : Prop :=
  t' = t
  \/ exists l data new_data,
       resolve t target = inr l /\ t !! l = Some (File data)
       /\ t' = <[l := File new_data]> t.

(** *** [APKProcessor.read_file_from_cache] *)

(** [p.is_file()] *)
Definition is_file `{Runtime} (p : Path) : M bool :=
  fun t =>
    (Returns match resolve t p with
             | inr l => match entry_at t l with
                        | Some (File _) => true
                        | _ => false
                        end
             | inl _ => false
             end, t).

(** [p.resolve()]: the absolute path, with [..] taken out. The tree has
    no symbolic links, so nothing else is followed. *)
Definition Path_resolve `{Runtime} (p : Path) : Path := mkPath true (locate p).

(** How a read of a cached file fails: the two exceptions the function
    raises itself, with their text, and anything raised by a call it
    makes. *)
Inductive read_failure :=
| ValueError (msg : str)
| FileNotFound (msg : str)
| Uncaught (e : exn).

(** [read_file_from_cache(cache_dir, internal_path)]. The function only
    reads, so the tree is an argument and the result is the returned
    text or the failure. *)
Definition read_file_from_cache `{Runtime} (cache_dir : Path)
    (internal_path : str) (t : tree) : read_failure + str :=
  if contains (lit "..") internal_path
  then inl (ValueError (lit "路径不允许包含 '..'"))
  else if startswith (lit "/") internal_path
  then inl (ValueError (lit "路径不允许以 '/' 开头"))
  else
    let target := joinpath (joinpath cache_dir (lit "decompiled")) internal_path in
    let decompiled_dir := Path_resolve (joinpath cache_dir (lit "decompiled")) in
    let resolved_target := Path_resolve target in
    if negb (startswith (path_str decompiled_dir) (path_str resolved_target))
    then inl (ValueError (lit "路径遍历攻击被阻止"))
    else
      match is_file resolved_target t with
      | (Raises e, _) => inl (Uncaught e)
      | (Returns false, _) =>
          inl (FileNotFound (lit "文件不存在: " ++ internal_path))
      | (Returns true, t1) =>
          match read_text resolved_target t1 with
          | (Returns content, _) => inr content
          | (Raises e, _) => inl (Uncaught e)
          end
      end.

End Cover.

(** ** [app/state.py] and the request handlers of [app/routers/task_router.py] *)

Module CacheStatus.
Inductive t := DECOMPILING | READY | FAILED.

Definition eqb (a b : t) : bool :=
  match a, b with
  | DECOMPILING, DECOMPILING | READY, READY | FAILED, FAILED => true
  | _, _ => false
  end.
End CacheStatus.

Module Api.
Import Py Exc FS APKProcessor TaskRouter.

(** A record of [state.apk_metadata], with the four keys [upload_apk]
    gives it. *)
Record ApkMeta := mkMeta {
  filename : str;
  cache_status : CacheStatus.t;
  size : Z;
  uploaded_at : Z
}.

(** The module [app.state]: the two in-memory stores, over the disk. *)
Record App := mkApp {
  apk_metadata : gmap (list Z) ApkMeta;
  state : State
}.

(** What a handler of the task router answers. *)
Inductive response :=
| error_response (status_code : Z) (code message : str)
    (details : option (list ValidationError.t))
| task_created (task_id : str)
| file_response (path dl_filename : str).

(** A call handed to [background_tasks.add_task]: [_run_task] with its
    three arguments. *)
Record Job := mkJob {
  job_task_id : str;
  job_apk_id : str;
  job_rules : list ReplacementRule
}.

Definition status_eqb (a b : TaskStatus) : bool :=
  match a, b with
  | PENDING, PENDING | PROCESSING, PROCESSING
  | COMPLETED, COMPLETED | FAILED, FAILED => true
  | _, _ => false
  end.

Section WithRuntime.
Context `{Runtime} `{Apktool}.

(** [create_task(request, background_tasks)]; [uuid4_hex] is the value
    of [uuid4().hex] in this call. The result is the response with the
    call that was scheduled, if any. *)
Definition create_task (request_apk_id : str)
    (request_rules : list ReplacementRule) (uuid4_hex : str) (app : App)
    : outcome (response * option Job) * App :=
  match apk_metadata app !! request_apk_id with
  | None =>
      (Returns (error_response 404 (lit "APK_NOT_FOUND")
                  (lit "APK " ++ request_apk_id ++ lit " 不存在") None,
                None), app)
  | Some meta =>
      if negb (CacheStatus.eqb (cache_status meta) CacheStatus.READY)
      then (Returns (error_response 409 (lit "CACHE_NOT_READY")
                       (lit "APK 缓存尚未就绪") None, None), app)
      else
        match RuleEngine.validate_rules request_rules with
        | Raises e => (Raises e, app)
        | Returns validation =>
            if negb (ValidationResult.valid validation)
            then (Returns (error_response 400 (lit "INVALID_RULE")
                             (lit "规则验证失败")
                             (Some (ValidationResult.errors validation)),
                           None), app)
            else
              let task_id := uuid4_hex in
              let now := utcnow in
              let task := mkTask request_apk_id PENDING now None None [] None in
              (Returns (task_created task_id,
                        Some (mkJob task_id request_apk_id request_rules)),
               mkApp (apk_metadata app)
                 (mkState (<[task_id := task]> (tasks (state app)))
                    (disk (state app))))
        end
  end.

(** The scheduled call, run after the response has been sent. *)
Definition run_job (storage : StorageService.t) (job : Job) (app : App)
    : outcome unit * App :=
  let r := _run_task storage (job_task_id job) (job_apk_id job)
             (job_rules job) (state app) in
  (r.1, mkApp (apk_metadata app) r.2).

(** [download_task(task_id)], up to the response object it builds. *)
Definition download_task (storage : StorageService.t) (task_id : str)
    (app : App) : response :=
  match tasks (state app) !! task_id with
  | None =>
      error_response 404 (lit "TASK_NOT_FOUND")
        (lit "任务 " ++ task_id ++ lit " 不存在") None
  | Some task =>
      if negb (status_eqb (status task) COMPLETED)
      then error_response 404 (lit "DOWNLOAD_NOT_FOUND")
             (lit "下载文件不存在或任务未完成") None
      else
        let output_path := StorageService.get_output_path storage task_id in
        if negb (present (disk (state app)) output_path)
        then error_response 404 (lit "DOWNLOAD_NOT_FOUND")
               (lit "下载文件不存在") None
        else
          let filename :=
            match apk_metadata app !! apk_id task with
            | Some meta => filename meta
            | None => task_id ++ lit ".apk"
            end in
          file_response (path_str output_path) filename
  end.

(** The package is known and its cache is ready. *)
Definition cache_ready (app : App) (apk_id : str) : Prop :=
  exists meta,
    apk_metadata app !! apk_id = Some meta
    /\ cache_status meta = CacheStatus.READY.

(** What the tool owes for a download: when it exits with status 0 it
    has left something at the output path. *)
Definition tool_delivers (source_dir output_apk : Path) : Prop :=
  forall t stderr t',
    apktool_b source_dir output_apk t = (Returns (0, stderr), t') ->
    present t' output_apk = true.

End WithRuntime.
End Api.

(** ** The rest of [app/services/storage_service.py], [decompile_to_cache]
    and the handlers of [app/routers/apk_router.py] that write *)

Module Storage.
Import Py Exc FS APKProcessor TaskRouter.
Local Open Scope py_scope.

(** [zipfile.ZipFile(io.BytesIO(content)).namelist()]: the names, or
    [BadZipFile], or another exception. *)
Inductive zip_listing :=
| Namelist (names : list str)
| BadZipFile
| ZipRaises (e : exn).

(** The archive reader, which is not modelled. *)
Class Zip := { namelist : bytes -> zip_listing }.

(** The external tool run as [apktool d apk_path -o output_dir -f]. *)
Class Decompiler := { apktool_d : Path -> Path -> M (Z * bytes) }.

(** How the code of this part fails: the [ValueError]s it raises itself,
    an exception of the model, or the [OSError] of [rmdir] on the root. *)
Inductive failure :=
| ValueError (msg : str)
| Raised (e : exn)
| OSError_EBUSY (filename : str).

(** Code over the tree that may fail with a [failure]. *)
Definition S (A : Type) : Type := tree -> (failure + A) * tree.

Definition lift {A} (m : M A) : S A :=
  fun t =>
    match m t with
    | (Returns a, t') => (inr a, t')
    | (Raises e, t') => (inl (Raised e), t')
    end.

Definition sbind {A B} (m : S A) (k : A -> S B) : S B :=
  fun t =>
    match m t with
    | (inr a, t') => k a t'
    | (inl f, t') => (inl f, t')
    end.

Definition sret {A} (a : A) : S A := fun t => (inr a, t).

(** [if p.exists(): body] *)
Definition if_exists `{Runtime} (p : Path) (body : S unit) : S unit :=
  fun t => if present t p then body t else (inr tt, t).

Section WithRuntime.
Context `{Runtime} `{Zip} `{Decompiler}.

(** [p.unlink()]; on Linux a directory is refused with [EISDIR]. *)
Definition unlink (p : Path) : M unit :=
  fun t =>
    match resolve t p with
    | inl e => (Raises (os_error e p), t)
    | inr l =>
        match entry_at t l with
        | None => (Raises (Lib (FileNotFoundError (path_str p))), t)
        | Some Dir => (Raises (Lib (IsADirectoryError (path_str p))), t)
        | Some (File _) => (Returns tt, delete l t)
        end
    end.

(** [shutil.rmtree(p)]: the directory goes with all that is below it;
    the root is emptied and cannot be removed itself. *)
Definition rmtree (p : Path) : S unit :=
  fun t =>
    match resolve t p with
    | inl e => (inl (Raised (os_error e p)), t)
    | inr l =>
        match entry_at t l with
        | None => (inl (Raised (Lib (FileNotFoundError (path_str p)))), t)
        | Some (File _) =>
            (inl (Raised (Lib (NotADirectoryError (path_str p)))), t)
        | Some Dir =>
            let t' := filter (fun kv => ¬ l `prefix_of` kv.1) t in
            match l with
            | [] => (inl (OSError_EBUSY (path_str p)), t')
            | _ :: _ => (inr tt, t')
            end
        end
    end.

Definition uploads_dir (self : StorageService.t) : Path :=
  joinpath (StorageService.base_dir self) (lit "uploads").

Definition get_apk_path (self : StorageService.t) (apk_id : str) : Path :=
  joinpath (uploads_dir self) (apk_id ++ lit ".apk").

Fixpoint mkdir_each (dirs : list Path) : M unit :=
  match dirs with
  | [] => ret tt
  | d :: rest => mkdir_parents d ;; mkdir_each rest
  end.

Definition _ensure_directories (self : StorageService.t) : M unit :=
  mkdir_each [uploads_dir self; StorageService.cache_dir self;
              StorageService.workspace_dir self;
              StorageService.output_dir self].

Definition ZIP_MAGIC : bytes := [80; 75; 3; 4].

Definition _validate_apk_format (content : bytes) : failure + unit :=
  if (length content <? 4)%nat
     || negb (bool_decide (take 4 content = ZIP_MAGIC))
  then inl (ValueError (lit "文件不是有效的 ZIP 格式（缺少 PK 魔数）"))
  else
    match namelist content with
    | Namelist names =>
        if negb (bool_decide (lit "AndroidManifest.xml" ∈ names))
        then inl (ValueError
                    (lit "ZIP 文件中缺少 AndroidManifest.xml，不是有效的 APK"))
        else inr tt
    | BadZipFile => inl (ValueError (lit "文件不是有效的 ZIP 格式"))
    | ZipRaises e => inl (Raised e)
    end.

(** [save_upload(file)], for a file that reads as [content];
    [uuid4_hex] is the value of [uuid.uuid4().hex] in this call. *)
Definition save_upload (self : StorageService.t) (content : bytes)
    (uuid4_hex : str) : S str :=
  fun t =>
    match _validate_apk_format content with
    | inl f => (inl f, t)
    | inr _ =>
        let apk_id := uuid4_hex in
        let apk_path := joinpath (uploads_dir self) (apk_id ++ lit ".apk") in
        sbind (lift (write_bytes apk_path content)) (fun _ => sret apk_id) t
    end.

(** The loop of [delete_apk] over the tasks of the package. *)
Fixpoint delete_task_files (self : StorageService.t) (task_ids : list str)
    : S unit :=
  match task_ids with
  | [] => sret tt
  | task_id :: rest =>
      let output_path := StorageService.get_output_path self task_id in
      let work_dir := StorageService.get_work_dir self task_id in
      sbind (if_exists output_path (lift (unlink output_path))) (fun _ =>
      sbind (if_exists work_dir (rmtree work_dir)) (fun _ =>
      delete_task_files self rest))
  end.

Definition delete_apk (self : StorageService.t) (apk_id : str)
    (task_ids : list str) : S unit :=
  let apk_path := get_apk_path self apk_id in
  let cache_dir := StorageService.get_cache_dir self apk_id in
  sbind (if_exists apk_path (lift (unlink apk_path))) (fun _ =>
  sbind (if_exists cache_dir (rmtree cache_dir)) (fun _ =>
  delete_task_files self task_ids)).

(** [APKProcessor.decompile_to_cache(apk_path, cache_dir)] *)
Definition decompile_to_cache (apk_path cache_dir : Path) : M unit :=
  let output_dir := joinpath cache_dir (lit "decompiled") in
  mkdir_parents cache_dir ;;
  process <- apktool_d apk_path output_dir ;;
  let returncode := fst process in
  let stderr := snd process in
  if negb (returncode =? 0) then
    let error_msg := strip (decode_replace stderr) in
    raise (RuntimeError
             (lit "apktool 反编译失败 (exit code " ++ str_of_int returncode
              ++ lit "): " ++ error_msg))
  else ret tt.

End WithRuntime.
End Storage.

Module ApkRouter.
Import Py Exc FS APKProcessor TaskRouter Api Storage.
Local Open Scope py_scope.

Definition MAX_FILE_SIZE : Z := 500 * 1024 * 1024.

(** What [upload_apk] and [delete_apk] answer. *)
Inductive response :=
| error_response (status_code : Z) (code message : str)
| upload_response (apk_id up_filename : str) (up_size : Z)
    (up_status : CacheStatus.t)
| file_content (content : str)
| success.

(** [str(e)] *)
Definition failure_str `{Runtime} (f : failure) : str :=
  match f with
  | ValueError msg => msg
  | Raised e => exn_str e
  | OSError_EBUSY filename =>
      lit "[Errno 16] Device or resource busy: '" ++ filename ++ lit "'"
  end.

(** [isinstance(e, ValueError)]: the decoding and encoding errors and the
    base64 error are [ValueError]s. *)
Definition is_value_error (f : failure) : bool :=
  match f with
  | ValueError _ => true
  | Raised (Lib UnicodeDecodeError) | Raised (Lib UnicodeEncodeError)
  | Raised (Lib (Base64Error _)) => true
  | _ => false
  end.

Section WithRuntime.
Context `{Runtime} `{Zip} `{Decompiler}.

(** The handler of [except RuntimeError] in [upload_apk]. *)
Definition cleanup_failed_upload (storage : StorageService.t) (apk_id : str)
    (cache_dir : Path) (msg : str) : M response :=
  let apk_path := get_apk_path storage apk_id in
  (there <- exists_ apk_path ;;
   if there : bool then unlink apk_path else ret tt) ;;
  (there <- exists_ cache_dir ;;
   if there : bool then rmtree_ignore_errors cache_dir else ret tt) ;;
  ret (error_response 500 (lit "DECOMPILE_ERROR") msg).

(** [upload_apk(file)] for a file that reads as [content] and has the
    name [file_filename]; [uuid4_hex] is what [uuid.uuid4().hex] gives.
    An exception that no handler catches is the outcome [Raises]. *)
Definition upload_apk (storage : StorageService.t) (content : bytes)
    (file_filename : option str) (uuid4_hex : str) (app : App)
    : outcome response * App :=
  if Z.of_nat (length content) >? MAX_FILE_SIZE
  then (Returns (error_response 413 (lit "FILE_TOO_LARGE")
                   (lit "文件大小超过限制，最大允许 "
                    ++ str_of_int (MAX_FILE_SIZE / (1024 * 1024))
                    ++ lit " MB")), app)
  else
    let with_disk d := mkApp (apk_metadata app) (mkState (tasks (state app)) d) in
    match save_upload storage content uuid4_hex (disk (state app)) with
    | (inl e, d) =>
        if is_value_error e
        then (Returns (error_response 400 (lit "INVALID_APK_FORMAT")
                         (failure_str e)), with_disk d)
        else (Returns (error_response 500 (lit "STORAGE_ERROR")
                         (lit "存储文件失败: " ++ failure_str e)), with_disk d)
    | (inr apk_id, d) =>
        let apk_path := get_apk_path storage apk_id in
        let cache_dir := StorageService.get_cache_dir storage apk_id in
        match decompile_to_cache apk_path cache_dir d with
        | (Raises (RuntimeError msg), d1) =>
            let r := cleanup_failed_upload storage apk_id cache_dir msg d1 in
            (r.1, with_disk r.2)
        | (Raises e, d1) => (Raises e, with_disk d1)
        | (Returns _, d1) =>
            let filename :=
              match file_filename with
              | Some (c :: name) => c :: name
              | _ => apk_id ++ lit ".apk"
              end in
            let size := Z.of_nat (length content) in
            let now := utcnow in
            (Returns (upload_response apk_id filename size CacheStatus.READY),
             mkApp (<[apk_id := mkMeta filename CacheStatus.READY size now]>
                      (apk_metadata app))
               (mkState (tasks (state app)) d1))
        end
    end.


(** The identifiers of the tasks of a package; [order] is the order in
    which [state.tasks] lists its keys, which the map does not keep. *)
Definition tasks_of (app : App) (order : list str) (apk_id : str) : list str :=
  List.filter
    (fun tid =>
       match tasks (state app) !! tid with
       | Some task => bool_decide (TaskRouter.apk_id task = apk_id)
       | None => false
       end) order.

Definition pop_all {A} (keys : list str) (m : gmap (list Z) A)
    : gmap (list Z) A :=
  fold_left (fun acc k => delete k acc) keys m.

(** [delete_apk(apk_id)] *)
Definition delete_apk (storage : StorageService.t) (order : list str)
    (apk_id : str) (app : App) : (failure + response) * App :=
  let apk_path := get_apk_path storage apk_id in
  if negb (present (disk (state app)) apk_path)
  then (inr (error_response 404 (lit "APK_NOT_FOUND")
               (lit "APK " ++ apk_id ++ lit " 不存在")), app)
  else
    let task_ids := tasks_of app order apk_id in
    match Storage.delete_apk storage apk_id task_ids (disk (state app)) with
    | (inl f, d) =>
        (inl f, mkApp (apk_metadata app) (mkState (tasks (state app)) d))
    | (inr _, d) =>
        (inr success,
         mkApp (delete apk_id (apk_metadata app))
           (mkState (pop_all task_ids (tasks (state app))) d))
    end.

End WithRuntime.
End ApkRouter.

(** ** More concrete data: a service with an upload, and its tools *)

Module Scene.
Import Py Exc FS APKProcessor TaskRouter Api Storage Demo.

(** An archive reader that finds a manifest in every archive. *)
Definition zip_ok : Zip :=
  {| namelist := fun _ => Namelist [lit "classes.dex"; lit "AndroidManifest.xml"] |}.

(** A decompiler that creates its output directory and exits with
    status 0, and one that writes nothing and exits with status 1. *)
Definition decompiler_ok : Decompiler :=
  {| apktool_d := fun _ out => bind (os_mkdir out) (fun _ => ret (0, [])) |}.

Definition decompiler_fail : Decompiler :=
  {| apktool_d := fun _ _ => ret (1, octets "brut.directory.DirectoryException") |}.

(** The tree of [disk1] with a file that is not UTF-8 in the workspace. *)
Definition disk_bad : tree :=
  <[at_ "/srv/data/workspace/t1/decompiled/bad.bin" := File [255; 254]]> disk1.

(** The tree of [disk1] with the uploads directory and the uploaded file
    of [apk1]. *)
Definition disk_up : tree :=
  <[at_ "/srv/data/uploads" := Dir]>
    (<[at_ "/srv/data/uploads/apk1.apk" := File [80; 75; 3; 4]]> disk1).

Definition meta1 : ApkMeta :=
  mkMeta (lit "demo.apk") CacheStatus.READY 4 1699999990.

(** The service after the upload of [apk1], before and after the request
    for the task [t1]. *)
Definition app0 : App := mkApp {[ lit "apk1" := meta1 ]} (mkState ∅ disk0).

Definition app1 : App := mkApp {[ lit "apk1" := meta1 ]} state0.

Definition app_up : App :=
  mkApp {[ lit "apk1" := meta1 ]} (mkState {[ lit "t1" := task0 ]} disk_up).

Definition surrogate_rule : ScriptRule.t :=
  ScriptRule.mk (lit "a.txt") (lit "hello") [55296] false.

Definition icon_rule : ImageRule.t :=
  ImageRule.mk (lit "res/icon.png") (lit "aGk=").

End Scene.

(** * Properties *)

Import Py Exc FS APKProcessor TaskRouter.

(** ** Text *)

Lemma startswith_refl (s : str) : startswith s s = true.
Proof.
  induction s as [|c s IH]; simpl; [reflexivity|].
  rewrite Z.eqb_refl. exact IH.
Qed.

Lemma contains_refl (s : str) : contains s s = true.
Proof. destruct s; simpl; [reflexivity|]. rewrite Z.eqb_refl, startswith_refl. reflexivity. Qed.

Lemma contains_app_skip (n a b : str) :
  contains n b = true -> contains n (a ++ b) = true.
Proof.
  intros Hb. induction a as [|c a IH]; simpl; [exact Hb|].
  rewrite IH. apply orb_true_r.
Qed.





(** ** The validator *)

Section Validator.
Context `{Runtime}.
Import RuleEngine Spec.

Lemma validate_loop_spec (rules : list ReplacementRule) :
  Forall has_target_path rules ->
  forall index acc,
    validate_loop index rules acc = Returns (acc ++ loop_errors index rules).
Proof.
  induction 1 as [|rule rest Hr _ IH]; intros index acc; simpl.
  - by rewrite app_nil_r.
  - destruct rule as [r|r|ty [p|]]; simpl in *; try done;
      rewrite IH; unfold rule_errors; simpl; by rewrite ?app_nil_r, <- ?app_assoc.
Qed.

Lemma rule_errors_index (index : nat) (rule : ReplacementRule) :
  Forall (fun e => ValidationError.rule_index e = index) (rule_errors index rule).
Proof.
  unfold rule_errors, _validate_target_path, _validate_script_rule,
    _validate_image_rule.
  apply Forall_app. split.
  - repeat case_match; repeat constructor.
  - destruct rule; repeat case_match; repeat constructor.
Qed.

Lemma loop_errors_index_ge (rules : list ReplacementRule) (index : nat) :
  Forall (fun e => (index <= ValidationError.rule_index e)%nat)
    (loop_errors index rules).
Proof.
  revert index. induction rules as [|rule rest IH]; intros index; simpl.
  - constructor.
  - apply Forall_app. split.
    + eapply Forall_impl; [apply rule_errors_index|]. simpl. lia.
    + eapply Forall_impl; [apply IH|]. simpl. lia.
Qed.





End Validator.

(** ** The rule appliers *)

Ltac by_computation := apply (bool_decide_unpack _); vm_compute; exact I.

Ltac run_m :=
  unfold bind, try_except, ret, raise, exists_ in *; simpl in *.

Section Appliers.
Context `{Runtime}.
Import RuleEngine Spec.

(** An applier returns a result: whatever is raised while it reads,
    substitutes, decodes or writes is caught. *)
Lemma apply_script_rule_returns (base_dir : Path) (rule : ScriptRule.t)
    (t : tree) :
  exists r t', apply_script_rule base_dir rule t = (Returns r, t').
Proof.
  unfold apply_script_rule, read_text, write_text, read_bytes, write_bytes.
  run_m. repeat (case_match; simplify_eq/=); eauto.
Qed.

Lemma apply_image_rule_returns (base_dir : Path) (rule : ImageRule.t)
    (t : tree) :
  exists r t', apply_image_rule base_dir rule t = (Returns r, t').
Proof.
  unfold apply_image_rule, write_bytes.
  run_m. repeat (case_match; simplify_eq/=); eauto.
Qed.

Lemma apply_one_returns (d : Path) (index : nat) (rule : ReplacementRule)
    (t : tree) :
  exists r t',
    apply_one d index rule t = (Returns r, t')
    /\ RuleResult.rule_index r = index.
Proof.
  unfold apply_one. destruct rule as [r|r|ty tp].
  - destruct (apply_script_rule_returns d r t) as (x & t' & Hx).
    run_m. rewrite Hx. eauto.
  - destruct (apply_image_rule_returns d r t) as (x & t' & Hx).
    run_m. rewrite Hx. eauto.
  - run_m. eauto.
Qed.

End Appliers.

(** ** The loop over the rules and the pipeline *)

Section Pipeline.
Context `{Runtime} `{Apktool}.
Import RuleEngine Spec.

Lemma apply_rules_step (d : Path) (i : nat) (rule : ReplacementRule)
    (rest : list ReplacementRule) (acc : list RuleResult.t) (t : tree) :
  apply_rules d i (rule :: rest) acc t
  = match apply_one d i rule t with
    | (Returns r, t1) => apply_rules d (S i) rest (acc ++ [r]) t1
    | (Raises e, t1) => (Raises e, t1)
    end.
Proof.
  simpl. unfold apply_one, bind.
  destruct rule as [r|r|ty tp].
  - destruct (apply_script_rule d r t) as [[x|e] t1]; reflexivity.
  - destruct (apply_image_rule d r t) as [[x|e] t1]; reflexivity.
  - reflexivity.
Qed.

(** The loop returns, with one result per rule, in the order of the
    rules. *)
Lemma apply_rules_spec (d : Path) (rules : list ReplacementRule) :
  forall i acc t,
  exists rs t',
    apply_rules d i rules acc t = (Returns (acc ++ rs), t')
    /\ applied_in_order d i rules t rs t'.
Proof.
  induction rules as [|rule rest IH]; intros i acc t.
  - exists [], t. rewrite app_nil_r. split; [reflexivity|constructor].
  - rewrite apply_rules_step.
    destruct (apply_one_returns d i rule t) as (r & t1 & Hr & _).
    rewrite Hr.
    destruct (IH (S i) (acc ++ [r]) t1) as (rs & t' & Hrs & Happ).
    exists (r :: rs), t'. rewrite Hrs, <- app_assoc. split; [reflexivity|].
    econstructor; eassumption.
Qed.

Lemma applied_length (d : Path) i rules t rs t' :
  applied_in_order d i rules t rs t' -> length rs = length rules.
Proof. induction 1; simpl; congruence. Qed.



Lemma rmtree_returns (p : Path) (t : tree) :
  rmtree_ignore_errors p t = (Returns tt, (rmtree_ignore_errors p t).2).
Proof. unfold rmtree_ignore_errors. repeat case_match; reflexivity. Qed.

(** The three stages of [process_task], one after the other. *)
Lemma process_task_stages (cache_dir work_dir output_path : Path)
    (rules : list ReplacementRule) (t : tree) :
  let d := joinpath work_dir (lit "decompiled") in
  process_task cache_dir work_dir output_path rules t
  = match copy_cache_to_workdir cache_dir work_dir t with
    | (Raises e, t1) => (Raises e, (rmtree_ignore_errors work_dir t1).2)
    | (Returns _, t1) =>
        match apply_rules d 0 rules [] t1 with
        | (Raises e, t2) => (Raises e, t2)
        | (Returns rs, t2) =>
            match recompile d output_path t2 with
            | (Raises e, t3) => (Raises e, (rmtree_ignore_errors work_dir t3).2)
            | (Returns _, t3) => (Returns rs, t3)
            end
        end
    end.
Proof.
  intros d. unfold process_task. fold d. unfold bind at 1, try_except at 1.
  destruct (copy_cache_to_workdir cache_dir work_dir t) as [[[]|e] t1].
  - unfold bind at 1.
    destruct (apply_rules d 0 rules [] t1) as [[rs|e] t2]; [|reflexivity].
    unfold bind at 1, try_except at 1.
    destruct (recompile d output_path t2) as [[[]|e] t3]; [reflexivity|].
    unfold bind. rewrite rmtree_returns. reflexivity.
  - unfold bind. rewrite rmtree_returns. reflexivity.
Qed.

End Pipeline.

(** ** The background runner *)

Section Runner.
Context `{Runtime} `{Apktool}.
Import RuleEngine Spec.

Lemma run_task_outcome (storage : StorageService.t) (task_id apk_id : str)
    (rules : list ReplacementRule) (st : State) (task0 : Task) :
  tasks st !! task_id = Some task0 ->
  let run := process_task (StorageService.get_cache_dir storage apk_id)
               (StorageService.get_work_dir storage task_id)
               (StorageService.get_output_path storage task_id)
               rules (disk st) in
  _run_task storage task_id apk_id rules st
  = (Returns tt,
     mkState
       (<[task_id :=
            match run.1 with
            | Returns results =>
                completed task_id results (set_status PROCESSING task0)
            | Raises e => failed e (set_status PROCESSING task0)
            end]> (tasks st))
       run.2).
Proof.
  intros Htask run. unfold _run_task. rewrite Htask. fold run.
  destruct run as [[results|e] d]; reflexivity.
Qed.

(** C8. When the task is registered, so that the runner gets to mark
    it PROCESSING, the runner returns and leaves the record COMPLETED
    or FAILED: COMPLETED with the results when the pipeline returned,
    FAILED with the text of the exception as [error] when it raised. *)
Theorem run_task_reaches_terminal_state (storage : StorageService.t)
    (task_id apk_id : str) (rules : list ReplacementRule) (st : State)
    (task0 : Task) :
  tasks st !! task_id = Some task0 ->
  exists task d,
    _run_task storage task_id apk_id rules st
    = (Returns tt, mkState (<[task_id := task]> (tasks st)) d)
    /\ (status task = COMPLETED \/ status task = FAILED)
    /\ (forall e d',
          process_task (StorageService.get_cache_dir storage apk_id)
            (StorageService.get_work_dir storage task_id)
            (StorageService.get_output_path storage task_id)
            rules (disk st) = (Raises e, d') ->
          status task = FAILED /\ error task = Some (exn_str e) /\ d = d')
    /\ (forall results d',
          process_task (StorageService.get_cache_dir storage apk_id)
            (StorageService.get_work_dir storage task_id)
            (StorageService.get_output_path storage task_id)
            rules (disk st) = (Returns results, d') ->
          status task = COMPLETED /\ rule_results task = results /\ d = d').
Proof.
  intros Htask. rewrite (run_task_outcome _ _ _ _ _ _ Htask).
  destruct (process_task _ _ _ rules (disk st)) as [[results|e] d] eqn:Hrun;
    simpl; eexists _, _; (split; [reflexivity|]); simpl.
  - split; [by left|]. split; [intros ? ? [=]|].
    intros ? ? [= <- <-]. done.
  - split; [by right|]. split; [|intros ? ? [=]].
    intros ? ? [= <- <-]. done.
Qed.




End Runner.

(** ** Paths and the file tree *)

Section Tree.
Context `{Runtime}.

Lemma walk_lexical (t : tree) (ps : list str) :
  forall cur l, walk t cur ps = inr l -> l = lexical cur ps.
Proof.
  induction ps as [|c rest IH]; intros cur l; simpl.
  - by intros [= <-].
  - destruct (entry_at t cur) as [[|]|]; try done.
    destruct (bool_decide (c = DOTDOT)); apply IH.
Qed.

(** A path that resolves leads to its lexical location. *)
Lemma resolve_locate (t : tree) (p : Path) (l : loc) :
  resolve t p = inr l -> l = locate p.
Proof. apply walk_lexical. Qed.

Lemma lexical_app (cur : loc) (ps qs : list str) :
  lexical cur (ps ++ qs) = lexical (lexical cur ps) qs.
Proof. apply fold_left_app. Qed.

Lemma lexical_plain (ps : list str) :
  DOTDOT ∉ ps -> forall cur, lexical cur ps = cur ++ ps.
Proof.
  induction ps as [|c rest IH]; intros Hno cur; simpl.
  - by rewrite app_nil_r.
  - apply not_elem_of_cons in Hno as [Hc Hrest].
    rewrite bool_decide_eq_false_2 by done.
    rewrite IH by done. by rewrite <- app_assoc.
Qed.

(** *** What the operations on the tree leave alone *)

Lemma write_bytes_frame (p : Path) (data : bytes) (t : tree) (l : loc) :
  l <> locate p -> (write_bytes p data t).2 !! l = t !! l.
Proof.
  intros Hl. unfold write_bytes.
  destruct (resolve t p) as [e|l0] eqn:Hres; [done|].
  apply resolve_locate in Hres as ->.
  destruct (entry_at t (locate p)) as [[|]|]; simpl; try done;
    by rewrite lookup_insert_ne.
Qed.

Lemma read_text_tree (p : Path) (t : tree) : (read_text p t).2 = t.
Proof.
  unfold read_text, read_bytes, bind.
  destruct (resolve t p); [done|].
  destruct (entry_at t _) as [[data|]|]; try done.
  by destruct (utf8_decode data).
Qed.

Lemma os_mkdir_frame (p : Path) (t : tree) (l : loc) :
  l <> locate p -> (os_mkdir p t).2 !! l = t !! l.
Proof.
  intros Hl. unfold os_mkdir.
  destruct (resolve t p) as [e|l0] eqn:Hres; [done|].
  apply resolve_locate in Hres as ->.
  destruct (entry_at t (locate p)); simpl; [done|].
  by rewrite lookup_insert_ne.
Qed.

(** Creating a directory with its parents changes the tree only by
    [os.mkdir] on the path and on its lexical ancestors: what these
    preserve is preserved. *)
Lemma mkdir_parents_rev_inv (P : tree -> Prop) (anch : bool)
    (rparts : list str) :
  (forall k t, P t -> P (os_mkdir (mkPath anch (rev (drop k rparts))) t).2) ->
  forall t, P t -> P (mkdir_parents_rev anch rparts t).2.
Proof.
  induction rparts as [|c up IH]; intros Hstep t Ht.
  - simpl. unfold try_except.
    pose proof (Hstep 0%nat t Ht) as H1. simpl in H1.
    destruct (os_mkdir _ t) as [[[]|e] t1]; simpl in *; [done|].
    destruct (is_not_found e); [done|].
    unfold bind, is_dir, ret, raise; simpl. by case_match.
  - cbn [mkdir_parents_rev]. unfold try_except.
    pose proof (Hstep 0%nat t Ht) as H1. cbn [drop] in H1.
    destruct (os_mkdir _ t) as [[[]|e] t1] eqn:Hmk; simpl in H1 |- *; [done|].
    destruct (is_not_found e).
    + unfold bind.
      pose proof (IH (fun k => Hstep (S k)) t1 H1) as H2.
      destruct (mkdir_parents_rev anch up t1) as [[[]|e2] t2]; simpl in *;
        [|done].
      unfold mkdir_exist_ok, try_except.
      pose proof (Hstep 0%nat t2 H2) as H3. cbn [drop] in H3.
      destruct (os_mkdir _ t2) as [[[]|e3] t3]; simpl in *; [done|].
      destruct (is_not_found e3); [done|].
      unfold bind, is_dir, ret, raise; simpl. by case_match.
    + unfold bind, is_dir, ret, raise; simpl. by case_match.
Qed.

Lemma mkdir_parents_rev_frame (anch : bool) (rparts : list str)
    (t : tree) (l : loc) :
  (forall k, l <> locate (mkPath anch (rev (drop k rparts)))) ->
  (mkdir_parents_rev anch rparts t).2 !! l = t !! l.
Proof.
  intros Hl.
  apply (mkdir_parents_rev_inv (fun t' => t' !! l = t !! l)); [|done].
  intros k t' <-. apply os_mkdir_frame, Hl.
Qed.

Lemma makedirs_rev_frame (anch : bool) (rparts : list str) :
  forall (t : tree) (l : loc),
    (forall k, l <> locate (mkPath anch (rev (drop k rparts)))) ->
    (makedirs_rev anch rparts t).2 !! l = t !! l.
Proof.
  induction rparts as [|c up IH]; intros t l Hl.
  - simpl. apply (os_mkdir_frame _ _ _ (Hl 0%nat)).
  - cbn [makedirs_rev]. unfold bind at 1.
    set (probe := (if anch || negb (bool_decide (up = []))
                   then exists_ (mkPath anch (rev up)) else ret true)).
    assert (Hprobe : exists b, probe t = (Returns b, t)).
    { unfold probe. destruct (anch || _); unfold exists_, ret; eauto. }
    destruct Hprobe as [b ->]. unfold bind at 1.
    destruct b.
    + unfold ret. apply (os_mkdir_frame _ _ _ (Hl 0%nat)).
    + unfold try_except.
      pose proof (IH t l (fun k => Hl (S k))) as H2.
      destruct (makedirs_rev anch up t) as [[[]|e2] t2]; simpl in *.
      * rewrite <- H2. apply (os_mkdir_frame _ _ _ (Hl 0%nat)).
      * destruct (is_file_exists e2); unfold ret, raise; [|done].
        rewrite <- H2. apply (os_mkdir_frame _ _ _ (Hl 0%nat)).
Qed.

(** The lexical ancestors of a path without [..] lie above it. *)
Lemma plain_ancestor (p : Path) (k : nat) :
  DOTDOT ∉ parts p ->
  locate (mkPath (anchored p) (rev (drop k (rev (parts p)))))
    `prefix_of` locate p.
Proof.
  intros Hplain. unfold locate. simpl.
  set (start := if anchored p then [] else getcwd).
  assert (Hsplit : parts p
                   = rev (drop k (rev (parts p))) ++ rev (take k (rev (parts p)))).
  { rewrite <- rev_app_distr, take_drop. symmetry. apply rev_involutive. }
  rewrite Hsplit at 2. rewrite lexical_app.
  assert (Ha : DOTDOT ∉ rev (drop k (rev (parts p)))).
  { intros Hin. apply Hplain. rewrite Hsplit. apply elem_of_app. by left. }
  assert (Hb : DOTDOT ∉ rev (take k (rev (parts p)))).
  { intros Hin. apply Hplain. rewrite Hsplit. apply elem_of_app. by right. }
  rewrite (lexical_plain _ Hb). by apply prefix_app_r.
Qed.

Lemma mkdir_parents_frame (p : Path) (t : tree) (l : loc) :
  DOTDOT ∉ parts p ->
  ~ l `prefix_of` locate p ->
  (mkdir_parents p t).2 !! l = t !! l.
Proof.
  intros Hplain Hl. apply mkdir_parents_rev_frame.
  intros k ->. apply Hl, plain_ancestor, Hplain.
Qed.

Lemma makedirs_frame (p : Path) (t : tree) (l : loc) :
  DOTDOT ∉ parts p ->
  ~ l `prefix_of` locate p ->
  (makedirs p t).2 !! l = t !! l.
Proof.
  intros Hplain Hl. apply makedirs_rev_frame.
  intros k ->. apply Hl, plain_ancestor, Hplain.
Qed.

(** [os.makedirs] that returns has created the directory. *)
Lemma makedirs_created (p : Path) (t t' : tree) :
  makedirs p t = (Returns tt, t') ->
  locate p <> [] /\ t' !! locate p = Some Dir.
Proof.
  unfold makedirs.
  assert (Hlast : forall tm,
            os_mkdir (mkPath (anchored p) (parts p)) tm = (Returns tt, t') ->
            locate p <> [] /\ t' !! locate p = Some Dir).
  { intros tm. unfold os_mkdir.
    destruct (resolve tm _) as [e|l0] eqn:Hres; [done|].
    apply resolve_locate in Hres.
    change (locate {| anchored := anchored p; parts := parts p |})
      with (locate p) in Hres. subst l0.
    destruct (entry_at tm (locate p)) eqn:Hent; [done|].
    intros [= <-]. split.
    - intros Hnil. rewrite Hnil in Hent. done.
    - apply lookup_insert_eq. }
  remember (rev (parts p)) as rp eqn:Hrp.
  assert (Hself : rev rp = parts p) by (subst rp; apply rev_involutive).
  clear Hrp. destruct rp as [|c up]; cbn [makedirs_rev]; rewrite Hself.
  - apply Hlast.
  - unfold bind.
    destruct (if _ : bool then _ else _) as [[b|e] tp] eqn:Hprobe; [|done].
    destruct b; [apply Hlast|].
    destruct (try_except _ _ tp) as [[[]|e] tq]; [apply Hlast|done].
Qed.

Lemma graft_frame (src dst : loc) (snapshot t : tree) (l : loc) :
  (forall x rel, l <> dst ++ x :: rel) ->
  graft src dst snapshot t !! l = t !! l.
Proof.
  intros Hl. unfold graft.
  apply (map_fold_weak_ind (fun r (_ : tree) => r !! l = t !! l)); [done|].
  intros k e m r _ IH.
  destruct (bool_decide (src `prefix_of` k)); [|done].
  destruct (drop (length src) k) as [|x rel]; [done|].
  rewrite lookup_insert_ne; [done|]. intros Heq. by apply (Hl x rel).
Qed.

Lemma copytree_frame (src dst : Path) (t : tree) (l : loc) :
  DOTDOT ∉ parts dst ->
  ~ l `prefix_of` locate dst ->
  ~ locate dst `prefix_of` l ->
  (copytree src dst t).2 !! l = t !! l.
Proof.
  intros Hplain Hup Hdown. unfold copytree.
  destruct (resolve t src) as [e|s]; [done|].
  destruct (entry_at t s) as [[|]|]; try done.
  pose proof (makedirs_frame dst t l Hplain Hup) as Hmk.
  destruct (makedirs dst t) as [[[]|e] t']; simpl in *; [|done].
  destruct (resolve t' dst) as [e|d] eqn:Hres; [done|].
  apply resolve_locate in Hres as ->. simpl.
  rewrite graft_frame; [done|].
  intros x rel ->. apply Hdown. by apply prefix_app_r.
Qed.

(** [shutil.copytree] that returns has created the destination. *)
Lemma copytree_created (src dst : Path) (t t1 : tree) :
  copytree src dst t = (Returns tt, t1) ->
  locate dst <> [] /\ t1 !! locate dst = Some Dir.
Proof.
  unfold copytree.
  destruct (resolve t src) as [e|s]; [done|].
  destruct (entry_at t s) as [[|]|]; try done.
  destruct (makedirs dst t) as [[[]|e] t'] eqn:Hmk; [|done].
  apply makedirs_created in Hmk as [Hne Hdir].
  destruct (resolve t' dst) as [e|d] eqn:Hres; [done|].
  apply resolve_locate in Hres as ->. intros [= <-].
  split; [done|]. rewrite graft_frame; [done|].
  intros x rel Heq. apply (f_equal length) in Heq.
  rewrite length_app in Heq. simpl in Heq. lia.
Qed.

Lemma rmtree_frame (p : Path) (t : tree) (l : loc) :
  ~ locate p `prefix_of` l ->
  (rmtree_ignore_errors p t).2 !! l = t !! l.
Proof.
  intros Hl. unfold rmtree_ignore_errors.
  destruct (resolve t p) as [e|l0] eqn:Hres; [done|].
  apply resolve_locate in Hres as ->.
  destruct (entry_at t (locate p)) as [[|]|]; try done. simpl.
  rewrite map_lookup_filter. destruct (t !! l); simpl; [|done].
  by rewrite option_guard_True.
Qed.

(** After [shutil.rmtree] nothing is left at the path, unless a regular
    file is in its place. *)
Lemma rmtree_gone (p : Path) (t : tree) :
  locate p <> [] ->
  (forall data, t !! locate p <> Some (File data)) ->
  present (rmtree_ignore_errors p t).2 p = false.
Proof.
  intros Hne Hnofile. unfold rmtree_ignore_errors, present.
  assert (Hat : forall u : tree, entry_at u (locate p) = u !! locate p).
  { intros u. by destruct (locate p). }
  destruct (resolve t p) as [e|l0] eqn:Hres.
  - simpl. by rewrite Hres.
  - apply resolve_locate in Hres as Hl0. subst l0.
    rewrite Hat. destruct (t !! locate p) as [[data|]|] eqn:Hent; simpl.
    + by destruct (Hnofile data).
    + destruct (resolve (filter _ t) p) as [e|l1] eqn:Hres1; [done|].
      apply resolve_locate in Hres1 as ->. rewrite Hat.
      apply bool_decide_eq_false. intros [x Hx].
      apply map_lookup_filter_Some in Hx as [_ Hx]. by apply Hx.
    + rewrite Hres, Hat, Hent. apply bool_decide_eq_false. by intros [x Hx].
Qed.

End Tree.

(** ** What the appliers do to the tree *)

Section ApplierEffects.
Context `{Runtime}.
Import RuleEngine Spec.

Lemma write_text_inv (P : tree -> Prop) (p : Path) (s : str) (t : tree) :
  (forall data u, P u -> P (write_bytes p data u).2) ->
  P t -> P (write_text p s t).2.
Proof.
  intros Hw Ht. unfold write_text, bind.
  pose proof (Hw [] t Ht) as H1.
  destruct (write_bytes p [] t) as [[[]|e] t1]; simpl in *; [|done].
  destruct (utf8_encode s) as [data|]; [|done].
  by apply Hw.
Qed.

(** An applier changes the tree only by writing to its target. *)
Lemma apply_script_rule_inv (P : tree -> Prop) (d : Path)
    (r : ScriptRule.t) (t : tree) :
  (forall data u,
     P u -> P (write_bytes (joinpath d (ScriptRule.target_path r)) data u).2) ->
  P t -> P (apply_script_rule d r t).2.
Proof.
  intros Hw Ht. unfold apply_script_rule.
  set (target := joinpath d (ScriptRule.target_path r)) in *.
  unfold bind at 1, exists_.
  destruct (negb (present t target)); [done|].
  unfold try_except, bind at 1.
  pose proof (read_text_tree target t) as Hread.
  destruct (read_text target t) as [[content|e] t1]; simpl in Hread; subst t1;
    [|done].
  unfold bind at 1.
  destruct (ScriptRule.use_regex r).
  - destruct (re_sub _ _ content) as [e|s]; [done|].
    unfold ret at 1, bind.
    pose proof (write_text_inv P target s t Hw Ht) as H2.
    by destruct (write_text target s t) as [[[]|e] t2].
  - unfold ret at 1, bind.
    pose proof (write_text_inv P target
                  (replace (ScriptRule.pattern r) (ScriptRule.replacement r)
                     content) t Hw Ht) as H2.
    by destruct (write_text target _ t) as [[[]|e] t2].
Qed.

Lemma apply_image_rule_inv (P : tree -> Prop) (d : Path)
    (r : ImageRule.t) (t : tree) :
  (forall data u,
     P u -> P (write_bytes (joinpath d (ImageRule.target_path r)) data u).2) ->
  P t -> P (apply_image_rule d r t).2.
Proof.
  intros Hw Ht. unfold apply_image_rule.
  set (target := joinpath d (ImageRule.target_path r)) in *.
  unfold bind at 1, exists_.
  destruct (negb (present t target)); [done|].
  unfold try_except, bind at 1.
  destruct (Base64.b64decode _ false) as [why|b]; [done|].
  unfold ret at 1, bind.
  pose proof (Hw b t Ht) as H2.
  by destruct (write_bytes target b t) as [[[]|e] t2].
Qed.

Lemma apply_one_inv (P : tree -> Prop) (d : Path) (i : nat)
    (rule : ReplacementRule) (t : tree) :
  (is_model rule ->
   forall data u,
     P u -> P (write_bytes (joinpath d (target_of rule)) data u).2) ->
  P t -> P (apply_one d i rule t).2.
Proof.
  intros Hw Ht. unfold apply_one, bind. destruct rule as [r|r|ty tp].
  - pose proof (apply_script_rule_inv P d r t (Hw I) Ht) as H1.
    by destruct (apply_script_rule d r t) as [[x|e] t1].
  - pose proof (apply_image_rule_inv P d r t (Hw I) Ht) as H1.
    by destruct (apply_image_rule d r t) as [[x|e] t1].
  - done.
Qed.

Lemma apply_rules_inv (P : tree -> Prop) (d : Path)
    (rules : list ReplacementRule) :
  Forall (fun rule =>
            is_model rule ->
            forall data u,
              P u -> P (write_bytes (joinpath d (target_of rule)) data u).2)
    rules ->
  forall i acc t, P t -> P (apply_rules d i rules acc t).2.
Proof.
  induction 1 as [|rule rest Hrule _ IH]; intros i acc t Ht; [done|].
  rewrite apply_rules_step.
  pose proof (apply_one_inv P d i rule t Hrule Ht) as H1.
  destruct (apply_one d i rule t) as [[r|e] t1]; simpl in *; [|done].
  by apply IH.
Qed.

(** Writing a file never replaces a directory. *)
Lemma write_bytes_keeps_dir (p : Path) (data : bytes) (t : tree) (l : loc) :
  t !! l = Some Dir -> (write_bytes p data t).2 !! l = Some Dir.
Proof.
  intros Hdir. destruct (decide (l = locate p)) as [->|Hne].
  - unfold write_bytes.
    destruct (resolve t p) as [e|l0] eqn:Hres; [done|].
    apply resolve_locate in Hres as ->.
    destruct (locate p) eqn:Hloc; [done|].
    simpl. by rewrite Hdir.
  - by rewrite write_bytes_frame.
Qed.

Lemma apply_rules_keeps_dir (d : Path) (rules : list ReplacementRule)
    (i : nat) (acc : list RuleResult.t) (t : tree) (l : loc) :
  t !! l = Some Dir -> (apply_rules d i rules acc t).2 !! l = Some Dir.
Proof.
  intros Hdir.
  apply (apply_rules_inv (fun u => u !! l = Some Dir)); [|done].
  apply Forall_forall. intros rule _ _ data u. apply write_bytes_keeps_dir.
Qed.

(** Creating directories leaves every entry that is there. *)
Lemma os_mkdir_keeps (p : Path) (t : tree) (l : loc) (e : entry) :
  t !! l = Some e -> (os_mkdir p t).2 !! l = Some e.
Proof.
  intros He. destruct (decide (l = locate p)) as [->|Hne].
  - unfold os_mkdir.
    destruct (resolve t p) as [x|l0] eqn:Hres; [done|].
    apply resolve_locate in Hres as ->.
    destruct (locate p) eqn:Hloc; [done|].
    simpl. by rewrite He.
  - by rewrite os_mkdir_frame.
Qed.

Lemma mkdir_parents_keeps (p : Path) (t : tree) (l : loc) (e : entry) :
  t !! l = Some e -> (mkdir_parents p t).2 !! l = Some e.
Proof.
  intros He.
  apply (mkdir_parents_rev_inv (fun u => u !! l = Some e)); [|done].
  intros k u. apply os_mkdir_keeps.
Qed.

End ApplierEffects.

(** ** Failure of the recompile *)

Section RecompileFailure.
Context `{Runtime} `{Apktool}.
Import RuleEngine Spec.

Lemma recompile_stages (source_dir output_apk : Path) (t : tree) :
  recompile source_dir output_apk t
  = match mkdir_parents (parent output_apk) t with
    | (Raises e, tm) => (Raises e, tm)
    | (Returns _, tm) =>
        match apktool_b source_dir output_apk tm with
        | (Raises e, t') => (Raises e, t')
        | (Returns (returncode, stderr), t') =>
            if negb (returncode =? 0) then
              (Raises (RuntimeError
                         (lit "apktool 重新打包失败 (exit code "
                          ++ str_of_int returncode ++ lit "): "
                          ++ strip (decode_replace stderr))), t')
            else (Returns tt, t')
        end
    end.
Proof.
  unfold recompile, bind.
  destruct (mkdir_parents _ t) as [[[]|e] tm]; [|done].
  destruct (apktool_b _ _ tm) as [[[returncode stderr]|e] t']; [|done].
  simpl. by destruct (negb _).
Qed.

Lemma copy_cache_created (cache_dir work_dir : Path) (t t1 : tree) :
  copy_cache_to_workdir cache_dir work_dir t = (Returns tt, t1) ->
  locate work_dir <> [] /\ t1 !! locate work_dir = Some Dir.
Proof.
  unfold copy_cache_to_workdir, try_except.
  destruct (copytree cache_dir work_dir t) as [[[]|e] t'] eqn:Hcopy; [|done].
  intros [= <-]. by apply copytree_created in Hcopy.
Qed.

(** C3. When the copy into the workspace has succeeded and the recompile
    raises, [process_task] raises the same exception after removing the
    workspace, of which nothing is left, and the runner marks the task
    FAILED with the text of that exception as [error]. When the tool
    itself ran and reported failure, that text contains what the tool
    wrote on its error stream (decoded and stripped, as the pipeline
    reads it). The tool is assumed not to put a regular file in the
    place of the workspace directory. *)
Theorem recompile_failure_cleans_up
    (cache_dir work_dir output_path : Path) (rules : list ReplacementRule)
    (t t1 t3 : tree) (e : exn) :
  let d := joinpath work_dir (lit "decompiled") in
  tool_keeps_directory (locate work_dir) d output_path ->
  copy_cache_to_workdir cache_dir work_dir t = (Returns tt, t1) ->
  recompile d output_path (apply_rules d 0 rules [] t1).2 = (Raises e, t3) ->
  exists t4,
    process_task cache_dir work_dir output_path rules t = (Raises e, t4)
    /\ present t4 work_dir = false
    /\ (forall tm returncode stderr t',
          mkdir_parents (parent output_path) (apply_rules d 0 rules [] t1).2
            = (Returns tt, tm) ->
          apktool_b d output_path tm = (Returns (returncode, stderr), t') ->
          returncode <> 0
          /\ contains (strip (decode_replace stderr)) (exn_str e) = true)
    /\ (forall storage task_id apk_id st task0,
          cache_dir = StorageService.get_cache_dir storage apk_id ->
          work_dir = StorageService.get_work_dir storage task_id ->
          output_path = StorageService.get_output_path storage task_id ->
          disk st = t ->
          tasks st !! task_id = Some task0 ->
          exists task,
            _run_task storage task_id apk_id rules st
            = (Returns tt, mkState (<[task_id := task]> (tasks st)) t4)
            /\ status task = FAILED
            /\ error task = Some (exn_str e)).
Proof.
  intros d Htool Hcopy Hrec.
  destruct (apply_rules_spec d rules 0 [] t1) as (rs & t2 & Hloop & _).
  simpl in Hloop. rewrite Hloop in Hrec |- *. simpl in Hrec |- *.
  set (t4 := (rmtree_ignore_errors work_dir t3).2).
  assert (Hrun : process_task cache_dir work_dir output_path rules t
                 = (Raises e, t4)).
  { rewrite process_task_stages. fold d. by rewrite Hcopy, Hloop, Hrec. }
  exists t4. split; [exact Hrun|].
  destruct (copy_cache_created _ _ _ _ Hcopy) as [Hne Hdir1].
  assert (Hdir2 : t2 !! locate work_dir = Some Dir).
  { pose proof (apply_rules_keeps_dir d rules 0 [] t1 _ Hdir1) as Hk.
    by rewrite Hloop in Hk. }
  split.
  { apply rmtree_gone; [exact Hne|]. intros data.
    rewrite recompile_stages in Hrec.
    pose proof (mkdir_parents_keeps (parent output_path) t2 _ _ Hdir2) as Hm.
    destruct (mkdir_parents _ t2) as [[[]|em] tm]; simpl in Hm.
    - pose proof (Htool tm Hm data) as Ht.
      destruct (apktool_b d output_path tm) as [[[rc err]|et] tt']; simpl in Ht.
      + destruct (negb _); by simplify_eq.
      + by simplify_eq.
    - simplify_eq. by rewrite Hm. }
  split.
  { intros tm returncode stderr t' Hmk Hrun_tool.
    rewrite recompile_stages, Hmk, Hrun_tool in Hrec.
    destruct (returncode =? 0) eqn:Hrc; cbn [negb] in Hrec; [done|].
    apply Z.eqb_neq in Hrc. split; [exact Hrc|].
    apply (f_equal (fun r => match r.1 with
                             | Raises x => exn_str x
                             | Returns _ => []
                             end)) in Hrec.
    cbn [fst exn_str] in Hrec. rewrite <- Hrec.
    do 3 apply contains_app_skip. apply contains_refl. }
  intros storage task_id apk_id st task0 -> -> -> Hdisk Htask.
  rewrite (run_task_outcome _ _ _ _ _ _ Htask), Hdisk, Hrun. simpl.
  eexists. split; [reflexivity|]. done.
Qed.

End RecompileFailure.

(** ** Validated target paths stay below the root they are joined to *)

Section SafePaths.
Context `{Runtime}.
Import RuleEngine Spec.

Lemma split_on_head (sep : Z) (s : str) :
  exists w ws, split_on sep s = w :: ws /\ startswith w s = true.
Proof.
  induction s as [|c s (w & ws & Hs & Hw)]; simpl.
  - by exists [], [].
  - destruct (c =? sep); [by exists [], (split_on sep s)|].
    rewrite Hs. exists (c :: w), ws. simpl. by rewrite Z.eqb_refl, Hw.
Qed.

(** Every component of a split text occurs in the text. *)
Lemma split_on_infix (sep : Z) (s w : str) :
  w ∈ split_on sep s -> contains w s = true.
Proof.
  induction s as [|c s IH]; simpl.
  - intros ->%list_elem_of_singleton. reflexivity.
  - destruct (c =? sep).
    + intros [->|Hin]%elem_of_cons; [reflexivity|].
      rewrite (IH Hin). apply orb_true_r.
    + destruct (split_on_head sep s) as (w0 & ws & Hs & Hw0).
      rewrite Hs in IH |- *.
      intros [->|Hin]%elem_of_cons.
      * simpl. by rewrite Z.eqb_refl, Hw0.
      * rewrite IH; [apply orb_true_r|]. by right.
Qed.

Lemma parse_safe (s : str) :
  safe_target s -> anchored (parse s) = false /\ DOTDOT ∉ parts (parse s).
Proof.
  intros [Hdd Habs]. split; [exact Habs|].
  unfold parse. simpl. intros Hin.
  apply list_elem_of_In, filter_In in Hin as [Hin _].
  apply list_elem_of_In, split_on_infix in Hin.
  change (lit "..") with DOTDOT in Hdd. congruence.
Qed.

Lemma locate_joinpath_safe (d : Path) (s : str) :
  safe_target s -> locate d `prefix_of` locate (joinpath d s).
Proof.
  intros [Hrel Hplain]%parse_safe. unfold joinpath. rewrite Hrel.
  unfold locate. simpl. rewrite lexical_app, (lexical_plain _ Hplain).
  by apply prefix_app_r.
Qed.

Lemma locate_decompiled (work_dir : Path) :
  locate work_dir `prefix_of` locate (joinpath work_dir (lit "decompiled")).
Proof. apply locate_joinpath_safe. split; reflexivity. Qed.

Lemma validate_loop_total (rules : list ReplacementRule) :
  forall index acc out,
    validate_loop index rules acc = Returns out ->
    Forall has_target_path rules.
Proof.
  induction rules as [|rule rest IH]; intros index acc out; [constructor|].
  simpl. destruct rule as [r|r|ty [p|]]; simpl; try done;
    intros Hout; constructor; try done; by eapply IH.
Qed.

Lemma loop_errors_nil (rules : list ReplacementRule) :
  forall index,
    loop_errors index rules = [] ->
    Forall (fun rule => is_model rule -> safe_target (target_of rule)) rules.
Proof.
  induction rules as [|rule rest IH]; intros index; [constructor|].
  simpl. intros [Hrule Hrest]%app_eq_nil. constructor; [|by eapply IH].
  intros _. unfold rule_errors in Hrule.
  apply app_eq_nil in Hrule as [Hpath _].
  unfold _validate_target_path in Hpath.
  destruct (blank _); [done|].
  unfold safe_target.
  destruct (contains _ _); [done|]. destruct (startswith _ _); done.
Qed.

(** What the validator accepts has safe target paths. *)
Lemma validated_rules_safe (rules : list ReplacementRule)
    (vr : ValidationResult.t) :
  validate_rules rules = Returns vr ->
  ValidationResult.valid vr = true ->
  Forall (fun rule => is_model rule -> safe_target (target_of rule)) rules.
Proof.
  unfold validate_rules.
  destruct (validate_loop 0 rules []) as [errors|e] eqn:Hloop; [|done].
  intros [= <-]. simpl. intros Hvalid%bool_decide_eq_true.
  apply nil_length_inv in Hvalid. subst errors.
  rewrite (validate_loop_spec _ (validate_loop_total _ _ _ _ Hloop)) in Hloop.
  simpl in Hloop. injection Hloop as Hloop. by eapply loop_errors_nil.
Qed.

End SafePaths.

(** ** The cache is read, never written *)

Section CacheIntegrity.
Context `{Runtime} `{Apktool}.
Import RuleEngine Spec.

Lemma removelast_prefix {A} (l : list A) : removelast l `prefix_of` l.
Proof.
  destruct l as [|x l]; [done|].
  exists [List.last (x :: l) x]. by apply app_removelast_last.
Qed.

Lemma parent_plain (p : Path) :
  DOTDOT ∉ parts p ->
  (DOTDOT ∉ parts (parent p)) /\ (locate (parent p) `prefix_of` locate p).
Proof.
  intros Hplain.
  destruct (removelast_prefix (parts p)) as [rest Hrest].
  assert (Hup : DOTDOT ∉ removelast (parts p)).
  { intros Hin. apply Hplain. rewrite Hrest. apply elem_of_app. by left. }
  split; [exact Hup|].
  unfold locate. simpl. rewrite (lexical_plain _ Hup), (lexical_plain _ Hplain).
  apply prefix_app, removelast_prefix.
Qed.

Lemma copy_cache_tree (cache_dir work_dir : Path) (t : tree) :
  (copy_cache_to_workdir cache_dir work_dir t).2
  = (copytree cache_dir work_dir t).2.
Proof.
  unfold copy_cache_to_workdir, try_except.
  by destruct (copytree cache_dir work_dir t) as [[[]|e] t1].
Qed.

Lemma recompile_frame (source_dir output_apk : Path) (t : tree) (l : loc) :
  DOTDOT ∉ parts output_apk ->
  ~ l `prefix_of` locate output_apk ->
  (forall u, (apktool_b source_dir output_apk u).2 !! l = u !! l) ->
  (recompile source_dir output_apk t).2 !! l = t !! l.
Proof.
  intros Hplain Hl Htool. rewrite recompile_stages.
  destruct (parent_plain _ Hplain) as [Hup Hpre].
  pose proof (mkdir_parents_frame (parent output_apk) t l Hup) as Hmk.
  rewrite <- Hmk by (intros Hlp; apply Hl; by etrans).
  destruct (mkdir_parents _ t) as [[[]|e] tm]; simpl; [|done].
  rewrite <- (Htool tm).
  destruct (apktool_b _ _ tm) as [[[rc err]|e] t']; simpl; [|done].
  by destruct (negb _).
Qed.

(** C2, for the rule sets the validator accepts. Whatever the outcome of
    [process_task] (it returns, the copy fails or the recompile fails),
    every location at or below the cache directory holds afterwards what
    it held before. The batch is one that [validate_rules] accepts; the
    workspace and the output path are written without [..], the cache
    directory and the workspace are not inside one another, the output
    path is not inside the cache directory, and the external tool does
    not write into the cache directory. *)
Theorem cache_is_left_untouched
    (cache_dir work_dir output_path : Path) (rules : list ReplacementRule)
    (vr : ValidationResult.t) (t : tree) :
  validate_rules rules = Returns vr ->
  ValidationResult.valid vr = true ->
  DOTDOT ∉ parts work_dir ->
  DOTDOT ∉ parts output_path ->
  ~ locate cache_dir `prefix_of` locate work_dir ->
  ~ locate work_dir `prefix_of` locate cache_dir ->
  ~ locate cache_dir `prefix_of` locate output_path ->
  tool_spares (locate cache_dir)
    (joinpath work_dir (lit "decompiled")) output_path ->
  forall l,
    locate cache_dir `prefix_of` l ->
    (process_task cache_dir work_dir output_path rules t).2 !! l = t !! l.
Proof.
  intros Hvr Hvalid Hpw Hpo Hcw Hwc Hco Htool l Hl.
  pose proof (validated_rules_safe _ _ Hvr Hvalid) as Hsafe.
  set (d := joinpath work_dir (lit "decompiled")).
  assert (Hnw : ~ locate work_dir `prefix_of` l).
  { intros Hwl. destruct (prefix_weak_total _ _ _ Hl Hwl); tauto. }
  assert (Hnu : ~ l `prefix_of` locate work_dir).
  { intros Hlw. apply Hcw. by etrans. }
  assert (Hcopy : (copy_cache_to_workdir cache_dir work_dir t).2 !! l = t !! l).
  { rewrite copy_cache_tree. by apply copytree_frame. }
  assert (Hrules : forall u, (apply_rules d 0 rules [] u).2 !! l = u !! l).
  { intros u. apply (apply_rules_inv (fun u' => u' !! l = u !! l)); [|done].
    eapply Forall_impl; [exact Hsafe|]. simpl.
    intros rule Hrule Hmodel data u' <-. apply write_bytes_frame.
    intros ->. apply Hnw. etrans; [apply locate_decompiled|].
    apply locate_joinpath_safe. auto. }
  assert (Hrec : forall u, (recompile d output_path u).2 !! l = u !! l).
  { intros u. apply recompile_frame; [done| |].
    - intros Hlo. apply Hco. by etrans.
    - intros u'. by apply Htool. }
  rewrite process_task_stages. fold d.
  destruct (copy_cache_to_workdir cache_dir work_dir t) as [[[]|e] t1];
    simpl in Hcopy |- *.
  - pose proof (Hrules t1) as Hr.
    destruct (apply_rules d 0 rules [] t1) as [[rs|e] t2]; simpl in Hr |- *;
      [|congruence].
    pose proof (Hrec t2) as Hc.
    destruct (recompile d output_path t2) as [[[]|e] t3]; simpl in Hc |- *;
      [congruence|].
    rewrite rmtree_frame by done. congruence.
  - rewrite rmtree_frame by done. congruence.
Qed.

End CacheIntegrity.

(** ** Base64: what the validator accepts, the applier decodes *)

Lemma emit_inr (b : Z) (r : Base64.error + bytes) (out : bytes) :
  Base64.emit b r = inr out -> exists out', r = inr out' /\ out = b :: out'.
Proof. destruct r as [e|out']; simpl; [done|]. intros [= <-]. eauto. Qed.

Lemma a2b_loop_strict_lenient (data : bytes) :
  forall quad_pos leftchar pads started started' nout out,
    Base64.a2b_loop true data quad_pos leftchar pads started nout = inr out ->
    Base64.a2b_loop false data quad_pos leftchar pads started' nout = inr out.
Proof.
  induction data as [|c rest IH]; intros q lc pads ps ps' n out; [done|].
  cbn [Base64.a2b_loop]. destruct (c =? Base64.PAD).
  - destruct (_ && _) eqn:Hend.
    + cbn [andb]. by destruct (negb _).
    + apply IH.
  - destruct (Base64.value c) as [v|]; [|done].
    cbn [andb]. destruct ps; [done|].
    destruct q as [|[|[|q]]]; try apply IH;
      intros (out' & Hrec & ->)%emit_inr;
      by rewrite (IH _ _ _ _ ps' _ _ Hrec).
Qed.

Lemma b64decode_strict_lenient (s : str) (out : bytes) :
  Base64.b64decode s true = inr out -> Base64.b64decode s false = inr out.
Proof.
  unfold Base64.b64decode. destruct (forallb _ s); [|done].
  unfold Base64.a2b_base64. destruct s as [|c s].
  - apply a2b_loop_strict_lenient.
  - cbn [andb]. destruct (c =? Base64.PAD); [done|].
    apply a2b_loop_strict_lenient.
Qed.

(** ** A target that is a directory *)

Section DirectoryTarget.
Context `{Runtime}.
Import RuleEngine Spec.

(** C10, as the code has it. A script rule or an image rule whose target
    path resolves to an existing directory: the applier does not raise
    and leaves the tree as it is. For a script rule the result is a
    failure whose message carries the text of the I/O error of the read.
    For an image rule the data is decoded before the file is opened: when
    it decodes, as all data does that the validator accepted, the result
    is a failure whose message carries the text of the I/O error of the
    write; when it does not, the result is a failure whose message
    carries the text of the decoding error. *)
Theorem directory_target_is_a_failure (d : Path) (rule : ReplacementRule)
    (t : tree) (l : loc) :
  is_model rule ->
  resolve t (joinpath d (target_of rule)) = inr l ->
  entry_at t l = Some Dir ->
  let io_text :=
    exn_str (Lib (IsADirectoryError (path_str (joinpath d (target_of rule))))) in
  match rule with
  | Script r =>
      apply_script_rule d r t
      = (Returns (RuleResult.mk 0 false
                    (lit "脚本替换失败: " ++ ScriptRule.target_path r
                     ++ lit ", 错误: " ++ io_text)), t)
      /\ contains io_text
           (lit "脚本替换失败: " ++ ScriptRule.target_path r
            ++ lit ", 错误: " ++ io_text) = true
  | Image r =>
      (forall index, _validate_image_rule index r = [] ->
         exists b, Base64.b64decode (ImageRule.image_data r) false = inr b)
      /\ match Base64.b64decode (ImageRule.image_data r) false with
         | inr _ =>
             apply_image_rule d r t
             = (Returns (RuleResult.mk 0 false
                           (lit "图片替换失败: " ++ ImageRule.target_path r
                            ++ lit ", 错误: " ++ io_text)), t)
             /\ contains io_text
                  (lit "图片替换失败: " ++ ImageRule.target_path r
                   ++ lit ", 错误: " ++ io_text) = true
         | inl why =>
             apply_image_rule d r t
             = (Returns (RuleResult.mk 0 false
                           (lit "图片替换失败: " ++ ImageRule.target_path r
                            ++ lit ", 错误: " ++ exc_text (Base64Error why))),
                t)
         end
  | Other _ _ => True
  end.
Proof.
  intros Hmodel Hres Hdir io_text.
  assert (Hpresent : forall p, resolve t p = inr l -> present t p = true).
  { intros p Hp. unfold present. rewrite Hp, Hdir. by apply bool_decide_eq_true. }
  destruct rule as [r|r|]; [| |done]; cbn [target_of] in Hres.
  - split; [|do 3 apply contains_app_skip; apply contains_refl].
    unfold apply_script_rule, bind at 1, exists_.
    rewrite (Hpresent _ Hres). cbn [negb].
    unfold try_except, bind at 1, read_text, bind at 1, read_bytes.
    by rewrite Hres, Hdir.
  - split.
    { intros index. unfold _validate_image_rule.
      destruct (blank _); [done|].
      destruct (Base64.b64decode _ true) as [why|b] eqn:Hstrict; [done|].
      intros _. exists b. by apply b64decode_strict_lenient. }
    destruct (Base64.b64decode _ false) as [why|b] eqn:Hdec.
    + unfold apply_image_rule, bind at 1, exists_.
      rewrite (Hpresent _ Hres). cbn [negb].
      unfold try_except, bind at 1. by rewrite Hdec.
    + split; [|do 3 apply contains_app_skip; apply contains_refl].
      unfold apply_image_rule, bind at 1, exists_.
      rewrite (Hpresent _ Hres). cbn [negb].
      unfold try_except, bind at 1. rewrite Hdec.
      unfold ret at 1, bind at 1, write_bytes. by rewrite Hres, Hdir.
Qed.

End DirectoryTarget.

(** ** The layout of the storage service *)

Section Layout.
Context `{Runtime}.
Import RuleEngine Spec.

Lemma split_on_plain (s : str) : SLASH ∉ s -> split_on SLASH s = [s].
Proof.
  induction s as [|c s IH]; [done|].
  intros [Hc Hs]%not_elem_of_cons. cbn [split_on].
  destruct (c =? SLASH) eqn:E; [apply Z.eqb_eq in E; congruence|].
  by rewrite IH.
Qed.

Lemma joinpath_plain_name (p : Path) (s : str) :
  plain_name s -> joinpath p s = mkPath (anchored p) (parts p ++ [s]).
Proof.
  intros (Hslash & Hne & Hdot & _). unfold joinpath, parse.
  rewrite (split_on_plain _ Hslash). cbn [List.filter]. unfold keep_part.
  rewrite !bool_decide_eq_false_2 by done. cbn [negb andb anchored parts].
  destruct s as [|c s]; [done|]. cbn [startswith].
  apply not_elem_of_cons in Hslash as [Hc _].
  destruct (SLASH =? c) eqn:E; [apply Z.eqb_eq in E; congruence|done].
Qed.

Lemma plain_name_apk (task_id : str) :
  SLASH ∉ task_id -> plain_name (task_id ++ lit ".apk").
Proof.
  intros Hslash. split; [|split; [|split]].
  - rewrite elem_of_app. intros [?|Hin]; [done|]. revert Hin. by_computation.
  - intros Heq. apply (f_equal length) in Heq. rewrite length_app in Heq.
    change (length (lit ".apk")) with 4%nat in Heq. simpl in Heq. lia.
  - intros Heq. apply (f_equal length) in Heq. rewrite length_app in Heq.
    change (length (lit ".apk")) with 4%nat in Heq. simpl in Heq. lia.
  - intros Heq. apply (f_equal length) in Heq. rewrite length_app in Heq.
    change (length (lit ".apk")) with 4%nat in Heq. simpl in Heq. lia.
Qed.

(** The paths the storage service derives from a base directory written
    without [..] and from identifiers that are single names: neither the
    workspace of a task nor its output path has a [..], the cache
    directory of a package and the workspace of a task are not inside
    one another, and the output path is not inside the cache directory. *)
Lemma storage_layout (storage : StorageService.t) (task_id apk_id : str) :
  DOTDOT ∉ parts (StorageService.base_dir storage) ->
  plain_name task_id ->
  plain_name apk_id ->
  let cache_dir := StorageService.get_cache_dir storage apk_id in
  let work_dir := StorageService.get_work_dir storage task_id in
  let output_path := StorageService.get_output_path storage task_id in
  (DOTDOT ∉ parts work_dir)
  /\ (DOTDOT ∉ parts output_path)
  /\ ~ (locate cache_dir `prefix_of` locate work_dir)
  /\ ~ (locate work_dir `prefix_of` locate cache_dir)
  /\ ~ (locate cache_dir `prefix_of` locate output_path).
Proof.
  intros Hbase Htask Hapk cache_dir work_dir output_path.
  pose proof (plain_name_apk task_id (proj1 Htask)) as Hout.
  assert (Hc : plain_name (lit "cache")) by (repeat split; by_computation).
  assert (Hw : plain_name (lit "workspace")) by (repeat split; by_computation).
  assert (Ho : plain_name (lit "output")) by (repeat split; by_computation).
  set (b := parts (StorageService.base_dir storage)) in *.
  set (a := anchored (StorageService.base_dir storage)).
  assert (Ecache : cache_dir = mkPath a ((b ++ [lit "cache"]) ++ [apk_id])).
  { unfold cache_dir, StorageService.get_cache_dir, StorageService.cache_dir.
    by rewrite (joinpath_plain_name _ _ Hc), (joinpath_plain_name _ _ Hapk). }
  assert (Ework : work_dir = mkPath a ((b ++ [lit "workspace"]) ++ [task_id])).
  { unfold work_dir, StorageService.get_work_dir, StorageService.workspace_dir.
    by rewrite (joinpath_plain_name _ _ Hw), (joinpath_plain_name _ _ Htask). }
  assert (Eout : output_path
                 = mkPath a ((b ++ [lit "output"]) ++ [task_id ++ lit ".apk"])).
  { unfold output_path, StorageService.get_output_path,
      StorageService.output_dir.
    by rewrite (joinpath_plain_name _ _ Ho), (joinpath_plain_name _ _ Hout). }
  assert (Hplain : forall x y : str,
            plain_name x -> plain_name y -> DOTDOT ∉ (b ++ [x]) ++ [y]).
  { intros x y (_ & _ & _ & Hx) (_ & _ & _ & Hy).
    rewrite !elem_of_app, !list_elem_of_singleton.
    intros [[Hb|Heq]|Heq]; [by apply Hbase|congruence|congruence]. }
  assert (Hloc : forall x y : str,
            plain_name x -> plain_name y ->
            locate (mkPath a ((b ++ [x]) ++ [y]))
            = ((if a then [] else getcwd) ++ b) ++ [x; y]).
  { intros x y Hx Hy. unfold locate. cbn [anchored parts].
    rewrite (lexical_plain _ (Hplain x y Hx Hy)).
    by rewrite <- !app_assoc. }
  assert (Hdiff : forall (pre : loc) (x y x' y' : str),
            x <> x' -> ~ (pre ++ [x; y]) `prefix_of` (pre ++ [x'; y'])).
  { intros pre x y x' y' Hne Hpre. apply prefix_app_inv in Hpre.
    by apply prefix_cons_inv_1 in Hpre. }
  rewrite Ecache, Ework, Eout. cbn [parts].
  rewrite !Hloc by done.
  split; [by apply Hplain|]. split; [by apply Hplain|].
  split; [|split]; apply Hdiff; by_computation.
Qed.

End Layout.

(** ** A script rule that changes nothing *)

Section Unmatched.
Context `{Runtime}.
Import RuleEngine Spec.

Ltac bools :=
  unfold is_cont, lo3, hi3, lo4, hi4 in *;
  repeat match goal with
         | H : context [if ?c then _ else _] |- _ => destruct c eqn:?
         | |- context [if ?c then _ else _] => destruct c eqn:?
         end;
  rewrite ?andb_true_iff, ?andb_false_iff, ?Z.leb_le, ?Z.ltb_lt, ?Z.leb_gt,
    ?Z.ltb_ge, ?Z.eqb_eq, ?Z.eqb_neq in *.

Lemma encode_cp_1 (b0 : Z) :
  (0 <=? b0) && (b0 <? 128) = true -> encode_cp b0 = Some [b0].
Proof. intros H0. unfold encode_cp. by rewrite H0. Qed.

Lemma encode_cp_2 (b0 b1 : Z) :
  (194 <=? b0) && (b0 <=? 223) = true -> is_cont b1 = true ->
  encode_cp ((b0 - 192) * 64 + (b1 - 128)) = Some [b0; b1].
Proof.
  intros H0 H1. unfold encode_cp. bools; try lia.
  repeat f_equal; Z.div_mod_to_equations; lia.
Qed.

Lemma encode_cp_3 (b0 b1 b2 : Z) :
  (224 <=? b0) && (b0 <=? 239) = true ->
  (lo3 b0 <=? b1) && (b1 <=? hi3 b0) && is_cont b2 = true ->
  encode_cp ((b0 - 224) * 4096 + (b1 - 128) * 64 + (b2 - 128))
  = Some [b0; b1; b2].
Proof.
  intros H0 H1. unfold encode_cp. bools; try lia.
  all: repeat f_equal; Z.div_mod_to_equations; lia.
Qed.

Lemma encode_cp_4 (b0 b1 b2 b3 : Z) :
  (240 <=? b0) && (b0 <=? 244) = true ->
  (lo4 b0 <=? b1) && (b1 <=? hi4 b0) && is_cont b2 && is_cont b3 = true ->
  encode_cp ((b0 - 240) * 262144 + (b1 - 128) * 4096
             + (b2 - 128) * 64 + (b3 - 128))
  = Some [b0; b1; b2; b3].
Proof.
  intros H0 H1. unfold encode_cp. bools; try lia.
  all: repeat f_equal; Z.div_mod_to_equations; lia.
Qed.

(** Encoding what was decoded gives the octets back, and a decoded text
    has a carriage return only where the octets have one. *)
Lemma utf8_roundtrip_fuel (n : nat) :
  forall (bs : bytes) (s : str),
    (length bs <= n)%nat ->
    utf8_decode bs = Some s ->
    utf8_encode s = Some bs /\ (13 ∉ bs -> 13 ∉ s).
Proof.
  induction n as [|n IH]; intros [|b0 r0] s Hlen; simpl in Hlen; try lia;
    try (intros [= <-]; split; [done|by intros _ ?%not_elem_of_nil]).
  cbn [utf8_decode].
  destruct ((0 <=? b0) && (b0 <? 128)) eqn:H1.
  { destruct (utf8_decode r0) as [s'|] eqn:Hd; [|done]. intros [= <-].
    destruct (IH r0 s' ltac:(lia) Hd) as [He Hcr]. split.
    - cbn [utf8_encode]. by rewrite (encode_cp_1 _ H1), He.
    - rewrite !not_elem_of_cons. intros [Hb Hr]. split; [exact Hb|auto]. }
  destruct ((194 <=? b0) && (b0 <=? 223)) eqn:H2.
  { destruct r0 as [|b1 r1]; [done|].
    destruct (is_cont b1) eqn:C1; [|done].
    destruct (utf8_decode r1) as [s'|] eqn:Hd; [|done]. intros [= <-].
    simpl in Hlen. destruct (IH r1 s' ltac:(lia) Hd) as [He Hcr]. split.
    - cbn [utf8_encode]. by rewrite (encode_cp_2 _ _ H2 C1), He.
    - rewrite !not_elem_of_cons. intros (_ & _ & Hr). split; [|auto].
      clear -H2 C1. bools. lia. }
  destruct ((224 <=? b0) && (b0 <=? 239)) eqn:H3.
  { destruct r0 as [|b1 [|b2 r2]]; [done|done|].
    destruct (_ && is_cont b2) eqn:C1; [|done].
    destruct (utf8_decode r2) as [s'|] eqn:Hd; [|done]. intros [= <-].
    simpl in Hlen. destruct (IH r2 s' ltac:(lia) Hd) as [He Hcr]. split.
    - cbn [utf8_encode]. by rewrite (encode_cp_3 _ _ _ H3 C1), He.
    - rewrite !not_elem_of_cons. intros (_ & _ & _ & Hr). split; [|auto].
      clear -H3 C1. bools; lia. }
  destruct ((240 <=? b0) && (b0 <=? 244)) eqn:H4; [|done].
  destruct r0 as [|b1 [|b2 [|b3 r3]]]; [done|done|done|].
  destruct (_ && is_cont b3) eqn:C1; [|done].
  destruct (utf8_decode r3) as [s'|] eqn:Hd; [|done]. intros [= <-].
  simpl in Hlen. destruct (IH r3 s' ltac:(lia) Hd) as [He Hcr]. split.
  - cbn [utf8_encode]. by rewrite (encode_cp_4 _ _ _ _ H4 C1), He.
  - rewrite !not_elem_of_cons. intros (_ & _ & _ & _ & Hr). split; [|auto].
    clear -H4 C1. bools; lia.
Qed.

Lemma utf8_roundtrip (bs : bytes) (s : str) :
  utf8_decode bs = Some s ->
  utf8_encode s = Some bs /\ (13 ∉ bs -> 13 ∉ s).
Proof. by apply (utf8_roundtrip_fuel (length bs)). Qed.

Lemma universal_newlines_id (s : str) : 13 ∉ s -> universal_newlines s = s.
Proof.
  induction s as [|c s IH]; [done|].
  intros [Hc Hs]%not_elem_of_cons. cbn [universal_newlines].
  destruct (c =? 13) eqn:E; [apply Z.eqb_eq in E; congruence|].
  by rewrite IH.
Qed.

Lemma replace_scan_no_match (old new s : str) :
  count_scan old 0 s = 0%nat -> replace_scan old new 0 s = s.
Proof.
  induction s as [|c s IH]; [done|].
  cbn [count_scan replace_scan].
  destruct (startswith old (c :: s)); [done|].
  intros Hc. by rewrite IH.
Qed.

Lemma replace_no_match (old new s : str) :
  count old s = 0%nat -> replace old new s = s.
Proof. destruct old; [done|]. apply replace_scan_no_match. Qed.

(** Overwriting a regular file does not change where paths lead. *)
Lemma walk_insert_file (t : tree) (l : loc) (d0 d1 : bytes) (ps : list str) :
  entry_at t l = Some (File d0) ->
  forall cur, walk (<[l := File d1]> t) cur ps = walk t cur ps.
Proof.
  intros Hl. induction ps as [|c rest IH]; intros cur; [done|].
  cbn [walk].
  assert (Hent : entry_at (<[l := File d1]> t) cur = entry_at t cur
                 \/ (entry_at (<[l := File d1]> t) cur = Some (File d1)
                     /\ entry_at t cur = Some (File d0))).
  { destruct cur as [|x cur]; [by left|]. simpl.
    destruct (decide (l = x :: cur)) as [->|Hne].
    - right. by rewrite lookup_insert_eq.
    - left. by rewrite lookup_insert_ne. }
  destruct Hent as [->|[-> ->]]; [|done].
  destruct (entry_at t cur) as [[|]|]; try done.
  destruct (bool_decide _); apply IH.
Qed.

(** A script rule without a match, on a UTF-8 file that has no carriage
    return: the rule succeeds and the tree is the same tree. In literal
    mode, no match is that the pattern does not occur; in regex mode,
    that [re.sub] returns the text as it got it. (C6 fails on the files
    that have a carriage return; this is the part of it that holds.) *)
Theorem unmatched_rule_keeps_file (d : Path) (r : ScriptRule.t) (t : tree)
    (l : loc) (data : bytes) (content : str) :
  resolve t (joinpath d (ScriptRule.target_path r)) = inr l ->
  entry_at t l = Some (File data) ->
  utf8_decode data = Some content ->
  13 ∉ data ->
  (if ScriptRule.use_regex r
   then re_sub (ScriptRule.pattern r) (ScriptRule.replacement r) content
        = inr content
   else count (ScriptRule.pattern r) content = 0%nat) ->
  apply_script_rule d r t
  = (Returns (RuleResult.mk 0 true
                (lit "脚本替换成功: " ++ ScriptRule.target_path r)), t).
Proof.
  intros Hres Hent Hdec Hcr Hmatch.
  destruct (utf8_roundtrip _ _ Hdec) as [Henc Hcr']. specialize (Hcr' Hcr).
  assert (Hl : t !! l = Some (File data)) by (by destruct l).
  unfold apply_script_rule, bind at 1, exists_, present.
  rewrite Hres, Hent. rewrite bool_decide_eq_true_2 by eauto. cbn [negb].
  unfold try_except, bind at 1, read_text, bind at 1, read_bytes.
  rewrite Hres, Hent, Hdec. unfold ret at 1.
  rewrite (universal_newlines_id _ Hcr').
  assert (Hnew : (if ScriptRule.use_regex r
                  then match re_sub (ScriptRule.pattern r)
                               (ScriptRule.replacement r) content with
                       | inr s => ret s
                       | inl e => raise (Lib e)
                       end
                  else ret (replace (ScriptRule.pattern r)
                              (ScriptRule.replacement r) content)) t
                 = (Returns content, t)).
  { destruct (ScriptRule.use_regex r).
    - by rewrite Hmatch.
    - by rewrite (replace_no_match _ _ _ Hmatch). }
  unfold bind at 1. rewrite Hnew.
  unfold bind at 1, write_text, bind at 1, write_bytes at 1.
  rewrite Hres, Hent, Henc. unfold write_bytes, resolve.
  rewrite (walk_insert_file _ _ _ _ _ Hent).
  fold (resolve t (joinpath d (ScriptRule.target_path r))). rewrite Hres.
  assert (Hent1 : entry_at (<[l := File []]> t) l = Some (File [])).
  { destruct l; [done|]. apply lookup_insert_eq. }
  rewrite Hent1. unfold bind, ret.
  by rewrite insert_insert_eq, insert_id.
Qed.

End Unmatched.

(** * The properties on a concrete tree *)

(** A run is known once its outcome is: the tree it leaves is whatever
    the run leaves. *)
Lemma run_eta {A} (run : outcome A * tree) (o : outcome A) :
  run.1 = o -> run = (o, run.2).
Proof. intros <-. by destruct run. Qed.

Ltac run_outcome := apply run_eta; vm_compute; reflexivity.

Section Concrete.
Import RuleEngine Spec Demo.

Lemma tool_ok_spares_cache :
  @tool_spares runtime tool_ok (locate cache1)
    (joinpath work1 (lit "decompiled")) out1.
Proof.
  intros t l Hl. cbn [apktool_b tool_ok]. unfold bind.
  pose proof (write_bytes_frame out1 [80; 75] t l) as Hw.
  destruct (write_bytes out1 [80; 75] t) as [[[]|e] t']; simpl in *;
    apply Hw; intros ->; revert Hl; by_computation.
Qed.

Lemma tool_fail_keeps_workspace :
  @tool_keeps_directory runtime tool_fail (locate work1)
    (joinpath work1 (lit "decompiled")) out1.
Proof. intros t Hdir data. cbn. rewrite Hdir. discriminate. Qed.

(** C2, counterexample. A rule whose target is an absolute path into the
    cache, which the validator rejects but [process_task] takes: the task
    completes and the cached file has been rewritten. *)
Lemma cache_written_by_unvalidated_rule :
  let l := at_ "/srv/data/cache/apk1/decompiled/a.txt" in
  let run := @process_task runtime tool_ok cache1 work1 out1
               escaping_rules disk0 in
  locate cache1 `prefix_of` l
  /\ (exists vr, validate_rules escaping_rules = Returns vr
                 /\ ValidationResult.valid vr = false)
  /\ disk0 !! l = Some (File (octets "hello"))
  /\ (exists r, run.1 = Returns [r] /\ RuleResult.success r = true)
  /\ run.2 !! l = Some (File (octets "bye"))
  /\ run.2 !! l <> disk0 !! l.
Proof.
  split; [by_computation|].
  split; [eexists; split; vm_compute; reflexivity|].
  split; [vm_compute; reflexivity|].
  split; [eexists; split; vm_compute; reflexivity|].
  split; [vm_compute; reflexivity|].
  vm_compute. discriminate.
Qed.

(** C5, on an input, in the workspace of the task [t1]. The image data
    [!!!!] is not base64: the validator's strict decoding rejects it.
    The applier's decoding drops the four characters and returns no
    octets, so the rule succeeds and the target is left empty. *)
Lemma malformed_base64_is_applied :
  let rule := ImageRule.mk (lit "res/icon.png") (lit "!!!!") in
  let l := at_ "/srv/data/workspace/t1/decompiled/res/icon.png" in
  let run := apply_image_rule root1 rule disk1 in
  Base64.b64decode (lit "!!!!") true = inl Base64.OnlyBase64
  /\ _validate_image_rule 0 rule
     = [ValidationError.mk 0 (lit "image_data")
          (lit "image_data 不是有效的 Base64 编码")]
  /\ present disk1 (joinpath root1 (lit "res/icon.png")) = true
  /\ disk1 !! l = Some (File [137; 80; 78; 71])
  /\ run.1 = Returns (RuleResult.mk 0 true (lit "图片替换成功: res/icon.png"))
  /\ run.2 !! l = Some (File []).
Proof. repeat split; vm_compute; reflexivity. Qed.

(** C6, on an input. The file [crlf.txt] holds [a\r\nb], which is UTF-8,
    and the literal pattern [zzz] does not occur in it. The rule succeeds
    and the file now holds [a\nb]: the text-mode read has turned the line
    end into [\n] and the text is written back as read. *)
Lemma unmatched_rule_rewrites_line_ends :
  let rule := ScriptRule.mk (lit "crlf.txt") (lit "zzz") (lit "q") false in
  let l := at_ "/srv/data/workspace/t1/decompiled/crlf.txt" in
  let run := apply_script_rule root1 rule disk1 in
  disk1 !! l = Some (File [97; 13; 10; 98])
  /\ utf8_decode [97; 13; 10; 98] = Some [97; 13; 10; 98]
  /\ count (lit "zzz") [97; 13; 10; 98] = 0%nat
  /\ run.1 = Returns (RuleResult.mk 0 true (lit "脚本替换成功: crlf.txt"))
  /\ run.2 !! l = Some (File [97; 10; 98])
  /\ run.2 !! l <> disk1 !! l.
Proof.
  split; [vm_compute; reflexivity|].
  split; [vm_compute; reflexivity|].
  split; [vm_compute; reflexivity|].
  split; [vm_compute; reflexivity|].
  split; [vm_compute; reflexivity|].
  vm_compute. discriminate.
Qed.

(** C10, counterexample. An image rule whose target is the directory
    [res] and whose data [abc] does not decode: the failure carries the
    text of the decoding error, and the text of the I/O error that
    opening a directory raises is not in the message. *)
Lemma directory_target_with_undecodable_data :
  let rule := ImageRule.mk (lit "res") (lit "abc") in
  let target := joinpath root1 (lit "res") in
  let io_text := exn_str (Lib (IsADirectoryError (path_str target))) in
  resolve disk1 target = inr (at_ "/srv/data/workspace/t1/decompiled/res")
  /\ entry_at disk1 (at_ "/srv/data/workspace/t1/decompiled/res") = Some Dir
  /\ exists r,
       (apply_image_rule root1 rule disk1).1 = Returns r
       /\ RuleResult.success r = false
       /\ RuleResult.message r
          = lit "图片替换失败: res, 错误: Incorrect padding"
       /\ contains io_text (RuleResult.message r) = false.
Proof.
  split; [vm_compute; reflexivity|].
  split; [vm_compute; reflexivity|].
  exists (RuleResult.mk 0 false
            (lit "图片替换失败: res, 错误: Incorrect padding")).
  repeat split; vm_compute; reflexivity.
Qed.

End Concrete.

(** ** The theorems at work on the concrete tree *)

Section Witnesses.
Import RuleEngine Spec Demo.


Lemma run_task_reaches_terminal_state_witness :
  tasks state0 !! lit "t1" = Some task0
  /\ exists task d,
       @_run_task runtime tool_fail StorageService.default (lit "t1")
         (lit "apk1") edit_rules state0
       = (Returns tt, mkState (<[lit "t1" := task]> (tasks state0)) d)
       /\ (status task = COMPLETED \/ status task = FAILED).
Proof.
  assert (H1 : tasks state0 !! lit "t1" = Some task0)
    by (apply lookup_singleton_eq).
  split; [exact H1|].
  destruct (@run_task_reaches_terminal_state runtime tool_fail
              StorageService.default (lit "t1") (lit "apk1") edit_rules
              state0 task0 H1) as (task & d & Hrun & Hstatus & _).
  exists task, d. split; [exact Hrun|exact Hstatus].
Defined.




Lemma directory_target_is_a_failure_witness :
  let rule := Script (ScriptRule.mk (lit "res") (lit "a") (lit "b") false) in
  let l := at_ "/srv/data/workspace/t1/decompiled/res" in
  let io_text :=
    exn_str (Lib (IsADirectoryError (path_str (joinpath root1 (lit "res"))))) in
  is_model rule
  /\ resolve disk1 (joinpath root1 (target_of rule)) = inr l
  /\ entry_at disk1 l = Some Dir
  /\ apply_script_rule root1
       (ScriptRule.mk (lit "res") (lit "a") (lit "b") false) disk1
     = (Returns (RuleResult.mk 0 false
                   (lit "脚本替换失败: " ++ lit "res" ++ lit ", 错误: "
                    ++ io_text)), disk1).
Proof.
  intros rule l io_text.
  assert (H1 : is_model rule) by exact I.
  assert (H2 : resolve disk1 (joinpath root1 (target_of rule)) = inr l)
    by (vm_compute; reflexivity).
  assert (H3 : entry_at disk1 l = Some Dir) by (vm_compute; reflexivity).
  split; [exact H1|]. split; [exact H2|]. split; [exact H3|].
  exact (proj1 (@directory_target_is_a_failure runtime root1 rule disk1 l
                  H1 H2 H3)).
Defined.

Lemma recompile_failure_cleans_up_witness :
  let d := joinpath work1 (lit "decompiled") in
  let t3 := (@recompile runtime tool_fail d out1
               (apply_rules d 0 edit_rules [] disk1).2).2 in
  let e := RuntimeError
             (lit "apktool 重新打包失败 (exit code 1): brut.AndrolibException") in
  @tool_keeps_directory runtime tool_fail (locate work1) d out1
  /\ copy_cache_to_workdir cache1 work1 disk0 = (Returns tt, disk1)
  /\ @recompile runtime tool_fail d out1
       (apply_rules d 0 edit_rules [] disk1).2 = (Raises e, t3)
  /\ exists t4,
       @process_task runtime tool_fail cache1 work1 out1 edit_rules disk0
       = (Raises e, t4)
       /\ present t4 work1 = false.
Proof.
  intros d t3 e.
  assert (H1 : copy_cache_to_workdir cache1 work1 disk0 = (Returns tt, disk1))
    by run_outcome.
  assert (H2 : @recompile runtime tool_fail d out1
                 (apply_rules d 0 edit_rules [] disk1).2 = (Raises e, t3))
    by run_outcome.
  split; [exact tool_fail_keeps_workspace|]. split; [exact H1|].
  split; [exact H2|].
  destruct (@recompile_failure_cleans_up runtime tool_fail cache1 work1 out1
              edit_rules disk0 disk1 t3 e tool_fail_keeps_workspace H1 H2)
    as (t4 & Hrun & Hgone & _).
  exists t4. split; [exact Hrun|exact Hgone].
Defined.

Lemma cache_is_left_untouched_witness :
  let vr := ValidationResult.mk true [] in
  validate_rules edit_rules = Returns vr
  /\ ValidationResult.valid vr = true
  /\ (DOTDOT ∉ parts work1)
  /\ (DOTDOT ∉ parts out1)
  /\ ~ (locate cache1 `prefix_of` locate work1)
  /\ ~ (locate work1 `prefix_of` locate cache1)
  /\ ~ (locate cache1 `prefix_of` locate out1)
  /\ @tool_spares runtime tool_ok (locate cache1)
       (joinpath work1 (lit "decompiled")) out1
  /\ forall l,
       locate cache1 `prefix_of` l ->
       (@process_task runtime tool_ok cache1 work1 out1 edit_rules disk0).2 !! l
       = disk0 !! l.
Proof.
  intros vr.
  assert (H1 : validate_rules edit_rules = Returns vr)
    by (vm_compute; reflexivity).
  assert (H2 : ValidationResult.valid vr = true) by reflexivity.
  assert (H3 : DOTDOT ∉ parts work1) by by_computation.
  assert (H4 : DOTDOT ∉ parts out1) by by_computation.
  assert (H5 : ~ locate cache1 `prefix_of` locate work1) by by_computation.
  assert (H6 : ~ locate work1 `prefix_of` locate cache1) by by_computation.
  assert (H7 : ~ locate cache1 `prefix_of` locate out1) by by_computation.
  repeat (split; [assumption|]).
  split; [exact tool_ok_spares_cache|].
  exact (@cache_is_left_untouched runtime tool_ok cache1 work1 out1 edit_rules
           vr disk0 H1 H2 H3 H4 H5 H6 H7 tool_ok_spares_cache).
Defined.

End Witnesses.

(** * Further properties of the code *)

(** ** What the validator accepts *)

Section Acceptance.
Context `{Runtime}.
Import RuleEngine Spec Cover.

Lemma rule_errors_nil_iff (index : nat) (rule : ReplacementRule) :
  has_target_path rule ->
  rule_errors index rule = [] <-> acceptable rule.
Proof.
  intros Htp. unfold rule_errors, acceptable, _validate_target_path,
    _validate_script_rule, _validate_image_rule, safe_target.
  split.
  - intros [Hpath Hrest]%app_eq_nil. split; [done|].
    destruct (blank (target_of rule)); [done|].
    destruct (contains _ (target_of rule)); [done|].
    destruct (startswith _ (target_of rule)); [done|].
    do 2 (split; [done|]).
    destruct rule as [r|r|ty tp]; [| |done].
    + destruct (blank (ScriptRule.pattern r)); [done|]. split; [done|].
      intros Hre. rewrite Hre in Hrest. by destruct (re_compile _).
    + destruct (blank (ImageRule.image_data r)); [done|]. split; [done|].
      destruct (Base64.b64decode _ true) as [why|b]; [done|]. by exists b.
  - intros (_ & -> & [-> ->] & Hrule). simpl.
    destruct rule as [r|r|ty tp]; [| |done].
    + destruct Hrule as [-> Hre].
      destruct (ScriptRule.use_regex r); [|done]. by rewrite Hre.
    + destruct Hrule as [-> [b ->]]. done.
Qed.

Lemma loop_errors_nil_iff (rules : list ReplacementRule) :
  Forall has_target_path rules ->
  forall index, loop_errors index rules = [] <-> Forall acceptable rules.
Proof.
  induction 1 as [|rule rest Hrule _ IH]; intros index; simpl.
  - split; [constructor|done].
  - split.
    + intros [H1 H2]%app_eq_nil. constructor.
      * by apply (rule_errors_nil_iff index).
      * by apply (IH (S index)).
    + intros [H1 H2]%Forall_cons.
      by rewrite (proj2 (rule_errors_nil_iff index rule Hrule) H1),
        (proj2 (IH (S index)) H2).
Qed.

(** A batch is either accepted with no error or rejected with at least
    one: [valid] says whether the error list is empty. *)
Lemma validate_valid_iff_no_error (rules : list ReplacementRule)
    (vr : ValidationResult.t) :
  validate_rules rules = Returns vr ->
  (ValidationResult.valid vr = true <-> ValidationResult.errors vr = []).
Proof.
  unfold validate_rules. destruct (validate_loop 0 rules []); [|done].
  intros [= <-]. simpl. rewrite bool_decide_eq_true.
  split; [apply nil_length_inv|by intros ->].
Qed.

Lemma acceptable_validates (rules : list ReplacementRule) :
  Forall acceptable rules ->
  validate_rules rules = Returns (ValidationResult.mk true []).
Proof.
  intros Hall. unfold validate_rules.
  assert (Htp : Forall has_target_path rules).
  { eapply Forall_impl; [exact Hall|]. by intros rule [? _]. }
  rewrite (validate_loop_spec _ Htp). simpl.
  by rewrite (proj2 (loop_errors_nil_iff rules Htp 0) Hall).
Qed.

Lemma validated_acceptable (rules : list ReplacementRule)
    (vr : ValidationResult.t) :
  validate_rules rules = Returns vr ->
  ValidationResult.valid vr = true ->
  Forall acceptable rules.
Proof.
  intros Hvr Hvalid.
  apply (validate_valid_iff_no_error _ _ Hvr) in Hvalid.
  revert Hvr. unfold validate_rules.
  destruct (validate_loop 0 rules []) as [errors|e] eqn:Hloop; [|done].
  intros [= <-]. simpl in Hvalid. subst errors.
  pose proof (validate_loop_total _ _ _ _ Hloop) as Htp.
  rewrite (validate_loop_spec _ Htp) in Hloop. simpl in Hloop.
  injection Hloop as Hloop. by apply (loop_errors_nil_iff rules Htp 0).
Qed.

(** X1. [validate_rules] accepts a batch exactly when every rule of it is
    acceptable on its own: it returns [valid] with no error if and only if
    each rule has a target path that is not blank, has no [..] and no
    leading [/], and its own fields pass (pattern not blank and, in regex
    mode, compiling; image data not blank and strict base64). *)
Theorem validate_accepts_iff (rules : list ReplacementRule) :
  validate_rules rules = Returns (ValidationResult.mk true [])
  <-> Forall acceptable rules.
Proof.
  split.
  - intros Hvr. by apply (validated_acceptable _ _ Hvr).
  - apply acceptable_validates.
Qed.

Lemma loop_errors_sorted (rules : list ReplacementRule) :
  forall index,
    StronglySorted le (map ValidationError.rule_index (loop_errors index rules)).
Proof.
  induction rules as [|rule rest IH]; intros index; simpl; [constructor|].
  rewrite map_app.
  pose proof (rule_errors_index index rule) as Hhere.
  pose proof (loop_errors_index_ge rest (S index)) as Hlater.
  induction Hhere as [|e es He Hes IHes]; simpl; [apply IH|].
  constructor; [exact IHes|].
  apply Forall_app. split; apply Forall_map.
  - eapply Forall_impl; [exact Hes|]. simpl. lia.
  - eapply Forall_impl; [exact Hlater|]. simpl. lia.
Qed.

(** X2. The errors [validate_rules] reports are indexed by the positions
    of the rules they are about and come in the order of the rules: every
    [rule_index] is a position of the batch, and the indices never
    decrease along the list. *)
Theorem validate_errors_follow_the_rules (rules : list ReplacementRule)
    (vr : ValidationResult.t) :
  validate_rules rules = Returns vr ->
  Forall (fun e => (ValidationError.rule_index e < length rules)%nat)
    (ValidationResult.errors vr)
  /\ StronglySorted le
       (map ValidationError.rule_index (ValidationResult.errors vr)).
Proof.
  unfold validate_rules.
  destruct (validate_loop 0 rules []) as [errors|e] eqn:Hloop; [|done].
  intros [= <-]. simpl.
  rewrite (validate_loop_spec _ (validate_loop_total _ _ _ _ Hloop)) in Hloop.
  simpl in Hloop. injection Hloop as <-. split; [|apply loop_errors_sorted].
  assert (Hgen : forall rs index,
            Forall (fun e => (ValidationError.rule_index e
                              < index + length rs)%nat)
              (loop_errors index rs)).
  { induction rs as [|rule rest IH]; intros index; simpl; [constructor|].
    apply Forall_app. split.
    - eapply Forall_impl; [apply rule_errors_index|]. simpl. lia.
    - eapply Forall_impl; [apply (IH (S index))|]. simpl. lia. }
  apply (Hgen rules 0%nat).
Qed.

End Acceptance.

(** ** What a rule does to its target *)

Section ApplierResults.
Context `{Runtime}.
Import RuleEngine Spec Cover.

Lemma present_entry (t : tree) (p : Path) (l : loc) (e : entry) :
  resolve t p = inr l -> entry_at t l = Some e -> present t p = true.
Proof.
  intros Hres Hent. unfold present. rewrite Hres, Hent.
  by apply bool_decide_eq_true.
Qed.

Lemma entry_at_insert (t : tree) (l : loc) (e : entry) :
  l <> [] -> entry_at (<[l := e]> t) l = Some e.
Proof. destruct l; [done|]. intros _. apply lookup_insert_eq. Qed.

(** A script rule on a regular file, step by step: the text is decoded
    and read with universal newlines, the substitution is made, the file
    is truncated and the new text is encoded and written. *)
Lemma apply_script_rule_on_file (d : Path) (r : ScriptRule.t) (t : tree)
    (l : loc) (data : bytes) :
  resolve t (joinpath d (ScriptRule.target_path r)) = inr l ->
  entry_at t l = Some (File data) ->
  apply_script_rule d r t
  = match utf8_decode data with
    | None => (Returns (script_failure r (Lib UnicodeDecodeError)), t)
    | Some content =>
        match substitute r (universal_newlines content) with
        | inl e => (Returns (script_failure r (Lib e)), t)
        | inr new_content =>
            match utf8_encode new_content with
            | Some out => (Returns (script_success r), <[l := File out]> t)
            | None =>
                (Returns (script_failure r (Lib UnicodeEncodeError)),
                 <[l := File []]> t)
            end
        end
    end.
Proof.
  intros Hres Hent.
  assert (Hl : l <> []) by (intros ->; done).
  unfold apply_script_rule, bind at 1, exists_.
  rewrite (present_entry _ _ _ _ Hres Hent). cbn [negb].
  unfold try_except, bind at 1, read_text, bind at 1, read_bytes.
  rewrite Hres, Hent.
  destruct (utf8_decode data) as [content|]; [|done].
  unfold ret at 1, bind at 1, substitute.
  set (text := universal_newlines content).
  assert (Hwrite : forall new_content,
            write_text (joinpath d (ScriptRule.target_path r)) new_content t
            = match utf8_encode new_content with
              | Some out => (Returns tt, <[l := File out]> t)
              | None => (Raises (Lib UnicodeEncodeError), <[l := File []]> t)
              end).
  { intros new_content. unfold write_text, bind, write_bytes at 1.
    rewrite Hres, Hent.
    destruct (utf8_encode new_content) as [out|]; [|done].
    unfold write_bytes, resolve. rewrite (walk_insert_file _ _ _ _ _ Hent).
    fold (resolve t (joinpath d (ScriptRule.target_path r))).
    rewrite Hres, (entry_at_insert _ _ _ Hl). by rewrite insert_insert_eq. }
  destruct (ScriptRule.use_regex r).
  - destruct (re_sub _ _ text) as [e|new_content]; [done|].
    unfold ret at 1, bind at 1. rewrite Hwrite.
    by destruct (utf8_encode new_content).
  - unfold ret at 1, bind at 1. rewrite Hwrite.
    by destruct (utf8_encode _).
Qed.

(** X3. A script rule on a regular file whose content is UTF-8: when the
    substitution succeeds and its result can be encoded, the rule
    succeeds, the file holds the UTF-8 encoding of the substituted text
    (the text as read with universal newlines) and nothing else in the
    tree has changed. *)
Theorem script_rule_rewrites_target (d : Path) (r : ScriptRule.t) (t : tree)
    (l : loc) (data out : bytes) (content new_content : str) :
  resolve t (joinpath d (ScriptRule.target_path r)) = inr l ->
  entry_at t l = Some (File data) ->
  utf8_decode data = Some content ->
  substitute r (universal_newlines content) = inr new_content ->
  utf8_encode new_content = Some out ->
  apply_script_rule d r t
  = (Returns (script_success r), <[l := File out]> t).
Proof.
  intros Hres Hent Hdec Hsub Henc.
  by rewrite (apply_script_rule_on_file _ _ _ _ _ Hres Hent), Hdec, Hsub, Henc.
Qed.

(** X4. A script rule that fails before it writes leaves the tree as it
    is: when the target file is not UTF-8, or when the substitution
    raises (a regular expression or a replacement template that [re.sub]
    refuses), the result is a failure carrying the text of the exception
    and no file has changed. *)
Theorem script_rule_failure_keeps_tree (d : Path) (r : ScriptRule.t)
    (t : tree) (l : loc) (data : bytes) :
  resolve t (joinpath d (ScriptRule.target_path r)) = inr l ->
  entry_at t l = Some (File data) ->
  (utf8_decode data = None ->
   apply_script_rule d r t
   = (Returns (script_failure r (Lib UnicodeDecodeError)), t))
  /\ (forall content e,
        utf8_decode data = Some content ->
        substitute r (universal_newlines content) = inl e ->
        apply_script_rule d r t = (Returns (script_failure r (Lib e)), t)).
Proof.
  intros Hres Hent. rewrite (apply_script_rule_on_file _ _ _ _ _ Hres Hent).
  split.
  - by intros ->.
  - intros content e -> ->. done.
Qed.

(** X5. A script rule whose substituted text cannot be encoded as UTF-8
    (it holds a lone surrogate, which only the replacement text can bring
    in): the file was opened for writing before the encoding failed, so
    the rule reports a failure and the target file is left empty. *)
Theorem script_rule_unencodable_truncates (d : Path) (r : ScriptRule.t)
    (t : tree) (l : loc) (data : bytes) (content new_content : str) :
  resolve t (joinpath d (ScriptRule.target_path r)) = inr l ->
  entry_at t l = Some (File data) ->
  utf8_decode data = Some content ->
  substitute r (universal_newlines content) = inr new_content ->
  utf8_encode new_content = None ->
  apply_script_rule d r t
  = (Returns (script_failure r (Lib UnicodeEncodeError)), <[l := File []]> t).
Proof.
  intros Hres Hent Hdec Hsub Henc.
  by rewrite (apply_script_rule_on_file _ _ _ _ _ Hres Hent), Hdec, Hsub, Henc.
Qed.

Lemma apply_image_rule_on_file (d : Path) (r : ImageRule.t) (t : tree)
    (l : loc) (data : bytes) :
  resolve t (joinpath d (ImageRule.target_path r)) = inr l ->
  entry_at t l = Some (File data) ->
  apply_image_rule d r t
  = match Base64.b64decode (ImageRule.image_data r) false with
    | inr image_bytes =>
        (Returns (image_success r), <[l := File image_bytes]> t)
    | inl why =>
        (Returns (RuleResult.mk 0 false
                    (lit "图片替换失败: " ++ ImageRule.target_path r
                     ++ lit ", 错误: " ++ exc_text (Base64Error why))), t)
    end.
Proof.
  intros Hres Hent.
  unfold apply_image_rule, bind at 1, exists_.
  rewrite (present_entry _ _ _ _ Hres Hent). cbn [negb].
  unfold try_except, bind at 1.
  destruct (Base64.b64decode _ false) as [why|b]; [done|].
  unfold ret at 1, bind at 1, write_bytes. by rewrite Hres, Hent.
Qed.

(** X6. An image rule whose data the validator accepts, on a regular
    file: the applier decodes the data to the same octets the validator's
    strict decoding gives, the rule succeeds, the file holds exactly
    these octets and nothing else has changed. *)
Theorem image_rule_writes_validated_data (d : Path) (r : ImageRule.t)
    (t : tree) (l : loc) (data : bytes) (index : nat) :
  resolve t (joinpath d (ImageRule.target_path r)) = inr l ->
  entry_at t l = Some (File data) ->
  _validate_image_rule index r = [] ->
  exists image_bytes,
    Base64.b64decode (ImageRule.image_data r) true = inr image_bytes
    /\ apply_image_rule d r t
       = (Returns (image_success r), <[l := File image_bytes]> t).
Proof.
  intros Hres Hent Hvalid. unfold _validate_image_rule in Hvalid.
  destruct (blank _); [done|].
  destruct (Base64.b64decode _ true) as [why|b] eqn:Hstrict; [done|].
  exists b. split; [done|].
  rewrite (apply_image_rule_on_file _ _ _ _ _ Hres Hent).
  by rewrite (b64decode_strict_lenient _ _ Hstrict).
Qed.

Lemma apply_script_rule_effect (d : Path) (r : ScriptRule.t) (t : tree) :
  rewrote t (apply_script_rule d r t).2 (joinpath d (ScriptRule.target_path r)).
Proof.
  set (target := joinpath d (ScriptRule.target_path r)).
  destruct (resolve t target) as [e|l] eqn:Hres.
  { left. unfold apply_script_rule, bind at 1, exists_, present.
    fold target. by rewrite Hres. }
  destruct (entry_at t l) as [[data|]|] eqn:Hent.
  - assert (Hl : t !! l = Some (File data)) by (by destruct l).
    rewrite (apply_script_rule_on_file _ _ _ _ _ Hres Hent).
    destruct (utf8_decode data) as [content|]; [|by left].
    destruct (substitute r _) as [e|new_content]; [by left|].
    destruct (utf8_encode new_content) as [out|]; right; by eauto 6.
  - left. unfold apply_script_rule, bind at 1, exists_. fold target.
    rewrite (present_entry _ _ _ _ Hres Hent). cbn [negb].
    unfold try_except, bind at 1, read_text, bind at 1, read_bytes.
    by rewrite Hres, Hent.
  - left. unfold apply_script_rule, bind at 1, exists_, present.
    fold target. rewrite Hres, Hent.
    rewrite bool_decide_eq_false_2; [done|]. by intros [x Hx].
Qed.

Lemma apply_image_rule_effect (d : Path) (r : ImageRule.t) (t : tree) :
  rewrote t (apply_image_rule d r t).2 (joinpath d (ImageRule.target_path r)).
Proof.
  set (target := joinpath d (ImageRule.target_path r)).
  destruct (resolve t target) as [e|l] eqn:Hres.
  { left. unfold apply_image_rule, bind at 1, exists_, present.
    fold target. by rewrite Hres. }
  destruct (entry_at t l) as [[data|]|] eqn:Hent.
  - assert (Hl : t !! l = Some (File data)) by (by destruct l).
    rewrite (apply_image_rule_on_file _ _ _ _ _ Hres Hent).
    destruct (Base64.b64decode _ false) as [why|b]; [by left|].
    right. by eauto 6.
  - left. unfold apply_image_rule, bind at 1, exists_. fold target.
    rewrite (present_entry _ _ _ _ Hres Hent). cbn [negb].
    unfold try_except, bind at 1.
    destruct (Base64.b64decode _ false) as [why|b]; [done|].
    unfold ret at 1, bind at 1, write_bytes. by rewrite Hres, Hent.
  - left. unfold apply_image_rule, bind at 1, exists_, present.
    fold target. rewrite Hres, Hent.
    rewrite bool_decide_eq_false_2; [done|]. by intros [x Hx].
Qed.

Lemma apply_one_effect (d : Path) (i : nat) (rule : ReplacementRule)
    (t : tree) :
  rewrote t (apply_one d i rule t).2 (joinpath d (target_of rule)).
Proof.
  unfold apply_one, bind. destruct rule as [r|r|ty tp].
  - pose proof (apply_script_rule_effect d r t) as He.
    by destruct (apply_script_rule d r t) as [[x|e] t1].
  - pose proof (apply_image_rule_effect d r t) as He.
    by destruct (apply_image_rule d r t) as [[x|e] t1].
  - by left.
Qed.

Lemma rewrote_kind (t t' : tree) (target : Path) (l : loc) :
  rewrote t t' target -> kind_of (t' !! l) = kind_of (t !! l).
Proof.
  intros [->|(l0 & data & new_data & _ & Hl0 & ->)]; [done|].
  destruct (decide (l0 = l)) as [->|Hne].
  - by rewrite lookup_insert_eq, Hl0.
  - by rewrite lookup_insert_ne.
Qed.

(** X7. Applying rules never changes the shape of the tree: whatever the
    rules and whether they succeed or fail, every location holds
    afterwards what it held before in kind. No file or directory is
    created or removed, no file becomes a directory and no directory a
    file. *)
Theorem rules_keep_the_shape (d : Path) (rules : list ReplacementRule) :
  forall (i : nat) (acc : list RuleResult.t) (t : tree) (l : loc),
    kind_of ((apply_rules d i rules acc t).2 !! l) = kind_of (t !! l).
Proof.
  induction rules as [|rule rest IH]; intros i acc t l; [done|].
  rewrite apply_rules_step.
  pose proof (rewrote_kind _ _ _ l (apply_one_effect d i rule t)) as Hk.
  destruct (apply_one d i rule t) as [[r|e] t1]; simpl in Hk |- *; [|done].
  by rewrite IH.
Qed.

(** X8. Rules only write to their own targets: a location that no script
    or image rule of the list has as its target holds after the loop what
    it held before. *)
Theorem rules_touch_only_their_targets (d : Path)
    (rules : list ReplacementRule) (i : nat) (acc : list RuleResult.t)
    (t : tree) (l : loc) :
  Forall (fun rule =>
            is_model rule -> l <> locate (joinpath d (target_of rule))) rules ->
  (apply_rules d i rules acc t).2 !! l = t !! l.
Proof.
  intros Hnot. revert i acc t.
  induction Hnot as [|rule rest Hrule _ IH]; intros i acc t; [done|].
  rewrite apply_rules_step.
  assert (Hone : (apply_one d i rule t).2 !! l = t !! l).
  { assert (Hmodel : is_model rule \/ (apply_one d i rule t).2 = t).
    { destruct rule; [by left|by left|by right]. }
    destruct Hmodel as [Hmodel | ->]; [|done].
    destruct (apply_one_effect d i rule t)
      as [->|(l0 & data & new_data & Hres & Hl0 & ->)]; [done|].
    apply resolve_locate in Hres.
    rewrite lookup_insert_ne; [done|]. rewrite Hres. intros Heq.
    by apply (Hrule Hmodel). }
  destruct (apply_one d i rule t) as [[r|e] t1]; simpl in Hone |- *; [|done].
  by rewrite IH.
Qed.

(** X9. Image data that the validator accepts never decodes to nothing:
    a validated image rule cannot leave its target empty. *)
Theorem validated_image_data_is_not_empty (index : nat) (r : ImageRule.t)
    (image_bytes : bytes) :
  _validate_image_rule index r = [] ->
  Base64.b64decode (ImageRule.image_data r) false = inr image_bytes ->
  image_bytes <> [].
Proof.
  unfold _validate_image_rule.
  destruct (blank (ImageRule.image_data r)) eqn:Hblank; [done|].
  destruct (Base64.b64decode _ true) as [why|b] eqn:Hstrict; [done|].
  intros _. rewrite (b64decode_strict_lenient _ _ Hstrict). intros [= <-].
  revert Hstrict. unfold Base64.b64decode.
  destruct (forallb _ _); [|done]. unfold Base64.a2b_base64.
  assert (Hone : forall data leftchar pads started nout out,
            Base64.a2b_loop true data 1 leftchar pads started nout = inr out ->
            out <> []).
  { induction data as [|c rest IH]; intros lc pads ps n out; [done|].
    cbn [Base64.a2b_loop]. destruct (c =? Base64.PAD).
    - cbn [Nat.leb andb]. apply IH.
    - destruct (Base64.value c) as [v|]; [|done]. cbn [andb].
      destruct ps; [done|]. by intros (out' & _ & ->)%emit_inr. }
  assert (Hzero : forall data out,
            data <> [] ->
            Base64.a2b_loop true data 0 0 0 false 0 = inr out ->
            hd 0 data <> Base64.PAD -> out <> []).
  { intros [|c rest] out Hne; [done|]. cbn [Base64.a2b_loop hd].
    destruct (c =? Base64.PAD) eqn:Hc; [apply Z.eqb_eq in Hc; done|].
    destruct (Base64.value c) as [v|]; [|done]. cbn [andb]. intros Hrun _.
    by apply Hone in Hrun. }
  destruct (ImageRule.image_data r) as [|c rest] eqn:Hdata; [done|].
  cbn [andb]. destruct (c =? Base64.PAD) eqn:Hc; [done|].
  intros Hrun. apply (Hzero (c :: rest) b); [done|exact Hrun|].
  simpl. by apply Z.eqb_neq.
Qed.

End ApplierResults.

(** ** The copy of the cache into the workspace *)

Section Copy.
Context `{Runtime} `{Apktool}.
Import RuleEngine Spec Cover.

Lemma prefix_drop (s k : loc) : s `prefix_of` k -> k = s ++ drop (length s) k.
Proof. intros [rest ->]. by rewrite drop_app_length. Qed.

(** Below the destination, the graft holds what the snapshot holds below
    the source. *)
Lemma graft_lookup (src dst : loc) (snapshot t : tree) (rel : loc) :
  rel <> [] ->
  graft src dst snapshot t !! (dst ++ rel)
  = match snapshot !! (src ++ rel) with
    | Some e => Some e
    | None => t !! (dst ++ rel)
    end.
Proof.
  intros Hrel. unfold graft.
  apply (map_fold_weak_ind
           (fun (r : tree) (m : tree) =>
              r !! (dst ++ rel)
              = match m !! (src ++ rel) with
                | Some e => Some e
                | None => t !! (dst ++ rel)
                end)); [done|].
  intros k e m r Hk IH.
  destruct (decide (k = src ++ rel)) as [->|Hne].
  - rewrite lookup_insert_eq.
    rewrite bool_decide_eq_true_2 by (by apply prefix_app_r).
    rewrite drop_app_length. destruct rel; [done|]. apply lookup_insert_eq.
  - rewrite (lookup_insert_ne m) by done.
    destruct (bool_decide (src `prefix_of` k)) eqn:Hpre; [|done].
    apply bool_decide_eq_true in Hpre. apply prefix_drop in Hpre.
    destruct (drop (length src) k) as [|x rel'] eqn:Hdrop; [done|].
    rewrite lookup_insert_ne; [done|].
    intros Heq%app_inv_head. apply Hne. by rewrite Hpre, Heq.
Qed.

(** A copy that returns: the source was a directory, the destination was
    created, and the entries of the source were grafted below it. *)
Lemma copytree_success (src dst : Path) (t t1 : tree) :
  copytree src dst t = (Returns tt, t1) ->
  exists t',
    entry_at t (locate src) = Some Dir
    /\ makedirs dst t = (Returns tt, t')
    /\ t1 = graft (locate src) (locate dst) t t'.
Proof.
  unfold copytree.
  destruct (resolve t src) as [e|s] eqn:Hsrc; [done|].
  apply resolve_locate in Hsrc as ->.
  destruct (entry_at t (locate src)) as [[|]|]; try done.
  destruct (makedirs dst t) as [[[]|e] t'] eqn:Hmake; [|done].
  destruct (resolve t' dst) as [e|dd] eqn:Hdst; [done|].
  apply resolve_locate in Hdst as ->. intros [= <-]. by exists t'.
Qed.

Lemma copy_cache_success (cache_dir work_dir : Path) (t t1 : tree) :
  copy_cache_to_workdir cache_dir work_dir t = (Returns tt, t1) ->
  copytree cache_dir work_dir t = (Returns tt, t1).
Proof.
  unfold copy_cache_to_workdir, try_except.
  by destruct (copytree cache_dir work_dir t) as [[[]|e] t'].
Qed.

(** X10. A copy of the cache into the workspace that succeeds is exact.
    The workspace path was free and is now a directory; below it there is
    exactly what there is below the cache directory, entry for entry and
    octet for octet; and nothing else has changed, the cache included,
    apart from the directories above the workspace that had to be
    created. *)
Theorem copy_is_exact (cache_dir work_dir : Path) (t t1 : tree) :
  copy_cache_to_workdir cache_dir work_dir t = (Returns tt, t1) ->
  DOTDOT ∉ parts work_dir ->
  ~ locate cache_dir `prefix_of` locate work_dir ->
  (forall l, locate work_dir `prefix_of` l -> t !! l = None) ->
  t1 !! locate work_dir = Some Dir
  /\ (forall rel, rel <> [] ->
        t1 !! (locate work_dir ++ rel) = t !! (locate cache_dir ++ rel))
  /\ (forall l, ~ locate work_dir `prefix_of` l ->
                ~ l `prefix_of` locate work_dir -> t1 !! l = t !! l)
  /\ (forall l, locate cache_dir `prefix_of` l -> t1 !! l = t !! l).
Proof.
  intros Hcopy Hplain Hnest Hfree.
  destruct (copy_cache_created _ _ _ _ Hcopy) as [Hne Hdir].
  apply copy_cache_success in Hcopy.
  assert (Hframe : forall l, ~ locate work_dir `prefix_of` l ->
                             ~ l `prefix_of` locate work_dir -> t1 !! l = t !! l).
  { intros l H1 H2.
    pose proof (copytree_frame cache_dir work_dir t l Hplain H2 H1) as Hf.
    by rewrite Hcopy in Hf. }
  destruct (copytree_success _ _ _ _ Hcopy) as (t' & Hsrc & Hmake & ->).
  split; [exact Hdir|]. split; [|split; [exact Hframe|]].
  - intros rel Hrel. rewrite (graft_lookup _ _ _ _ _ Hrel).
    pose proof (makedirs_frame work_dir t (locate work_dir ++ rel) Hplain)
      as Hmk.
    rewrite Hmake in Hmk. simpl in Hmk. rewrite Hmk.
    + rewrite (Hfree (locate work_dir ++ rel)) by (by apply prefix_app_r).
      by destruct (t !! (locate cache_dir ++ rel)).
    + intros Hpre%prefix_length. rewrite length_app in Hpre.
      destruct rel; [done|simpl in Hpre; lia].
  - intros l Hl. apply Hframe.
    + intros Hwl. destruct (prefix_weak_total _ _ _ Hl Hwl) as [Hcw|Hwc];
        [done|].
      pose proof (Hfree _ Hwc) as Hnone.
      destruct (locate cache_dir) eqn:Hc; [|simpl in Hsrc; congruence].
      apply Hnest. by exists (locate work_dir).
    + intros Hlw. apply Hnest. by etrans.
Qed.

Lemma process_task_copy_failure (cache_dir work_dir output_path : Path)
    (rules : list ReplacementRule) (t t1 : tree) (e0 : exn) :
  copytree cache_dir work_dir t = (Raises e0, t1) ->
  process_task cache_dir work_dir output_path rules t
  = (Raises (RuntimeError (lit "复制缓存到工作目录失败: " ++ exn_str e0)),
     (rmtree_ignore_errors work_dir t1).2).
Proof.
  intros Hcopy. rewrite process_task_stages.
  unfold copy_cache_to_workdir, try_except, raise. by rewrite Hcopy.
Qed.

Lemma run_task_failed (storage : StorageService.t) (task_id apk_id : str)
    (rules : list ReplacementRule) (st : State) (task0 : Task) (e : exn)
    (d : tree) :
  tasks st !! task_id = Some task0 ->
  process_task (StorageService.get_cache_dir storage apk_id)
    (StorageService.get_work_dir storage task_id)
    (StorageService.get_output_path storage task_id) rules (disk st)
  = (Raises e, d) ->
  _run_task storage task_id apk_id rules st
  = (Returns tt,
     mkState (<[task_id := failed e (set_status PROCESSING task0)]> (tasks st))
       d).
Proof.
  intros Htask Hrun. by rewrite (run_task_outcome _ _ _ _ _ _ Htask), Hrun.
Qed.

(** X11. A task whose cache directory is missing, or is not a directory:
    [process_task] raises a [RuntimeError] whose text is the copy-failure
    prefix followed by the text of the I/O error, without applying a rule
    or running the tool; the tree is as it was, except that a directory
    found at the workspace path has been removed by the cleanup. The
    runner marks the task FAILED with that text and no rule result. *)
Theorem missing_cache_fails_the_task (cache_dir work_dir output_path : Path)
    (rules : list ReplacementRule) (t : tree) :
  (forall s, resolve t cache_dir = inr s -> entry_at t s <> Some Dir) ->
  exists e0,
    (e0 = FileNotFoundError (path_str cache_dir)
     \/ e0 = NotADirectoryError (path_str cache_dir))
    /\ process_task cache_dir work_dir output_path rules t
       = (Raises (RuntimeError
                    (lit "复制缓存到工作目录失败: " ++ exc_text e0)),
          (rmtree_ignore_errors work_dir t).2)
    /\ (forall storage task_id apk_id st task0,
          cache_dir = StorageService.get_cache_dir storage apk_id ->
          work_dir = StorageService.get_work_dir storage task_id ->
          output_path = StorageService.get_output_path storage task_id ->
          disk st = t ->
          tasks st !! task_id = Some task0 ->
          exists task,
            _run_task storage task_id apk_id rules st
            = (Returns tt,
               mkState (<[task_id := task]> (tasks st))
                 (rmtree_ignore_errors work_dir t).2)
            /\ status task = FAILED
            /\ error task
               = Some (lit "复制缓存到工作目录失败: " ++ exc_text e0)
            /\ rule_results task = rule_results task0).
Proof.
  intros Hnodir.
  assert (Hcopy : exists e0,
            (e0 = FileNotFoundError (path_str cache_dir)
             \/ e0 = NotADirectoryError (path_str cache_dir))
            /\ copytree cache_dir work_dir t = (Raises (Lib e0), t)).
  { unfold copytree. destruct (resolve t cache_dir) as [[|]|s] eqn:Hres.
    - eexists. split; [by left|done].
    - eexists. split; [by right|done].
    - specialize (Hnodir s eq_refl).
      destruct (entry_at t s) as [[data|]|]; [| done |].
      + eexists. split; [by right|done].
      + eexists. split; [by left|done]. }
  destruct Hcopy as (e0 & He0 & Hcopy). exists e0. split; [exact He0|].
  pose proof (process_task_copy_failure _ _ output_path rules _ _ _ Hcopy)
    as Hrun.
  split; [exact Hrun|].
  intros storage task_id apk_id st task0 -> -> -> Hdisk Htask.
  rewrite <- Hdisk in Hrun.
  rewrite (run_task_failed _ _ _ _ _ _ _ _ Htask Hrun), Hdisk.
  eexists. split; [reflexivity|]. done.
Qed.

Lemma walk_app_last (t : tree) (ps : list str) (c : str) :
  forall cur l,
    walk t cur (ps ++ [c]) = inr l ->
    exists up, walk t cur ps = inr up /\ entry_at t up = Some Dir.
Proof.
  induction ps as [|x rest IH]; intros cur l; simpl.
  - destruct (entry_at t cur) as [[|]|] eqn:Hent; try done. eauto.
  - destruct (entry_at t cur) as [[|]|]; try done.
    destruct (bool_decide (x = DOTDOT)); apply IH.
Qed.

(** [os.makedirs] on a path that leads to something raises
    [FileExistsError] and changes nothing. *)
Lemma makedirs_exists (p : Path) (t : tree) :
  present t p = true ->
  makedirs p t = (Raises (Lib (FileExistsError (path_str p))), t).
Proof.
  intros Hp. unfold makedirs.
  assert (Hlast : os_mkdir (mkPath (anchored p) (parts p)) t
                  = (Raises (Lib (FileExistsError (path_str p))), t)).
  { unfold os_mkdir. unfold present in Hp.
    change (resolve t {| anchored := anchored p; parts := parts p |})
      with (resolve t p).
    destruct (resolve t p) as [e|l]; [done|].
    destruct (entry_at t l); [done|].
    by apply bool_decide_eq_true in Hp as [x Hx]. }
  remember (rev (parts p)) as rp eqn:Hrp.
  assert (Hself : rev rp = parts p) by (subst rp; apply rev_involutive).
  clear Hrp. destruct rp as [|c up]; cbn [makedirs_rev]; rewrite Hself;
    [exact Hlast|].
  assert (Hhead : present t (mkPath (anchored p) (rev up)) = true).
  { unfold present in Hp |- *. unfold resolve in *. cbn [anchored parts].
    simpl in Hself. rewrite <- Hself in Hp.
    destruct (walk t _ (rev up ++ [c])) as [e|l] eqn:Hwalk; [done|].
    destruct (walk_app_last _ _ _ _ _ Hwalk) as (cur & -> & ->).
    by apply bool_decide_eq_true; eexists. }
  unfold bind at 1.
  destruct (anchored p || negb (bool_decide (up = [])));
    unfold exists_, ret; rewrite ?Hhead; unfold bind; by rewrite Hlast.
Qed.

(** X12. A task whose workspace path is already taken, while its cache
    directory is there: the copy refuses to merge, [process_task] raises
    a [RuntimeError] carrying the text of the "file exists" error without
    applying a rule or running the tool, and its cleanup removes the
    directory that was found at the workspace path, with all it held. *)
Theorem existing_workspace_fails_and_is_removed
    (cache_dir work_dir output_path : Path) (rules : list ReplacementRule)
    (t : tree) :
  entry_at t (locate cache_dir) = Some Dir ->
  resolve t cache_dir = inr (locate cache_dir) ->
  locate work_dir <> [] ->
  t !! locate work_dir = Some Dir ->
  resolve t work_dir = inr (locate work_dir) ->
  exists t',
    process_task cache_dir work_dir output_path rules t
    = (Raises (RuntimeError
                 (lit "复制缓存到工作目录失败: "
                  ++ exc_text (FileExistsError (path_str work_dir)))), t')
    /\ present t' work_dir = false
    /\ (forall l, locate work_dir `prefix_of` l -> t' !! l = None)
    /\ (forall l, ~ locate work_dir `prefix_of` l -> t' !! l = t !! l).
Proof.
  intros Hcache Hres Hne Hwork Hwres.
  assert (Hpresent : present t work_dir = true).
  { eapply present_entry; [exact Hwres|]. by destruct (locate work_dir). }
  assert (Hcopy : copytree cache_dir work_dir t
                  = (Raises (Lib (FileExistsError (path_str work_dir))), t)).
  { unfold copytree. rewrite Hres, Hcache.
    by rewrite (makedirs_exists _ _ Hpresent). }
  rewrite (process_task_copy_failure _ _ output_path rules _ _ _ Hcopy).
  eexists. split; [reflexivity|]. split; [|split].
  - apply rmtree_gone; [exact Hne|]. intros data. by rewrite Hwork.
  - intros l Hl. unfold rmtree_ignore_errors. rewrite Hwres.
    replace (entry_at t (locate work_dir)) with (Some Dir)
      by (by destruct (locate work_dir)).
    simpl. apply map_lookup_filter_None. right. intros x _ Hx. by apply Hx.
  - intros l Hl. by apply rmtree_frame.
Qed.

End Copy.

(** ** One task among others *)

Section Isolation.
Context `{Runtime} `{Apktool}.
Import RuleEngine Spec Cover.

(** What [process_task] leaves alone, whatever its outcome: a location
    that is neither in the workspace, nor above it, nor the output path
    or above it, and that the tool does not touch. *)
Lemma process_task_frame (cache_dir work_dir output_path : Path)
    (rules : list ReplacementRule) (t : tree) (l : loc) :
  Forall (fun rule => is_model rule -> safe_target (target_of rule)) rules ->
  DOTDOT ∉ parts work_dir ->
  DOTDOT ∉ parts output_path ->
  ~ locate work_dir `prefix_of` l ->
  ~ l `prefix_of` locate work_dir ->
  ~ l `prefix_of` locate output_path ->
  (forall u, (apktool_b (joinpath work_dir (lit "decompiled")) output_path u).2
             !! l = u !! l) ->
  (process_task cache_dir work_dir output_path rules t).2 !! l = t !! l.
Proof.
  intros Hsafe Hpw Hpo Hnw Hnu Hno Htool.
  set (d := joinpath work_dir (lit "decompiled")) in *.
  assert (Hcopy : (copy_cache_to_workdir cache_dir work_dir t).2 !! l = t !! l).
  { rewrite copy_cache_tree. by apply copytree_frame. }
  assert (Hrules : forall u, (apply_rules d 0 rules [] u).2 !! l = u !! l).
  { intros u. apply (apply_rules_inv (fun u' => u' !! l = u !! l)); [|done].
    eapply Forall_impl; [exact Hsafe|]. simpl.
    intros rule Hrule Hmodel data u' <-. apply write_bytes_frame.
    intros ->. apply Hnw. etrans; [apply locate_decompiled|].
    apply locate_joinpath_safe. auto. }
  assert (Hrec : forall u, (recompile d output_path u).2 !! l = u !! l).
  { intros u. by apply recompile_frame. }
  rewrite process_task_stages. fold d.
  destruct (copy_cache_to_workdir cache_dir work_dir t) as [[[]|e] t1];
    simpl in Hcopy |- *.
  - pose proof (Hrules t1) as Hr.
    destruct (apply_rules d 0 rules [] t1) as [[rs|e] t2]; simpl in Hr |- *;
      [|congruence].
    pose proof (Hrec t2) as Hc.
    destruct (recompile d output_path t2) as [[[]|e] t3]; simpl in Hc |- *;
      [congruence|].
    rewrite rmtree_frame by done. congruence.
  - rewrite rmtree_frame by done. congruence.
Qed.

(** Where the storage service puts a name inside one of its directories. *)
Lemma storage_locate (base : Path) (dir name : str) :
  DOTDOT ∉ parts base ->
  plain_name dir ->
  plain_name name ->
  (DOTDOT ∉ parts (joinpath (joinpath base dir) name))
  /\ locate (joinpath (joinpath base dir) name)
     = ((if anchored base then [] else getcwd) ++ parts base) ++ [dir; name].
Proof.
  intros Hbase Hdir Hname.
  rewrite (joinpath_plain_name _ _ Hdir), (joinpath_plain_name _ _ Hname).
  cbn [anchored parts].
  assert (Hplain : DOTDOT ∉ (parts base ++ [dir]) ++ [name]).
  { destruct Hdir as (_ & _ & _ & Hx), Hname as (_ & _ & _ & Hy).
    rewrite !elem_of_app, !list_elem_of_singleton.
    intros [[Hb|Heq]|Heq]; [by apply Hbase|congruence|congruence]. }
  split; [exact Hplain|].
  unfold locate. cbn [anchored parts]. rewrite (lexical_plain _ Hplain).
  by rewrite <- !app_assoc.
Qed.

Lemma two_names_apart (pre : loc) (x y x' y' : str) :
  x <> x' \/ y <> y' -> ~ (pre ++ [x; y]) `prefix_of` (pre ++ [x'; y']).
Proof.
  intros Hne Hpre. apply prefix_app_inv in Hpre.
  pose proof (prefix_cons_inv_1 _ _ _ _ Hpre) as Hx.
  apply prefix_cons_inv_2 in Hpre. apply prefix_cons_inv_1 in Hpre.
  destruct Hne; congruence.
Qed.

Lemma below_two_names (pre l : loc) (x y x' y' : str) :
  x <> x' \/ y <> y' ->
  (pre ++ [x; y]) `prefix_of` l ->
  (~ (pre ++ [x'; y']) `prefix_of` l) /\ ~ l `prefix_of` (pre ++ [x'; y']).
Proof.
  intros Hne Hl. split.
  - intros Hl'. destruct (prefix_weak_total _ _ _ Hl Hl') as [H1|H1];
      revert H1; apply two_names_apart; [done|].
    destruct Hne; [left|right]; congruence.
  - intros Hl'. by apply (two_names_apart pre x y x' y' Hne); etrans.
Qed.

(** X13. Tasks do not interfere. Running the task [task_id], whatever
    its outcome, changes neither the record of another task [other],
    nor anything in the workspace of [other], nor the output file of
    [other]. The rules are a batch the validator accepts, the storage
    base directory is written without [..], the two task identifiers
    are distinct single names, and the tool leaves the workspace and the
    output file of [other] alone. *)
Theorem tasks_do_not_interfere (storage : StorageService.t)
    (task_id other apk_id : str) (rules : list ReplacementRule)
    (vr : ValidationResult.t) (st : State) :
  validate_rules rules = Returns vr ->
  ValidationResult.valid vr = true ->
  DOTDOT ∉ parts (StorageService.base_dir storage) ->
  plain_name task_id ->
  plain_name other ->
  other <> task_id ->
  tool_spares (locate (StorageService.get_work_dir storage other))
    (joinpath (StorageService.get_work_dir storage task_id) (lit "decompiled"))
    (StorageService.get_output_path storage task_id) ->
  tool_spares (locate (StorageService.get_output_path storage other))
    (joinpath (StorageService.get_work_dir storage task_id) (lit "decompiled"))
    (StorageService.get_output_path storage task_id) ->
  let st' := (_run_task storage task_id apk_id rules st).2 in
  tasks st' !! other = tasks st !! other
  /\ (forall l,
        locate (StorageService.get_work_dir storage other) `prefix_of` l ->
        disk st' !! l = disk st !! l)
  /\ disk st' !! locate (StorageService.get_output_path storage other)
     = disk st !! locate (StorageService.get_output_path storage other).
Proof.
  intros Hvr Hvalid Hbase Hid Hother Hne Htool_w Htool_o st'.
  pose proof (validated_rules_safe _ _ Hvr Hvalid) as Hsafe.
  assert (Hw : plain_name (lit "workspace")) by (repeat split; by_computation).
  assert (Ho : plain_name (lit "output")) by (repeat split; by_computation).
  assert (Hwo : lit "workspace" <> lit "output") by by_computation.
  destruct (storage_locate _ _ _ Hbase Hw Hid) as [Hpw Ew].
  destruct (storage_locate _ _ _ Hbase Hw Hother) as [_ Ew'].
  destruct (storage_locate _ _ _ Hbase Ho (plain_name_apk _ (proj1 Hid)))
    as [Hpo Eo].
  destruct (storage_locate _ _ _ Hbase Ho (plain_name_apk _ (proj1 Hother)))
    as [_ Eo'].
  assert (Hapk : other ++ lit ".apk" <> task_id ++ lit ".apk").
  { intros Heq. by apply app_inv_tail in Heq. }
  fold (StorageService.workspace_dir storage) in Hpw, Ew, Ew'.
  fold (StorageService.output_dir storage) in Hpo, Eo, Eo'.
  fold (StorageService.get_work_dir storage task_id) in Hpw, Ew.
  fold (StorageService.get_work_dir storage other) in Ew'.
  fold (StorageService.get_output_path storage task_id) in Hpo, Eo.
  fold (StorageService.get_output_path storage other) in Eo'.
  set (run := process_task (StorageService.get_cache_dir storage apk_id)
                (StorageService.get_work_dir storage task_id)
                (StorageService.get_output_path storage task_id)
                rules (disk st)).
  assert (Hst' : (tasks st' !! other = tasks st !! other)
                 /\ disk st' = run.2 \/ st' = st).
  { unfold st', _run_task. fold run. destruct (tasks st !! task_id); [|by right].
    left. destruct run as [[results|e] d]; simpl;
      by rewrite lookup_insert_ne. }
  destruct Hst' as [[Htasks Hdisk]|Hsame]; [|by rewrite Hsame].
  split; [exact Htasks|]. rewrite Hdisk. unfold run. split.
  - intros l Hl. rewrite Ew' in Hl.
    destruct (below_two_names _ _ _ _ (lit "workspace") task_id
                (or_intror Hne) Hl) as [Hdown Hup].
    destruct (below_two_names _ _ _ _ (lit "output") (task_id ++ lit ".apk")
                (or_introl Hwo) Hl) as [_ Hup'].
    apply process_task_frame; rewrite ?Ew, ?Eo; try done.
    intros u. apply Htool_w. by rewrite Ew'.
  - assert (Hl : locate (StorageService.get_output_path storage other)
                 `prefix_of`
                 locate (StorageService.get_output_path storage other))
      by done.
    rewrite Eo' in Hl at 1.
    destruct (below_two_names _ _ _ _ (lit "workspace") task_id
                (or_introl (not_eq_sym Hwo)) Hl) as [Hdown Hup].
    destruct (below_two_names _ _ _ _ (lit "output") (task_id ++ lit ".apk")
                (or_intror Hapk) Hl) as [_ Hup'].
    apply process_task_frame; rewrite ?Ew, ?Eo; try done.
    intros u. by apply Htool_o.
Qed.

End Isolation.

(** ** The output directory of the recompile *)

Section OutputDirectory.
Context `{Runtime} `{Apktool}.
Import RuleEngine Spec Cover.

(** A new entry at a place that had none does not change where a path
    that resolved leads. *)
Lemma walk_insert_new (t : tree) (l : loc) (e : entry) (ps : list str) :
  entry_at t l = None ->
  forall cur l', walk t cur ps = inr l' -> walk (<[l := e]> t) cur ps = inr l'.
Proof.
  intros Hl. induction ps as [|c rest IH]; intros cur l'; [done|].
  cbn [walk].
  destruct (entry_at t cur) as [[data|]|] eqn:Hcur; try done.
  assert (Hent : entry_at (<[l := e]> t) cur = Some Dir).
  { destruct cur as [|x cur]; [done|]. simpl in *.
    rewrite lookup_insert_ne; [done|]. intros ->. simpl in Hl. congruence. }
  rewrite Hent. destruct (bool_decide _); apply IH.
Qed.

Lemma os_mkdir_is_dir (p : Path) (t t' : tree) :
  os_mkdir p t = (Returns tt, t') -> (is_dir p t').1 = Returns true.
Proof.
  unfold os_mkdir, is_dir.
  destruct (resolve t p) as [e|l] eqn:Hres; [done|].
  destruct (entry_at t l) eqn:Hent; [done|]. intros [= <-]. simpl.
  unfold resolve in *. rewrite (walk_insert_new _ _ _ _ Hent _ _ Hres).
  rewrite entry_at_insert; [by rewrite bool_decide_eq_true_2|].
  intros ->. done.
Qed.

Lemma is_dir_guard (p : Path) (e : exn) (t t' : tree) :
  (d <- is_dir p ;; if d : bool then ret tt else raise e)%py t
  = (Returns tt, t') ->
  (is_dir p t').1 = Returns true.
Proof.
  unfold bind. destruct (is_dir p t) as [[[|]|e'] t1] eqn:Hdir; try done.
  unfold ret. intros [= <-]. unfold is_dir in Hdir |- *.
  injection Hdir as Hd <-. simpl. by rewrite Hd.
Qed.

Lemma mkdir_exist_ok_is_dir (p : Path) (t t' : tree) :
  mkdir_exist_ok p t = (Returns tt, t') -> (is_dir p t').1 = Returns true.
Proof.
  unfold mkdir_exist_ok, try_except.
  destruct (os_mkdir p t) as [[[]|e] t1] eqn:Hmk.
  - intros [= <-]. by apply os_mkdir_is_dir in Hmk.
  - destruct (is_not_found e); [done|]. apply is_dir_guard.
Qed.

Lemma mkdir_parents_rev_is_dir (anch : bool) (rparts : list str) (t t' : tree) :
  mkdir_parents_rev anch rparts t = (Returns tt, t') ->
  (is_dir (mkPath anch (rev rparts)) t').1 = Returns true.
Proof.
  destruct rparts as [|c up]; cbn [mkdir_parents_rev]; unfold try_except.
  - destruct (os_mkdir _ t) as [[[]|e] t1] eqn:Hmk.
    + intros [= <-]. by apply os_mkdir_is_dir in Hmk.
    + destruct (is_not_found e); [done|]. apply is_dir_guard.
  - destruct (os_mkdir _ t) as [[[]|e] t1] eqn:Hmk.
    + intros [= <-]. by apply os_mkdir_is_dir in Hmk.
    + destruct (is_not_found e); [|apply is_dir_guard].
      unfold bind at 1.
      destruct (mkdir_parents_rev anch up t1) as [[[]|e2] t2]; [|done].
      apply mkdir_exist_ok_is_dir.
Qed.

(** [p.mkdir(parents=True, exist_ok=True)] that returns leaves a
    directory at [p]. *)
Lemma mkdir_parents_is_dir (p : Path) (t t' : tree) :
  mkdir_parents p t = (Returns tt, t') -> (is_dir p t').1 = Returns true.
Proof.
  unfold mkdir_parents. intros Hmk%mkdir_parents_rev_is_dir.
  rewrite rev_involutive in Hmk. by destruct p.
Qed.

(** X14. A recompile that returns has run the tool, which exited with
    status 0, and the tool was started on a tree in which the parent of
    the output path is a directory and in which every entry of the tree
    before the call is still there: the directory is made ready first,
    and making it ready removes and overwrites nothing. *)
Theorem recompile_prepares_the_output_directory
    (source_dir output_apk : Path) (t t' : tree) :
  recompile source_dir output_apk t = (Returns tt, t') ->
  exists tm stderr,
    apktool_b source_dir output_apk tm = (Returns (0, stderr), t')
    /\ (is_dir (parent output_apk) tm).1 = Returns true
    /\ (forall l e, t !! l = Some e -> tm !! l = Some e).
Proof.
  rewrite recompile_stages.
  destruct (mkdir_parents (parent output_apk) t) as [[[]|e] tm] eqn:Hmk;
    [|done].
  destruct (apktool_b source_dir output_apk tm) as [[[rc err]|e] t1] eqn:Htool;
    [|done].
  destruct (rc =? 0) eqn:Hrc; cbn [negb]; [|done].
  apply Z.eqb_eq in Hrc as ->. intros [= <-].
  exists tm, err. split; [done|]. split.
  - by apply mkdir_parents_is_dir in Hmk.
  - intros l e He. pose proof (mkdir_parents_keeps (parent output_apk) t l e He)
      as Hkeep. by rewrite Hmk in Hkeep.
Qed.

End OutputDirectory.

(** ** Reading a file of the cache *)

Section CacheReader.
Context `{Runtime}.
Import RuleEngine Spec Cover.

Lemma startswith_app (p s : str) : startswith p (p ++ s) = true.
Proof.
  induction p as [|c p IH]; [done|]. simpl. by rewrite Z.eqb_refl.
Qed.

Lemma join_parts_app (l rel : list str) :
  exists rest, join_parts (l ++ rel) = join_parts l ++ rest.
Proof.
  induction l as [|w ws IH].
  - by exists (join_parts rel).
  - destruct IH as [rest IH]. destruct ws as [|w' ws].
    + destruct rel as [|r rel]; [exists []; simpl; by rewrite app_nil_r|].
      by exists (SLASH :: join_parts (r :: rel)).
    + exists rest. change ((w :: w' :: ws) ++ rel)
        with (w :: ((w' :: ws) ++ rel)).
      change (join_parts (w :: (w' :: ws) ++ rel))
        with (w ++ SLASH :: join_parts ((w' :: ws) ++ rel)).
      rewrite IH. change (join_parts (w :: w' :: ws))
        with (w ++ SLASH :: join_parts (w' :: ws)).
      by rewrite <- app_assoc.
Qed.

(** The text of a location starts with the text of every location above
    it. *)
Lemma path_str_below (l l' : loc) :
  l `prefix_of` l' ->
  startswith (path_str (mkPath true l)) (path_str (mkPath true l')) = true.
Proof.
  intros [rel ->]. unfold path_str. cbn [anchored parts].
  destruct (join_parts_app l rel) as [rest ->].
  apply (startswith_app (SLASH :: join_parts l)).
Qed.

Lemma lexical_no_dotdot (ps : list str) :
  forall cur, DOTDOT ∉ cur -> DOTDOT ∉ lexical cur ps.
Proof.
  induction ps as [|c rest IH]; intros cur Hcur; [done|]. simpl.
  apply IH. destruct (bool_decide (c = DOTDOT)) eqn:Hc.
  - intros Hin. apply Hcur. destruct cur as [|x cur]; [done|].
    rewrite (app_removelast_last x (l := x :: cur)) by done.
    apply elem_of_app. by left.
  - apply bool_decide_eq_false in Hc.
    rewrite elem_of_app, list_elem_of_singleton. intros [?|?]; auto.
Qed.

(** A resolved path leads where the path leads, when the working
    directory is a location, with no [..] in it. *)
Lemma locate_Path_resolve (p : Path) :
  DOTDOT ∉ getcwd -> locate (Path_resolve p) = locate p.
Proof.
  intros Hcwd. unfold Path_resolve, locate at 1. cbn [anchored parts].
  apply lexical_plain. apply lexical_no_dotdot.
  destruct (anchored p); [apply not_elem_of_nil|exact Hcwd].
Qed.

Lemma read_file_stages (cache_dir : Path) (internal_path : str) (t : tree) :
  safe_target internal_path ->
  let target := joinpath (joinpath cache_dir (lit "decompiled")) internal_path in
  read_file_from_cache cache_dir internal_path t
  = if (is_file (Path_resolve target) t).1 is Returns true
    then match (read_text (Path_resolve target) t).1 with
         | Returns content => inr content
         | Raises e => inl (Uncaught e)
         end
    else inl (FileNotFound (lit "文件不存在: " ++ internal_path)).
Proof.
  intros Hsafe target. unfold read_file_from_cache.
  pose proof Hsafe as [Hdd Habs]. rewrite Hdd, Habs. fold target.
  unfold Path_resolve.
  rewrite path_str_below by by apply locate_joinpath_safe.
  cbn [negb]. unfold is_file. simpl.
  destruct (resolve t _) as [e|l]; [done|].
  destruct (entry_at t l) as [[data|]|]; try done.
  by destruct (read_text _ t) as [[content|e] t1].
Qed.

Lemma safe_target_dec (s : str) :
  contains (lit "..") s = false -> startswith (lit "/") s = false ->
  safe_target s.
Proof. by split. Qed.

(** X15. What [read_file_from_cache] returns is the text of a regular
    file at or below the [decompiled] directory of the cache: the
    requested path has no [..] and no leading [/], the file is at the
    location the path leads to from that directory, its bytes are valid
    UTF-8, and the text is their decoding with line ends made [\n]. *)
Theorem read_file_is_confined (cache_dir : Path) (internal_path : str)
    (t : tree) (content : str) :
  DOTDOT ∉ getcwd ->
  read_file_from_cache cache_dir internal_path t = inr content ->
  let decompiled_dir := joinpath cache_dir (lit "decompiled") in
  let target := joinpath decompiled_dir internal_path in
  safe_target internal_path
  /\ (locate decompiled_dir `prefix_of` locate target)
  /\ exists data s,
       entry_at t (locate target) = Some (File data)
       /\ utf8_decode data = Some s
       /\ content = universal_newlines s.
Proof.
  intros Hcwd Hread decompiled_dir target.
  assert (Hsafe : safe_target internal_path).
  { unfold read_file_from_cache in Hread.
    destruct (contains _ _) eqn:Hdd; [done|].
    destruct (startswith (lit "/") _) eqn:Habs; [done|]. by split. }
  split; [exact Hsafe|]. split; [by apply locate_joinpath_safe|].
  rewrite (read_file_stages _ _ _ Hsafe) in Hread. fold decompiled_dir target in Hread.
  unfold is_file, read_text, bind, read_bytes in Hread. simpl in Hread.
  destruct (resolve t (Path_resolve target)) as [e|l] eqn:Hres; [done|].
  apply resolve_locate in Hres as Hl.
  rewrite (locate_Path_resolve _ Hcwd) in Hl. subst l.
  destruct (entry_at t (locate target)) as [[data|]|] eqn:Hent; try done.
  destruct (utf8_decode data) as [s|] eqn:Hdec; [|done].
  exists data, s. split; [done|]. split; [done|].
  unfold ret in Hread. simpl in Hread. congruence.
Qed.


End CacheReader.

(** ** Requests for a task *)

Section TaskRequests.
Context `{Runtime} `{Apktool}.
Import RuleEngine Spec Cover Api.

Lemma cache_status_eqb_ready (c : CacheStatus.t) :
  CacheStatus.eqb c CacheStatus.READY = true <-> c = CacheStatus.READY.
Proof. by destruct c. Qed.

(** X17. [create_task] registers a task exactly for a batch the
    validator accepts on a package that is known and whose cache is
    ready. Then the answer carries the new identifier, the record is
    PENDING with the package and no result, nothing else of the state
    changes and the run of that batch is scheduled. In every other case
    the state is what it was and no run is scheduled. *)
Theorem create_task_registers_validated_batches (apk_id : str)
    (rules : list ReplacementRule) (uuid4_hex : str) (app : App) :
  let res := create_task apk_id rules uuid4_hex app in
  let pending := mkTask apk_id PENDING utcnow None None [] None in
  (cache_ready app apk_id /\ Forall acceptable rules ->
   res = (Returns (task_created uuid4_hex,
                   Some (mkJob uuid4_hex apk_id rules)),
          mkApp (apk_metadata app)
            (mkState (<[uuid4_hex := pending]> (tasks (state app)))
               (disk (state app)))))
  /\ (~ (cache_ready app apk_id /\ Forall acceptable rules) ->
      res.2 = app
      /\ forall r job, res.1 = Returns (r, job) ->
           job = None
           /\ exists code message details,
                (r = error_response 404 code message details
                 /\ apk_metadata app !! apk_id = None)
                \/ (r = error_response 409 code message details
                    /\ ~ cache_ready app apk_id)
                \/ (r = error_response 400 code message details
                    /\ exists errors, details = Some errors /\ errors <> [])).
Proof.
  intros res pending. subst res. unfold create_task. split.
  - intros [(meta & -> & Hready) Hall].
    rewrite (proj2 (cache_status_eqb_ready _) Hready). cbn [negb].
    by rewrite (acceptable_validates _ Hall).
  - intros Hnot.
    destruct (apk_metadata app !! apk_id) as [meta|] eqn:Hmeta.
    2:{ split; [done|]. intros r job [= <- <-]. split; [done|].
        eexists _, _, _. left. done. }
    destruct (CacheStatus.eqb (cache_status meta) CacheStatus.READY) eqn:Hst;
      cbn [negb].
    2:{ split; [done|]. intros r job [= <- <-]. split; [done|].
        eexists _, _, _. right. left. split; [done|].
        intros (meta' & Hm & Hr). rewrite Hmeta in Hm. injection Hm as <-.
        apply cache_status_eqb_ready in Hr. congruence. }
    apply cache_status_eqb_ready in Hst.
    destruct (validate_rules rules) as [vr|e] eqn:Hvr; [|done].
    destruct (ValidationResult.valid vr) eqn:Hvalid; cbn [negb].
    { destruct Hnot. split; [by exists meta|].
      by apply (validated_acceptable _ _ Hvr). }
    split; [done|]. intros r job [= <- <-]. split; [done|].
    eexists _, _, _. right. right. split; [done|].
    eexists. split; [done|]. intros Hnil.
    apply (validate_valid_iff_no_error _ _ Hvr) in Hnil. congruence.
Qed.

Lemma process_task_results_length (cache_dir work_dir output_path : Path)
    (rules : list ReplacementRule) (t d : tree) (results : list RuleResult.t) :
  process_task cache_dir work_dir output_path rules t = (Returns results, d) ->
  length results = length rules.
Proof.
  rewrite process_task_stages.
  destruct (copy_cache_to_workdir cache_dir work_dir t) as [[[]|e] t1]; [|done].
  destruct (apply_rules_spec (joinpath work_dir (lit "decompiled")) rules 0 []
              t1) as (rs & t2 & -> & Happ).
  destruct (recompile _ output_path t2) as [[[]|e] t3]; [|done].
  intros [= <- <-]. by eapply applied_length.
Qed.

(** X18. From the request to the end of the run. When [create_task]
    has answered with a new task, the call it scheduled finds the record:
    it returns (no [KeyError]) and leaves the record of the task COMPLETED
    or FAILED, still with the package and the creation time of the
    request and with a completion time. A COMPLETED record has one result
    per rule of the request, a download URL that ends in the identifier
    and no error; a FAILED one has an error text, no result and no URL.
    The records of the other tasks and the package metadata are as they
    were before the request. *)
Theorem created_task_runs_to_the_end (storage : StorageService.t)
    (apk_id : str) (rules : list ReplacementRule) (uuid4_hex : str)
    (app app1 : App) (r : response) (job : Job) :
  create_task apk_id rules uuid4_hex app = (Returns (r, Some job), app1) ->
  exists task d,
    r = task_created uuid4_hex
    /\ run_job storage job app1
       = (Returns tt,
          mkApp (apk_metadata app)
            (mkState (<[uuid4_hex := task]> (tasks (state app))) d))
    /\ TaskRouter.apk_id task = apk_id
    /\ created_at task = utcnow
    /\ completed_at task = Some utcnow
    /\ ((status task = COMPLETED
         /\ length (rule_results task) = length rules
         /\ download_url task = Some (lit "/api/v1/download/" ++ uuid4_hex)
         /\ error task = None)
        \/ (status task = FAILED
            /\ (exists text, error task = Some text)
            /\ rule_results task = []
            /\ download_url task = None)).
Proof.
  unfold create_task.
  destruct (apk_metadata app !! apk_id) as [meta|]; [|done].
  destruct (negb _); [done|].
  destruct (validate_rules rules) as [vr|e]; [|done].
  destruct (negb _); [done|].
  intros [= <- <- <-]. unfold run_job. cbn [job_task_id job_apk_id job_rules
                                              state apk_metadata].
  set (pending := mkTask apk_id PENDING utcnow None None [] None).
  set (st1 := mkState _ _).
  assert (Htask : tasks st1 !! uuid4_hex = Some pending)
    by apply lookup_insert_eq.
  rewrite (run_task_outcome _ _ _ _ _ _ Htask). cbn [fst snd].
  destruct (process_task _ _ _ rules (disk st1)) as [[results|e] d] eqn:Hrun;
    cbn [fst snd]; eexists _, d; (split; [reflexivity|]);
    (split; [unfold st1; cbn [tasks]; by rewrite insert_insert_eq|]);
    cbn; repeat (split; [reflexivity|]).
  - left. repeat split. by apply process_task_results_length in Hrun.
  - right. repeat split. by eexists.
Qed.

(** X19. From the run to the download. For a registered task whose run
    ends COMPLETED, with a tool that leaves its output when it reports
    success, [download_task] answers with the file at the output path of
    the task, under the file name the package was uploaded with, or
    [<task_id>.apk] when the package has no metadata. Before the run, and
    after a run that ends FAILED, it answers 404. *)
Theorem completed_task_is_downloadable (storage : StorageService.t)
    (task_id apk_id : str) (rules : list ReplacementRule) (app : App)
    (task0 : Task) :
  tasks (state app) !! task_id = Some task0 ->
  TaskRouter.apk_id task0 = apk_id ->
  status task0 = PENDING ->
  tool_delivers
    (joinpath (StorageService.get_work_dir storage task_id) (lit "decompiled"))
    (StorageService.get_output_path storage task_id) ->
  let app' := (run_job storage (mkJob task_id apk_id rules) app).2 in
  (exists code message,
     download_task storage task_id app
     = error_response 404 code message None)
  /\ exists task,
       tasks (state app') !! task_id = Some task
       /\ (status task = COMPLETED ->
           download_task storage task_id app'
           = file_response
               (path_str (StorageService.get_output_path storage task_id))
               (match apk_metadata app !! apk_id with
                | Some meta => filename meta
                | None => task_id ++ lit ".apk"
                end))
       /\ (status task <> COMPLETED ->
           exists code message,
             download_task storage task_id app'
             = error_response 404 code message None).
Proof.
  intros Htask Hapk Hpending Htool app'.
  split.
  { unfold download_task. rewrite Htask, Hpending. cbn. by eexists _, _. }
  subst app'. unfold run_job. cbn [job_task_id job_apk_id job_rules snd].
  rewrite (run_task_outcome _ _ _ _ _ _ Htask). cbn [fst snd state].
  set (work_dir := StorageService.get_work_dir storage task_id) in *.
  set (output_path := StorageService.get_output_path storage task_id) in *.
  destruct (process_task _ work_dir output_path rules (disk (state app)))
    as [[results|e] d] eqn:Hrun; cbn [fst snd];
    eexists; (split; [cbn [tasks]; apply lookup_insert_eq|]).
  - split; [intros _|by intros []].
    assert (Hout : present d output_path = true).
    { revert Hrun. rewrite process_task_stages.
      destruct (copy_cache_to_workdir _ work_dir _) as [[[]|e] t1]; [|done].
      destruct (apply_rules _ 0 rules [] t1) as [[rs|e] t2]; [|done].
      destruct (recompile _ output_path t2) as [[[]|e] t3] eqn:Hrec; [|done].
      intros [= _ <-]. revert Hrec. rewrite recompile_stages.
      destruct (mkdir_parents _ t2) as [[[]|e] tm]; [|done].
      destruct (apktool_b _ output_path tm) as [[[rc err]|e] t'] eqn:Hb;
        [|done].
      destruct (rc =? 0) eqn:Hrc; cbn [negb]; [|done].
      apply Z.eqb_eq in Hrc as ->. intros [= <-]. by eapply Htool. }
    unfold download_task. cbn [state tasks disk apk_metadata].
    rewrite lookup_insert_eq. cbn [status completed set_status status_eqb negb].
    fold output_path. rewrite Hout.
    cbn [negb TaskRouter.apk_id completed set_status]. by rewrite Hapk.
  - split; [by intros [=]|intros _].
    unfold download_task. cbn [state tasks disk apk_metadata].
    rewrite lookup_insert_eq. cbn. by eexists _, _.
Qed.

End TaskRequests.

(** ** Deleting a package *)

Section Deletion.
Context `{Runtime} `{Storage.Zip} `{Storage.Decompiler}.
Import RuleEngine Spec Cover Storage.

(** Where a path leads in a tree, it leads in every larger tree. *)
Lemma walk_mono (t t' : tree) (ps : list str) :
  t ⊆ t' ->
  forall cur l, walk t cur ps = inr l -> walk t' cur ps = inr l.
Proof.
  intros Hsub. induction ps as [|c rest IH]; intros cur l; [done|].
  cbn [walk]. destruct (entry_at t cur) as [[data|]|] eqn:Hcur; try done.
  assert (Hent : entry_at t' cur = Some Dir).
  { destruct cur as [|x cur]; [done|]. simpl in *.
    by eapply lookup_weaken. }
  rewrite Hent. destruct (bool_decide _); apply IH.
Qed.

Lemma entry_at_mono (t t' : tree) (l : loc) (e : entry) :
  t ⊆ t' -> entry_at t l = Some e -> entry_at t' l = Some e.
Proof.
  intros Hsub. destruct l as [|x l]; [done|]. simpl.
  intros Hl. by eapply lookup_weaken.
Qed.

Lemma present_mono (t t' : tree) (p : Path) :
  t ⊆ t' -> present t p = true -> present t' p = true.
Proof.
  intros Hsub. unfold present, resolve.
  destruct (walk t _ (parts p)) as [e|l] eqn:Hwalk; [done|].
  rewrite (walk_mono _ _ _ Hsub _ _ Hwalk).
  intros [e He]%bool_decide_eq_true.
  rewrite (entry_at_mono _ _ _ _ Hsub He). by apply bool_decide_eq_true.
Qed.

Lemma present_false_mono (t t' : tree) (p : Path) :
  t' ⊆ t -> present t p = false -> present t' p = false.
Proof.
  intros Hsub Hfalse. destruct (present t' p) eqn:Hp; [|done].
  by rewrite (present_mono _ _ _ Hsub Hp) in Hfalse.
Qed.

Lemma present_absent (t : tree) (p : Path) :
  entry_at t (locate p) = None -> present t p = false.
Proof.
  intros Hnone. unfold present.
  destruct (resolve t p) as [e|l] eqn:Hres; [done|].
  apply resolve_locate in Hres as ->. rewrite Hnone.
  apply bool_decide_eq_false. by intros [? ?].
Qed.

(** Each of the removals of [delete_apk]: when the step does not raise,
    nothing is left at the path and nothing has been added or changed. *)
Lemma unlink_step (p : Path) (t t' : tree) :
  if_exists p (lift (unlink p)) t = (inr tt, t') ->
  present t' p = false /\ t' ⊆ t.
Proof.
  unfold if_exists. destruct (present t p) eqn:Hp.
  2:{ intros [= <-]. done. }
  unfold lift, unlink.
  destruct (resolve t p) as [e|l] eqn:Hres; [done|].
  apply resolve_locate in Hres as ->.
  destruct (entry_at t (locate p)) as [[data|]|] eqn:Hent; try done.
  intros [= <-]. split; [|apply delete_subseteq].
  apply present_absent. destruct (locate p) as [|x l]; [done|]. simpl.
  apply lookup_delete_eq.
Qed.

Lemma rmtree_step (p : Path) (t t' : tree) :
  if_exists p (rmtree p) t = (inr tt, t') ->
  present t' p = false /\ t' ⊆ t.
Proof.
  unfold if_exists. destruct (present t p) eqn:Hp.
  2:{ intros [= <-]. done. }
  unfold rmtree.
  destruct (resolve t p) as [e|l] eqn:Hres; [done|].
  apply resolve_locate in Hres as ->.
  destruct (entry_at t (locate p)) as [[data|]|] eqn:Hent; try done.
  destruct (locate p) as [|x l] eqn:Hloc; [done|].
  intros [= <-]. split; [|apply map_filter_subseteq].
  apply present_absent. rewrite Hloc. simpl.
  apply map_lookup_filter_None. right. intros e _ Hnot. by apply Hnot.
Qed.

Lemma delete_task_files_gone (storage : StorageService.t)
    (task_ids : list str) :
  forall t t',
    delete_task_files storage task_ids t = (inr tt, t') ->
    t' ⊆ t
    /\ forall tid, tid ∈ task_ids ->
         present t' (StorageService.get_output_path storage tid) = false
         /\ present t' (StorageService.get_work_dir storage tid) = false.
Proof.
  induction task_ids as [|task_id rest IH]; intros t t'.
  - intros [= <-]. split; [done|]. by intros tid ?%elem_of_nil.
  - cbn [delete_task_files]. unfold sbind at 1.
    destruct (if_exists _ (lift _) t) as [[f|[]] t1] eqn:Hout; [done|].
    apply unlink_step in Hout as [Hout Hsub1].
    unfold sbind at 1.
    destruct (if_exists _ (rmtree _) t1) as [[f|[]] t2] eqn:Hwork; [done|].
    apply rmtree_step in Hwork as [Hwork Hsub2].
    intros [Hsub3 Hrest]%IH. split; [by repeat (etrans; [eassumption|])|].
    intros tid [->|Hin]%elem_of_cons; [|by apply Hrest].
    split.
    + apply (present_false_mono t1); [by etrans|done].
    + by apply (present_false_mono t2).
Qed.

Lemma deleted_package_is_gone_aux (storage : StorageService.t) (apk_id : str)
    (task_ids : list str) (t t' : tree) :
  Storage.delete_apk storage apk_id task_ids t = (inr tt, t') ->
  present t' (get_apk_path storage apk_id) = false
  /\ present t' (StorageService.get_cache_dir storage apk_id) = false
  /\ (forall tid, tid ∈ task_ids ->
        present t' (StorageService.get_output_path storage tid) = false
        /\ present t' (StorageService.get_work_dir storage tid) = false)
  /\ t' ⊆ t.
Proof.
  unfold Storage.delete_apk. unfold sbind at 1.
  destruct (if_exists _ (lift _) t) as [[f|[]] t1] eqn:Hapk; [done|].
  apply unlink_step in Hapk as [Hapk Hsub1].
  unfold sbind at 1.
  destruct (if_exists _ (rmtree _) t1) as [[f|[]] t2] eqn:Hcache; [done|].
  apply rmtree_step in Hcache as [Hcache Hsub2].
  intros [Hsub3 Hrest]%delete_task_files_gone.
  split; [apply (present_false_mono t1); [by etrans|done]|].
  split; [by apply (present_false_mono t2)|].
  split; [exact Hrest|].
  by repeat (etrans; [eassumption|]).
Qed.

(** X20. A package that [StorageService.delete_apk] has deleted is gone.
    When the call returns, nothing is left at the path of the uploaded
    file, at the cache directory of the package, or at the output file
    and the workspace of any of the listed tasks; and every entry of the
    tree after the call was there before it, unchanged: the call creates
    and rewrites nothing. *)
Theorem deleted_package_is_gone (storage : StorageService.t) (apk_id : str)
    (task_ids : list str) (t t' : tree) :
  Storage.delete_apk storage apk_id task_ids t = (inr tt, t') ->
  present t' (get_apk_path storage apk_id) = false
  /\ present t' (StorageService.get_cache_dir storage apk_id) = false
  /\ (forall tid, tid ∈ task_ids ->
        present t' (StorageService.get_output_path storage tid) = false
        /\ present t' (StorageService.get_work_dir storage tid) = false)
  /\ (forall l e, t' !! l = Some e -> t !! l = Some e).
Proof.
  intros (Hapk & Hcache & Htasks & Hsub)%deleted_package_is_gone_aux.
  repeat (split; [done|]).
  intros l e Hl. by eapply lookup_weaken.
Qed.

(** What the removals leave alone, whether they raise or not. *)
Lemma unlink_step_frame (p : Path) (t : tree) (l : loc) :
  l <> locate p -> (if_exists p (lift (unlink p)) t).2 !! l = t !! l.
Proof.
  intros Hl. unfold if_exists. destruct (present t p); [|done].
  unfold lift, unlink.
  destruct (resolve t p) as [e|l0] eqn:Hres; [done|].
  apply resolve_locate in Hres as ->.
  destruct (entry_at t (locate p)) as [[data|]|]; try done.
  simpl. by rewrite lookup_delete_ne.
Qed.

Lemma rmtree_step_frame (p : Path) (t : tree) (l : loc) :
  ~ locate p `prefix_of` l -> (if_exists p (rmtree p) t).2 !! l = t !! l.
Proof.
  intros Hl. unfold if_exists. destruct (present t p); [|done].
  unfold rmtree.
  destruct (resolve t p) as [e|l0] eqn:Hres; [done|].
  apply resolve_locate in Hres as ->.
  destruct (entry_at t (locate p)) as [[data|]|]; try done.
  assert (Hfilter : filter (fun kv : loc * entry => ¬ locate p `prefix_of` kv.1)
                      t !! l = t !! l).
  { rewrite map_lookup_filter. destruct (t !! l); simpl; [|done].
    by rewrite option_guard_True. }
  by destruct (locate p).
Qed.

Lemma delete_task_files_frame (storage : StorageService.t)
    (task_ids : list str) (l : loc) :
  (forall tid, tid ∈ task_ids ->
     l <> locate (StorageService.get_output_path storage tid)
     /\ ~ locate (StorageService.get_work_dir storage tid) `prefix_of` l) ->
  forall t, (delete_task_files storage task_ids t).2 !! l = t !! l.
Proof.
  induction task_ids as [|task_id rest IH]; intros Hl t; [done|].
  destruct (Hl task_id) as [Hout Hwork]; [by left|].
  cbn [delete_task_files]. unfold sbind at 1.
  pose proof (unlink_step_frame _ t l Hout) as Hstep1.
  destruct (if_exists _ (lift _) t) as [[f|[]] t1]; [done|].
  simpl in Hstep1. rewrite <- Hstep1. unfold sbind at 1.
  pose proof (rmtree_step_frame _ t1 l Hwork) as Hstep2.
  destruct (if_exists _ (rmtree _) t1) as [[f|[]] t2]; [done|].
  simpl in Hstep2. rewrite <- Hstep2. apply IH.
  intros tid Hin. apply Hl. by right.
Qed.

Lemma delete_apk_frame (storage : StorageService.t) (apk_id : str)
    (task_ids : list str) (t : tree) (l : loc) :
  l <> locate (get_apk_path storage apk_id) ->
  ~ locate (StorageService.get_cache_dir storage apk_id) `prefix_of` l ->
  (forall tid, tid ∈ task_ids ->
     l <> locate (StorageService.get_output_path storage tid)
     /\ ~ locate (StorageService.get_work_dir storage tid) `prefix_of` l) ->
  (Storage.delete_apk storage apk_id task_ids t).2 !! l = t !! l.
Proof.
  intros Hapk Hcache Htasks. unfold Storage.delete_apk. unfold sbind at 1.
  pose proof (unlink_step_frame _ t l Hapk) as Hstep1.
  destruct (if_exists _ (lift _) t) as [[f|[]] t1]; [done|].
  simpl in Hstep1. rewrite <- Hstep1. unfold sbind at 1.
  pose proof (rmtree_step_frame _ t1 l Hcache) as Hstep2.
  destruct (if_exists _ (rmtree _) t1) as [[f|[]] t2]; [done|].
  simpl in Hstep2. rewrite <- Hstep2. by apply delete_task_files_frame.
Qed.

(** X21. Deleting a package spares the others. Whatever the outcome of
    [StorageService.delete_apk] for the package [apk_id] and its tasks,
    the uploaded file of another package, all that is in the cache
    directory of another package, and the output file and the workspace
    of a task that is not listed are what they were. The identifiers are
    single names and the base directory is written without [..]. *)
Theorem delete_apk_spares_the_others (storage : StorageService.t)
    (apk_id other : str) (task_ids : list str) (other_task : str) (t : tree) :
  DOTDOT ∉ parts (StorageService.base_dir storage) ->
  plain_name apk_id ->
  plain_name other ->
  Forall plain_name task_ids ->
  plain_name other_task ->
  other <> apk_id ->
  other_task ∉ task_ids ->
  let t' := (Storage.delete_apk storage apk_id task_ids t).2 in
  t' !! locate (get_apk_path storage other)
  = t !! locate (get_apk_path storage other)
  /\ (forall l,
        locate (StorageService.get_cache_dir storage other) `prefix_of` l ->
        t' !! l = t !! l)
  /\ t' !! locate (StorageService.get_output_path storage other_task)
     = t !! locate (StorageService.get_output_path storage other_task)
  /\ (forall l,
        locate (StorageService.get_work_dir storage other_task) `prefix_of` l ->
        t' !! l = t !! l).
Proof.
  intros Hbase Hapk Hother Htasks Htask Hne Hnotin t'.
  assert (Hu : plain_name (lit "uploads")) by (repeat split; by_computation).
  assert (Hc : plain_name (lit "cache")) by (repeat split; by_computation).
  assert (Hw : plain_name (lit "workspace")) by (repeat split; by_computation).
  assert (Ho : plain_name (lit "output")) by (repeat split; by_computation).
  assert (Dapk : forall a b : str, a <> b -> a ++ lit ".apk" <> b ++ lit ".apk").
  { intros a b Hab Heq. by apply app_inv_tail in Heq. }
  assert (Eu : forall a, plain_name a ->
             locate (get_apk_path storage a)
             = ((if anchored (StorageService.base_dir storage)
                 then [] else getcwd)
                ++ parts (StorageService.base_dir storage))
               ++ [lit "uploads"; a ++ lit ".apk"]).
  { intros a Ha.
    apply (storage_locate _ _ _ Hbase Hu (plain_name_apk _ (proj1 Ha))). }
  assert (Ec : forall a, plain_name a ->
             locate (StorageService.get_cache_dir storage a)
             = ((if anchored (StorageService.base_dir storage)
                 then [] else getcwd)
                ++ parts (StorageService.base_dir storage))
               ++ [lit "cache"; a]).
  { intros a Ha. apply (storage_locate _ _ _ Hbase Hc Ha). }
  assert (Ew : forall a, plain_name a ->
             locate (StorageService.get_work_dir storage a)
             = ((if anchored (StorageService.base_dir storage)
                 then [] else getcwd)
                ++ parts (StorageService.base_dir storage))
               ++ [lit "workspace"; a]).
  { intros a Ha. apply (storage_locate _ _ _ Hbase Hw Ha). }
  assert (Eo : forall a, plain_name a ->
             locate (StorageService.get_output_path storage a)
             = ((if anchored (StorageService.base_dir storage)
                 then [] else getcwd)
                ++ parts (StorageService.base_dir storage))
               ++ [lit "output"; a ++ lit ".apk"]).
  { intros a Ha.
    apply (storage_locate _ _ _ Hbase Ho (plain_name_apk _ (proj1 Ha))). }
  set (pre := (if anchored (StorageService.base_dir storage)
               then [] else getcwd)
              ++ parts (StorageService.base_dir storage)) in *.
  assert (Hframe : forall (x y : str) (l : loc),
            (pre ++ [x; y]) `prefix_of` l ->
            (x <> lit "uploads" \/ y <> apk_id ++ lit ".apk") ->
            (x <> lit "cache" \/ y <> apk_id) ->
            (forall tid, tid ∈ task_ids ->
               (x <> lit "output" \/ y <> tid ++ lit ".apk")
               /\ (x <> lit "workspace" \/ y <> tid)) ->
            t' !! l = t !! l).
  { intros x y l Hl Hxu Hxc Hxt. apply delete_apk_frame.
    - rewrite (Eu _ Hapk). intros ->.
      by apply (two_names_apart pre x y _ _ Hxu).
    - rewrite (Ec _ Hapk).
      by apply (below_two_names pre l x y _ _ Hxc).
    - intros tid Hin. destruct (Hxt tid Hin) as [Hxo Hxw].
      pose proof (proj1 (Forall_forall _ _) Htasks tid Hin) as Hplain.
      rewrite (Eo _ Hplain), (Ew _ Hplain). split.
      + intros ->. by apply (two_names_apart pre x y _ _ Hxo).
      + by apply (below_two_names pre l x y _ _ Hxw). }
  assert (Hother_task : forall tid, tid ∈ task_ids -> other_task <> tid).
  { intros tid Hin ->. done. }
  split; [|split; [|split]].
  - rewrite (Eu _ Hother).
    apply (Hframe (lit "uploads") (other ++ lit ".apk")); [done| | |].
    + right. by apply Dapk.
    + left. by_computation.
    + intros tid _. split; left; by_computation.
  - intros l Hl. rewrite (Ec _ Hother) in Hl.
    apply (Hframe (lit "cache") other); [done| | |].
    + left. by_computation.
    + by right.
    + intros tid _. split; left; by_computation.
  - rewrite (Eo _ Htask).
    apply (Hframe (lit "output") (other_task ++ lit ".apk")); [done| | |].
    + left. by_computation.
    + left. by_computation.
    + intros tid Hin. split; [right|left; by_computation].
      apply Dapk. by apply Hother_task.
  - intros l Hl. rewrite (Ew _ Htask) in Hl.
    apply (Hframe (lit "workspace") other_task); [done| | |].
    + left. by_computation.
    + left. by_computation.
    + intros tid Hin. split; [left; by_computation|right].
      by apply Hother_task.
Qed.

End Deletion.

(** ** Requests on packages *)

Section ApkRequests.
Context `{Runtime} `{Storage.Zip} `{Storage.Decompiler}.
Import Spec Cover Api Storage ApkRouter.

Lemma pop_all_lookup {A} (keys : list str) :
  forall (m : gmap (list Z) A) (k : str),
    pop_all keys m !! k = if bool_decide (k ∈ keys) then None else m !! k.
Proof.
  unfold pop_all. induction keys as [|x rest IH]; intros m k.
  - case_bool_decide as Hin; [by apply elem_of_nil in Hin|done].
  - cbn [fold_left]. rewrite IH.
    case_bool_decide as Hrest; case_bool_decide as Hin; try done.
    + destruct Hin. by right.
    + apply elem_of_cons in Hin as [->|?]; [|done]. apply lookup_delete_eq.
    + apply lookup_delete_ne. intros ->. apply Hin. by left.
Qed.

Lemma tasks_of_spec (app : App) (order : list str) (apk_id tid : str) :
  tid ∈ tasks_of app order apk_id
  <-> tid ∈ order
      /\ exists task,
           tasks (state app) !! tid = Some task
           /\ TaskRouter.apk_id task = apk_id.
Proof.
  unfold tasks_of. rewrite list_elem_of_In, filter_In, <- list_elem_of_In.
  split; intros [Hin Htask]; (split; [exact Hin|]).
  - destruct (tasks (state app) !! tid) as [task|]; [|done].
    apply bool_decide_eq_true in Htask. by exists task.
  - destruct Htask as (task & -> & Hapk). by apply bool_decide_eq_true.
Qed.

(** X22. What [delete_apk] of the package router leaves when it answers
    with success, [order] listing the keys of [state.tasks]: the
    metadata of the package is gone and that of the others is kept; the
    records that remain are those of the tasks of other packages, as
    they were; and on the disk nothing is left of the uploaded file, of
    the cache directory, or of the output and the workspace of a task of
    the package. *)
Theorem delete_apk_forgets_the_package (storage : StorageService.t)
    (order : list str) (apk_id : str) (app app' : App) :
  (forall tid, is_Some (tasks (state app) !! tid) -> tid ∈ order) ->
  ApkRouter.delete_apk storage order apk_id app = (inr success, app') ->
  apk_metadata app' = delete apk_id (apk_metadata app)
  /\ (forall tid,
        tasks (state app') !! tid
        = match tasks (state app) !! tid with
          | Some task =>
              if bool_decide (TaskRouter.apk_id task = apk_id)
              then None else Some task
          | None => None
          end)
  /\ present (disk (state app')) (get_apk_path storage apk_id) = false
  /\ present (disk (state app')) (StorageService.get_cache_dir storage apk_id)
     = false
  /\ (forall tid task,
        tasks (state app) !! tid = Some task ->
        TaskRouter.apk_id task = apk_id ->
        present (disk (state app'))
          (StorageService.get_output_path storage tid) = false
        /\ present (disk (state app'))
             (StorageService.get_work_dir storage tid) = false).
Proof.
  intros Horder. unfold ApkRouter.delete_apk.
  destruct (negb _); [done|].
  destruct (Storage.delete_apk _ _ _ _) as [[f|[]] d] eqn:Hdel; [done|].
  intros [= <-]. cbn [apk_metadata state tasks disk].
  apply deleted_package_is_gone_aux in Hdel as (Hapk & Hcache & Htasks & _).
  split; [done|]. split; [|split; [done|split; [done|]]].
  - intros tid. rewrite pop_all_lookup.
    destruct (tasks (state app) !! tid) as [task|] eqn:Htid.
    + destruct (bool_decide (TaskRouter.apk_id task = apk_id)) eqn:Hthis.
      * apply bool_decide_eq_true in Hthis.
        rewrite bool_decide_eq_true_2; [done|].
        apply tasks_of_spec. split; [by apply Horder|by exists task].
      * apply bool_decide_eq_false in Hthis.
        rewrite bool_decide_eq_false_2; [done|].
        intros (_ & task' & Htask' & Heq)%tasks_of_spec. congruence.
    + by destruct (bool_decide _).
  - intros tid task Htid Hthis. apply Htasks.
    apply tasks_of_spec. split; [by apply Horder|by exists task].
Qed.

Lemma save_upload_cases (storage : StorageService.t) (content : bytes)
    (uuid4_hex : str) (t : tree) :
  (exists f, save_upload storage content uuid4_hex t = (inl f, t))
  \/ (save_upload storage content uuid4_hex t
      = (inr uuid4_hex,
         <[locate (get_apk_path storage uuid4_hex) := File content]> t)
      /\ locate (get_apk_path storage uuid4_hex) <> []
      /\ _validate_apk_format content = inr tt).
Proof.
  unfold save_upload.
  destruct (_validate_apk_format content) as [f|[]]; [left; by exists f|].
  unfold sbind, lift, write_bytes. fold (get_apk_path storage uuid4_hex).
  destruct (resolve t _) as [e|l] eqn:Hres; [left; by eexists|].
  apply resolve_locate in Hres as ->.
  destruct (entry_at t _) as [[data|]|] eqn:Hent.
  - right. split; [done|]. split; [|done]. intros Hnil.
    by rewrite Hnil in Hent.
  - left. by eexists.
  - right. split; [done|]. split; [|done]. intros Hnil.
    by rewrite Hnil in Hent.
Qed.

Lemma cleanup_failed_upload_gone (storage : StorageService.t) (apk_id : str)
    (cache_dir : Path) (msg : str) (t t' : tree) (r : response) :
  locate cache_dir <> [] ->
  cleanup_failed_upload storage apk_id cache_dir msg t = (Returns r, t') ->
  r = error_response 500 (lit "DECOMPILE_ERROR") msg
  /\ present t' (get_apk_path storage apk_id) = false
  /\ (is_dir cache_dir t').1 = Returns false.
Proof.
  intros Hne. unfold cleanup_failed_upload.
  set (apk_path := get_apk_path storage apk_id).
  unfold bind at 1. unfold bind at 1. unfold exists_ at 1.
  assert (Hfirst : forall t1,
            (if present t apk_path then unlink apk_path else ret tt) t
            = (Returns tt, t1) ->
            present t1 apk_path = false /\ t1 ⊆ t).
  { intros t1. pose proof (unlink_step apk_path t t1) as Hstep.
    unfold if_exists, lift in Hstep.
    destruct (present t apk_path) eqn:Hp.
    - intros Hun. apply Hstep. by rewrite Hun.
    - intros [= <-]. done. }
  destruct ((if present t apk_path then unlink apk_path else ret tt) t)
    as [[[]|e] t1] eqn:Hun; [|done].
  destruct (Hfirst t1 eq_refl) as [Hapk Hsub].
  unfold bind at 1. unfold bind at 1. unfold exists_ at 1.
  assert (Hsecond :
            exists t2,
              (if present t1 cache_dir then rmtree_ignore_errors cache_dir
               else ret tt) t1 = (Returns tt, t2)
              /\ t2 ⊆ t1 /\ (is_dir cache_dir t2).1 = Returns false).
  { destruct (present t1 cache_dir) eqn:Hp.
    - unfold rmtree_ignore_errors, is_dir. unfold present in Hp.
      destruct (resolve t1 cache_dir) as [e|l] eqn:Hres; [done|].
      apply resolve_locate in Hres as Hl. subst l.
      assert (Hat : forall u : tree,
                entry_at u (locate cache_dir) = u !! locate cache_dir).
      { intros u. by destruct (locate cache_dir). }
      destruct (entry_at t1 (locate cache_dir)) as [[data|]|] eqn:Hent.
      + eexists. split; [done|]. split; [done|]. cbn [fst].
        by rewrite Hres, Hent.
      + eexists. split; [done|]. split; [apply map_filter_subseteq|].
        cbn [fst].
        destruct (resolve (filter _ t1) cache_dir) as [e|l] eqn:Hres2; [done|].
        apply resolve_locate in Hres2 as ->. rewrite Hat.
        rewrite (proj2 (map_lookup_filter_None _ _ _)); [done|].
        right. intros e _ Hnot. by apply Hnot.
      + by apply bool_decide_eq_true in Hp as [? ?].
    - exists t1. split; [done|]. split; [done|].
      unfold is_dir, present in *. cbn [fst].
      destruct (resolve t1 cache_dir) as [e|l]; [done|].
      destruct (entry_at t1 l) as [x|]; [|done].
      apply bool_decide_eq_false in Hp. destruct Hp. by exists x. }
  destruct Hsecond as (t2 & -> & Hsub2 & Hdir).
  unfold ret. intros [= <- <-]. split; [done|].
  split; [by apply (present_false_mono t1)|done].
Qed.

Lemma cleanup_failed_upload_response (storage : StorageService.t)
    (apk_id : str) (cache_dir : Path) (msg : str) (t t' : tree) (r : response) :
  cleanup_failed_upload storage apk_id cache_dir msg t = (Returns r, t') ->
  r = error_response 500 (lit "DECOMPILE_ERROR") msg.
Proof.
  unfold cleanup_failed_upload. unfold bind at 1.
  destruct (bind (exists_ _) _ t) as [[[]|e] t1]; [|done].
  unfold bind at 1.
  destruct (bind (exists_ _) _ t1) as [[[]|e] t2]; [|done].
  unfold ret. by intros [= <- <-].
Qed.

(** X23. An upload that is answered with an error leaves no trace in the
    stores, and on the disk nothing of the upload. The answer is 413
    for a content over the size limit, 400 for a content that is refused
    as a package, 500 [STORAGE_ERROR] when the file cannot be written,
    and in these three cases the whole state is what it was; or it is
    500 [DECOMPILE_ERROR] with the text of the [RuntimeError] of the
    decompile, and then the stores are what they were, nothing is at the
    path of the uploaded file and no directory is at the cache path. The
    cache path is not the root. *)
Theorem failed_upload_leaves_no_trace (storage : StorageService.t)
    (content : bytes) (file_filename : option str) (uuid4_hex : str)
    (app app' : App) (code : Z) (kind message : str) :
  locate (StorageService.get_cache_dir storage uuid4_hex) <> [] ->
  upload_apk storage content file_filename uuid4_hex app
  = (Returns (error_response code kind message), app') ->
  (code = 413 /\ kind = lit "FILE_TOO_LARGE"
   /\ Z.of_nat (length content) > MAX_FILE_SIZE /\ app' = app)
  \/ (code = 400 /\ kind = lit "INVALID_APK_FORMAT" /\ app' = app)
  \/ (code = 500 /\ kind = lit "STORAGE_ERROR" /\ app' = app)
  \/ (code = 500 /\ kind = lit "DECOMPILE_ERROR"
      /\ apk_metadata app' = apk_metadata app
      /\ tasks (state app') = tasks (state app)
      /\ present (disk (state app')) (get_apk_path storage uuid4_hex) = false
      /\ (is_dir (StorageService.get_cache_dir storage uuid4_hex)
            (disk (state app'))).1 = Returns false).
Proof.
  intros Hne. unfold upload_apk.
  assert (Heta : mkApp (apk_metadata app)
                   (mkState (tasks (state app)) (disk (state app))) = app).
  { by destruct app as [meta [ts d]]. }
  destruct (Z.of_nat (length content) >? MAX_FILE_SIZE) eqn:Hsize.
  { intros [= <- <- <- <-]. left. repeat split.
    by apply Z.gtb_lt, Z.lt_gt in Hsize. }
  destruct (save_upload_cases storage content uuid4_hex (disk (state app)))
    as [[f Hsave]|(Hsave & Hloc & _)]; rewrite Hsave.
  { rewrite Heta. destruct (is_value_error f); intros [= <- <- <- <-].
    - right. by left.
    - right. right. by left. }
  destruct (decompile_to_cache _ _ _) as [[[]|[msg|e]] d1] eqn:Hdec; try done.
  destruct (cleanup_failed_upload _ _ _ _ _) as [r1 d2] eqn:Hr. cbn [fst snd].
  intros [= -> <-]. cbn [apk_metadata state tasks disk].
  apply (cleanup_failed_upload_gone _ _ _ _ _ _ _ Hne) in Hr
    as ([= <- <- <-] & Hapk & Hcache).
  right. right. right. done.
Qed.

(** X24. An upload that is accepted. The answer names the fresh
    identifier, the size of the content and the READY cache; the content
    is within the size limit, starts with the ZIP magic and lists
    [AndroidManifest.xml]; the metadata of the package is recorded with
    the same values, under the name of the upload or, if it has none,
    [<apk_id>.apk]; the task records are untouched. The disk is as the
    decompiler left it, and the decompiler exited with status 0 after
    being started on a tree in which the uploaded file holds the content
    and the cache directory of the package is a directory. *)
Theorem accepted_upload_is_recorded (storage : StorageService.t)
    (content : bytes) (file_filename : option str) (uuid4_hex : str)
    (app app' : App) (apk_id name : str) (n : Z) (st : CacheStatus.t) :
  upload_apk storage content file_filename uuid4_hex app
  = (Returns (upload_response apk_id name n st), app') ->
  let apk_path := get_apk_path storage apk_id in
  let cache_dir := StorageService.get_cache_dir storage apk_id in
  apk_id = uuid4_hex
  /\ n = Z.of_nat (length content)
  /\ n <= MAX_FILE_SIZE
  /\ st = CacheStatus.READY
  /\ name = match file_filename with
            | Some (c :: rest) => c :: rest
            | _ => apk_id ++ lit ".apk"
            end
  /\ take 4 content = ZIP_MAGIC
  /\ (exists names,
        namelist content = Namelist names
        /\ lit "AndroidManifest.xml" ∈ names)
  /\ apk_metadata app'
     = <[apk_id := mkMeta name CacheStatus.READY n utcnow]> (apk_metadata app)
  /\ tasks (state app') = tasks (state app)
  /\ exists tm stderr,
       apktool_d apk_path (joinpath cache_dir (lit "decompiled")) tm
       = (Returns (0, stderr), disk (state app'))
       /\ entry_at tm (locate apk_path) = Some (File content)
       /\ (is_dir cache_dir tm).1 = Returns true.
Proof.
  unfold upload_apk.
  destruct (Z.of_nat (length content) >? MAX_FILE_SIZE) eqn:Hsize; [done|].
  destruct (save_upload_cases storage content uuid4_hex (disk (state app)))
    as [[f Hsave]|(Hsave & Hloc & Hformat)]; rewrite Hsave.
  { by destruct (is_value_error f). }
  destruct (decompile_to_cache _ _ _) as [[[]|[msg|e]] d1] eqn:Hdec; try done.
  2:{ destruct (cleanup_failed_upload _ _ _ _ _) as [[r|?] ?] eqn:Hr; [|done].
      by apply cleanup_failed_upload_response in Hr as ->. }
  intros Heq. inversion Heq; subst apk_id name n st app'. clear Heq.
  cbn [apk_metadata state tasks disk].
  set (apk_path := get_apk_path storage uuid4_hex) in *.
  set (cache_dir := StorageService.get_cache_dir storage uuid4_hex) in *.
  split; [done|]. split; [done|].
  split; [rewrite Z.gtb_ltb in Hsize; apply Z.ltb_ge in Hsize; lia|].
  split; [done|]. split; [done|].
  assert (Hfmt : take 4 content = ZIP_MAGIC
                 /\ exists names,
                      namelist content = Namelist names
                      /\ lit "AndroidManifest.xml" ∈ names).
  { revert Hformat. unfold _validate_apk_format.
    destruct (_ || _) eqn:Hmagic; [done|].
    apply orb_false_iff in Hmagic as [_ Hmagic].
    apply negb_false_iff, bool_decide_eq_true in Hmagic.
    destruct (namelist content) as [names| |e]; try done.
    destruct (negb _) eqn:Hin; [done|].
    apply negb_false_iff, bool_decide_eq_true in Hin.
    intros _. split; [done|]. by exists names. }
  destruct Hfmt as [Hmagic Hnames].
  split; [done|]. split; [done|]. split; [done|]. split; [done|].
  revert Hdec. unfold decompile_to_cache. unfold bind at 1.
  set (t1 := <[locate apk_path := File content]> (disk (state app))).
  destruct (mkdir_parents cache_dir t1) as [[[]|e] tm] eqn:Hmk; [|done].
  unfold bind at 1.
  destruct (apktool_d _ _ tm) as [[[rc err]|e] t2] eqn:Htool; [|done].
  cbn [fst snd]. destruct (rc =? 0) eqn:Hrc; cbn [negb]; [|done].
  apply Z.eqb_eq in Hrc as ->. intros [= <-].
  exists tm, err. split; [done|]. split.
  - pose proof (mkdir_parents_keeps cache_dir t1 (locate apk_path)
                  (File content)) as Hkeep.
    rewrite Hmk in Hkeep. cbn [snd] in Hkeep.
    fold apk_path in Hloc. destruct (locate apk_path) eqn:El; [done|].
    cbn [entry_at]. apply Hkeep. unfold t1. apply lookup_insert_eq.
  - by apply mkdir_parents_is_dir in Hmk.
Qed.

Lemma is_dir_mono (t t' : tree) (p : Path) :
  t ⊆ t' -> (is_dir p t).1 = Returns true -> (is_dir p t').1 = Returns true.
Proof.
  intros Hsub. unfold is_dir, resolve. cbn [fst].
  destruct (walk t _ (parts p)) as [e|l] eqn:Hwalk; [done|].
  rewrite (walk_mono _ _ _ Hsub _ _ Hwalk).
  intros [= Hdir%bool_decide_eq_true].
  by rewrite (entry_at_mono _ _ _ _ Hsub Hdir), bool_decide_eq_true_2.
Qed.

Lemma mkdir_parents_grows (p : Path) (t : tree) :
  t ⊆ (mkdir_parents p t).2.
Proof.
  apply map_subseteq_spec. intros l e. apply mkdir_parents_keeps.
Qed.

Lemma mkdir_each_spec (dirs : list Path) :
  forall t t',
    mkdir_each dirs t = (Returns tt, t') ->
    t ⊆ t' /\ Forall (fun d => (is_dir d t').1 = Returns true) dirs.
Proof.
  induction dirs as [|d rest IH]; intros t t'.
  - intros [= <-]. done.
  - cbn [mkdir_each]. unfold bind at 1.
    pose proof (mkdir_parents_grows d t) as Hgrow.
    destruct (mkdir_parents d t) as [[[]|e] t1] eqn:Hmk; [|done].
    apply mkdir_parents_is_dir in Hmk.
    intros [Hsub Hrest]%IH. split; [by etrans|].
    constructor; [|done]. by apply (is_dir_mono t1).
Qed.

(** X25. After [_ensure_directories] has returned, the four directories
    of the service (uploads, cache, workspace, output) are directories,
    and every entry that was in the tree is still there, unchanged. *)
Theorem ensured_directories_exist (storage : StorageService.t) (t t' : tree) :
  _ensure_directories storage t = (Returns tt, t') ->
  (is_dir (uploads_dir storage) t').1 = Returns true
  /\ (is_dir (StorageService.cache_dir storage) t').1 = Returns true
  /\ (is_dir (StorageService.workspace_dir storage) t').1 = Returns true
  /\ (is_dir (StorageService.output_dir storage) t').1 = Returns true
  /\ (forall l e, t !! l = Some e -> t' !! l = Some e).
Proof.
  intros [Hsub Hdirs]%mkdir_each_spec.
  apply Forall_cons in Hdirs as [Hu Hdirs].
  apply Forall_cons in Hdirs as [Hc Hdirs].
  apply Forall_cons in Hdirs as [Hw Hdirs].
  apply Forall_cons in Hdirs as [Ho _].
  repeat (split; [done|]).
  intros l e Hl. by eapply lookup_weaken.
Qed.

End ApkRequests.

(** ** The further properties on concrete data *)

Section FurtherWitnesses.
Import RuleEngine Spec Cover Api Demo Scene.

Lemma validate_errors_follow_the_rules_witness :
  let vr := ValidationResult.mk false [absolute_path_error 0] in
  validate_rules escaping_rules = Returns vr
  /\ Forall (fun e => (ValidationError.rule_index e < length escaping_rules)%nat)
       (ValidationResult.errors vr)
  /\ StronglySorted le
       (map ValidationError.rule_index (ValidationResult.errors vr)).
Proof.
  intros vr.
  assert (H1 : validate_rules escaping_rules = Returns vr)
    by (vm_compute; reflexivity).
  split; [exact H1|].
  exact (validate_errors_follow_the_rules escaping_rules vr H1).
Defined.

Lemma script_rule_rewrites_target_witness :
  let r := ScriptRule.mk (lit "a.txt") (lit "hello") (lit "bye") false in
  let l := at_ "/srv/data/workspace/t1/decompiled/a.txt" in
  resolve disk1 (joinpath root1 (ScriptRule.target_path r)) = inr l
  /\ entry_at disk1 l = Some (File (octets "hello"))
  /\ utf8_decode (octets "hello") = Some (lit "hello")
  /\ substitute r (universal_newlines (lit "hello")) = inr (lit "bye")
  /\ utf8_encode (lit "bye") = Some (octets "bye")
  /\ apply_script_rule root1 r disk1
     = (Returns (script_success r), <[l := File (octets "bye")]> disk1).
Proof.
  intros r l.
  assert (H1 : resolve disk1 (joinpath root1 (ScriptRule.target_path r)) = inr l)
    by (vm_compute; reflexivity).
  assert (H2 : entry_at disk1 l = Some (File (octets "hello")))
    by (vm_compute; reflexivity).
  assert (H3 : utf8_decode (octets "hello") = Some (lit "hello"))
    by (vm_compute; reflexivity).
  assert (H4 : substitute r (universal_newlines (lit "hello")) = inr (lit "bye"))
    by (vm_compute; reflexivity).
  assert (H5 : utf8_encode (lit "bye") = Some (octets "bye"))
    by (vm_compute; reflexivity).
  repeat (split; [assumption|]).
  exact (script_rule_rewrites_target root1 r disk1 l _ _ _ _ H1 H2 H3 H4 H5).
Defined.

Lemma script_rule_failure_keeps_tree_witness :
  let r := ScriptRule.mk (lit "bad.bin") (lit "a") (lit "b") false in
  let l := at_ "/srv/data/workspace/t1/decompiled/bad.bin" in
  resolve disk_bad (joinpath root1 (ScriptRule.target_path r)) = inr l
  /\ entry_at disk_bad l = Some (File [255; 254])
  /\ utf8_decode [255; 254] = None
  /\ apply_script_rule root1 r disk_bad
     = (Returns (script_failure r (Lib UnicodeDecodeError)), disk_bad).
Proof.
  intros r l.
  assert (H1 : resolve disk_bad (joinpath root1 (ScriptRule.target_path r))
               = inr l) by (vm_compute; reflexivity).
  assert (H2 : entry_at disk_bad l = Some (File [255; 254]))
    by (vm_compute; reflexivity).
  assert (H3 : utf8_decode [255; 254] = None) by reflexivity.
  repeat (split; [assumption|]).
  exact (proj1 (script_rule_failure_keeps_tree root1 r disk_bad l _ H1 H2) H3).
Defined.

Lemma script_rule_unencodable_truncates_witness :
  let l := at_ "/srv/data/workspace/t1/decompiled/a.txt" in
  resolve disk1 (joinpath root1 (ScriptRule.target_path surrogate_rule)) = inr l
  /\ entry_at disk1 l = Some (File (octets "hello"))
  /\ utf8_decode (octets "hello") = Some (lit "hello")
  /\ substitute surrogate_rule (universal_newlines (lit "hello")) = inr [55296]
  /\ utf8_encode [55296] = None
  /\ apply_script_rule root1 surrogate_rule disk1
     = (Returns (script_failure surrogate_rule (Lib UnicodeEncodeError)),
        <[l := File []]> disk1).
Proof.
  intros l.
  assert (H1 : resolve disk1
                 (joinpath root1 (ScriptRule.target_path surrogate_rule))
               = inr l) by (vm_compute; reflexivity).
  assert (H2 : entry_at disk1 l = Some (File (octets "hello")))
    by (vm_compute; reflexivity).
  assert (H3 : utf8_decode (octets "hello") = Some (lit "hello"))
    by (vm_compute; reflexivity).
  assert (H4 : substitute surrogate_rule (universal_newlines (lit "hello"))
               = inr [55296]) by (vm_compute; reflexivity).
  assert (H5 : utf8_encode [55296] = None) by (vm_compute; reflexivity).
  repeat (split; [assumption|]).
  exact (script_rule_unencodable_truncates root1 surrogate_rule disk1 l _ _ _
           H1 H2 H3 H4 H5).
Defined.

Lemma image_rule_writes_validated_data_witness :
  let l := at_ "/srv/data/workspace/t1/decompiled/res/icon.png" in
  resolve disk1 (joinpath root1 (ImageRule.target_path icon_rule)) = inr l
  /\ entry_at disk1 l = Some (File [137; 80; 78; 71])
  /\ _validate_image_rule 1 icon_rule = []
  /\ exists image_bytes,
       Base64.b64decode (ImageRule.image_data icon_rule) true = inr image_bytes
       /\ apply_image_rule root1 icon_rule disk1
          = (Returns (image_success icon_rule), <[l := File image_bytes]> disk1).
Proof.
  intros l.
  assert (H1 : resolve disk1 (joinpath root1 (ImageRule.target_path icon_rule))
               = inr l) by (vm_compute; reflexivity).
  assert (H2 : entry_at disk1 l = Some (File [137; 80; 78; 71]))
    by (vm_compute; reflexivity).
  assert (H3 : _validate_image_rule 1 icon_rule = [])
    by (vm_compute; reflexivity).
  repeat (split; [assumption|]).
  exact (image_rule_writes_validated_data root1 icon_rule disk1 l _ 1 H1 H2 H3).
Defined.

Lemma rules_touch_only_their_targets_witness :
  let l := at_ "/srv/data/workspace/t1/decompiled/crlf.txt" in
  Forall (fun rule =>
            is_model rule -> l <> locate (joinpath root1 (target_of rule)))
    edit_rules
  /\ (apply_rules root1 0 edit_rules [] disk1).2 !! l = disk1 !! l.
Proof.
  intros l.
  assert (H1 : Forall (fun rule =>
                         is_model rule ->
                         l <> locate (joinpath root1 (target_of rule)))
                 edit_rules)
    by (repeat constructor; intros _; by_computation).
  split; [exact H1|].
  exact (rules_touch_only_their_targets root1 edit_rules 0 [] disk1 l H1).
Defined.

Lemma validated_image_data_is_not_empty_witness :
  _validate_image_rule 0 icon_rule = []
  /\ Base64.b64decode (ImageRule.image_data icon_rule) false = inr [104; 105]
  /\ [104; 105] <> ([] : bytes).
Proof.
  assert (H1 : _validate_image_rule 0 icon_rule = [])
    by (vm_compute; reflexivity).
  assert (H2 : Base64.b64decode (ImageRule.image_data icon_rule) false
               = inr [104; 105]) by (vm_compute; reflexivity).
  repeat (split; [assumption|]).
  exact (validated_image_data_is_not_empty 0 icon_rule _ H1 H2).
Defined.

Lemma disk0_workspace_free (l : loc) :
  locate work1 `prefix_of` l -> disk0 !! l = None.
Proof.
  intros Hl. destruct (disk0 !! l) as [e|] eqn:Hent; [|done]. exfalso.
  unfold disk0 in Hent. apply elem_of_list_to_map_2 in Hent.
  repeat (apply elem_of_cons in Hent as [Hent|Hent];
          [injection Hent as -> _; revert Hl; by_computation|]).
  by apply elem_of_nil in Hent.
Qed.

Lemma copy_is_exact_witness :
  copy_cache_to_workdir cache1 work1 disk0 = (Returns tt, disk1)
  /\ (DOTDOT ∉ parts work1)
  /\ ~ (locate cache1 `prefix_of` locate work1)
  /\ (forall l, locate work1 `prefix_of` l -> disk0 !! l = None)
  /\ disk1 !! locate work1 = Some Dir
  /\ (forall rel, rel <> [] ->
        disk1 !! (locate work1 ++ rel) = disk0 !! (locate cache1 ++ rel)).
Proof.
  assert (H1 : copy_cache_to_workdir cache1 work1 disk0 = (Returns tt, disk1))
    by run_outcome.
  assert (H2 : DOTDOT ∉ parts work1) by by_computation.
  assert (H3 : ~ locate cache1 `prefix_of` locate work1) by by_computation.
  repeat (split; [assumption|]).
  split; [exact disk0_workspace_free|].
  destruct (copy_is_exact cache1 work1 disk0 disk1 H1 H2 H3
              disk0_workspace_free) as (Hdir & Hcopy & _).
  split; [exact Hdir|exact Hcopy].
Defined.

Lemma missing_cache_fails_the_task_witness :
  let cache_dir :=
    StorageService.get_cache_dir StorageService.default (lit "gone") in
  (forall s, resolve disk0 cache_dir = inr s -> entry_at disk0 s <> Some Dir)
  /\ exists e0,
       @process_task runtime tool_ok cache_dir work1 out1 edit_rules disk0
       = (Raises (RuntimeError
                    (lit "复制缓存到工作目录失败: " ++ exc_text e0)),
          (rmtree_ignore_errors work1 disk0).2).
Proof.
  intros cache_dir.
  assert (H1 : forall s, resolve disk0 cache_dir = inr s ->
                         entry_at disk0 s <> Some Dir).
  { intros s Hs. vm_compute in Hs. injection Hs as <-.
    vm_compute. discriminate. }
  split; [exact H1|].
  destruct (@missing_cache_fails_the_task runtime tool_ok cache_dir work1 out1
              edit_rules disk0 H1) as (e0 & _ & Hrun & _).
  exists e0. exact Hrun.
Defined.

Lemma existing_workspace_fails_and_is_removed_witness :
  entry_at disk1 (locate cache1) = Some Dir
  /\ resolve disk1 cache1 = inr (locate cache1)
  /\ locate work1 <> []
  /\ disk1 !! locate work1 = Some Dir
  /\ resolve disk1 work1 = inr (locate work1)
  /\ exists t',
       @process_task runtime tool_ok cache1 work1 out1 edit_rules disk1
       = (Raises (RuntimeError
                    (lit "复制缓存到工作目录失败: "
                     ++ exc_text (FileExistsError (path_str work1)))), t')
       /\ present t' work1 = false.
Proof.
  assert (H1 : entry_at disk1 (locate cache1) = Some Dir)
    by (vm_compute; reflexivity).
  assert (H2 : resolve disk1 cache1 = inr (locate cache1))
    by (vm_compute; reflexivity).
  assert (H3 : locate work1 <> []) by by_computation.
  assert (H4 : disk1 !! locate work1 = Some Dir) by (vm_compute; reflexivity).
  assert (H5 : resolve disk1 work1 = inr (locate work1))
    by (vm_compute; reflexivity).
  repeat (split; [assumption|]).
  destruct (@existing_workspace_fails_and_is_removed runtime tool_ok cache1
              work1 out1 edit_rules disk1 H1 H2 H3 H4 H5)
    as (t' & Hrun & Hgone & _).
  exists t'. split; [exact Hrun|exact Hgone].
Defined.

Lemma tool_fail_spares (c : loc) (source_dir output_apk : Path) :
  @tool_spares runtime tool_fail c source_dir output_apk.
Proof. intros t l _. reflexivity. Qed.

Lemma plain_t1 : plain_name (lit "t1").
Proof. repeat split; by_computation. Qed.

Lemma plain_t2 : plain_name (lit "t2").
Proof. repeat split; by_computation. Qed.

Lemma plain_apk1 : plain_name (lit "apk1").
Proof. repeat split; by_computation. Qed.

Lemma plain_apk2 : plain_name (lit "apk2").
Proof. repeat split; by_computation. Qed.

Lemma tasks_do_not_interfere_witness :
  let vr := ValidationResult.mk true [] in
  let storage := StorageService.default in
  let st' := (@_run_task runtime tool_fail storage (lit "t1") (lit "apk1")
                edit_rules state0).2 in
  validate_rules edit_rules = Returns vr
  /\ (DOTDOT ∉ parts (StorageService.base_dir storage))
  /\ plain_name (lit "t1")
  /\ plain_name (lit "t2")
  /\ lit "t2" <> lit "t1"
  /\ tasks st' !! lit "t2" = tasks state0 !! lit "t2"
  /\ (forall l,
        locate (StorageService.get_work_dir storage (lit "t2")) `prefix_of` l ->
        disk st' !! l = disk state0 !! l).
Proof.
  intros vr storage st'.
  assert (H1 : validate_rules edit_rules = Returns vr)
    by (vm_compute; reflexivity).
  assert (H2 : DOTDOT ∉ parts (StorageService.base_dir storage))
    by by_computation.
  assert (H3 : lit "t2" <> lit "t1") by by_computation.
  split; [exact H1|]. split; [exact H2|]. split; [exact plain_t1|].
  split; [exact plain_t2|]. split; [exact H3|].
  destruct (@tasks_do_not_interfere runtime tool_fail storage (lit "t1")
              (lit "t2") (lit "apk1") edit_rules vr state0 H1 eq_refl H2
              plain_t1 plain_t2 H3 (tool_fail_spares _ _ _)
              (tool_fail_spares _ _ _)) as (Htasks & Hwork & _).
  split; [exact Htasks|exact Hwork].
Defined.

Lemma recompile_prepares_the_output_directory_witness :
  let t' := (@recompile runtime tool_ok root1 out1 disk1).2 in
  @recompile runtime tool_ok root1 out1 disk1 = (Returns tt, t')
  /\ exists tm stderr,
       @apktool_b tool_ok root1 out1 tm = (Returns (0, stderr), t')
       /\ (is_dir (parent out1) tm).1 = Returns true
       /\ (forall l e, disk1 !! l = Some e -> tm !! l = Some e).
Proof.
  intros t'.
  assert (H1 : @recompile runtime tool_ok root1 out1 disk1 = (Returns tt, t'))
    by run_outcome.
  split; [exact H1|].
  exact (@recompile_prepares_the_output_directory runtime tool_ok root1 out1
           disk1 t' H1).
Defined.

Lemma read_file_is_confined_witness :
  (DOTDOT ∉ getcwd)
  /\ read_file_from_cache cache1 (lit "a.txt") disk0 = inr (lit "hello")
  /\ safe_target (lit "a.txt")
  /\ exists data s,
       entry_at disk0
         (locate (joinpath (joinpath cache1 (lit "decompiled")) (lit "a.txt")))
       = Some (File data)
       /\ utf8_decode data = Some s
       /\ lit "hello" = universal_newlines s.
Proof.
  assert (H1 : DOTDOT ∉ getcwd) by by_computation.
  assert (H2 : read_file_from_cache cache1 (lit "a.txt") disk0
               = inr (lit "hello")) by (vm_compute; reflexivity).
  split; [exact H1|]. split; [exact H2|].
  destruct (read_file_is_confined cache1 (lit "a.txt") disk0 (lit "hello")
              H1 H2) as (Hsafe & _ & Hfile).
  split; [exact Hsafe|exact Hfile].
Defined.


Lemma pair_eta {A B} (p : A * B) (a : A) : p.1 = a -> p = (a, p.2).
Proof. intros <-. by destruct p. Qed.

Lemma created_task_runs_to_the_end_witness :
  let created := create_task (lit "apk1") edit_rules (lit "t9") app0 in
  let job := mkJob (lit "t9") (lit "apk1") edit_rules in
  created = (Returns (task_created (lit "t9"), Some job), created.2)
  /\ exists task d,
       @run_job runtime tool_ok StorageService.default job created.2
       = (Returns tt,
          mkApp (apk_metadata app0)
            (mkState (<[lit "t9" := task]> (tasks (state app0))) d))
       /\ (status task = COMPLETED \/ status task = FAILED).
Proof.
  intros created job.
  assert (H1 : created
               = (Returns (task_created (lit "t9"), Some job), created.2))
    by (apply pair_eta; vm_compute; reflexivity).
  split; [exact H1|].
  destruct (@created_task_runs_to_the_end runtime tool_ok StorageService.default
              (lit "apk1") edit_rules (lit "t9") app0 created.2 _ job H1)
    as (task & d & _ & Hrun & _ & _ & _ & Hend).
  exists task, d. split; [exact Hrun|].
  destruct Hend as [[Hc _]|[Hf _]]; [by left|by right].
Defined.

Lemma write_bytes_present (p : Path) (data : bytes) (t t' : tree) :
  write_bytes p data t = (Returns tt, t') -> present t' p = true.
Proof.
  unfold write_bytes, present.
  destruct (resolve t p) as [e|l] eqn:Hres; [done|].
  destruct (entry_at t l) as [[old|]|] eqn:Hent; [|done|];
    intros [= <-]; unfold resolve in *.
  - rewrite (walk_insert_file _ _ _ _ _ Hent), Hres.
    rewrite entry_at_insert; [by apply bool_decide_eq_true|].
    intros ->. done.
  - rewrite (walk_insert_new _ _ _ _ Hent _ _ Hres).
    rewrite entry_at_insert; [by apply bool_decide_eq_true|].
    intros ->. done.
Qed.

Lemma tool_ok_delivers (source_dir output_apk : Path) :
  @tool_delivers runtime tool_ok source_dir output_apk.
Proof.
  intros t stderr t'. cbn [apktool_b tool_ok]. unfold bind.
  destruct (write_bytes output_apk [80; 75] t) as [[[]|e] t1] eqn:Hw; [|done].
  intros [= _ <-]. by apply write_bytes_present in Hw.
Qed.

Lemma completed_task_is_downloadable_witness :
  let storage := StorageService.default in
  let app' := (@run_job runtime tool_ok storage
                 (mkJob (lit "t1") (lit "apk1") edit_rules) app1).2 in
  tasks (state app1) !! lit "t1" = Some task0
  /\ TaskRouter.apk_id task0 = lit "apk1"
  /\ status task0 = PENDING
  /\ (exists code message,
        download_task storage (lit "t1") app1
        = error_response 404 code message None)
  /\ exists task,
       tasks (state app') !! lit "t1" = Some task
       /\ (status task = COMPLETED ->
           download_task storage (lit "t1") app'
           = file_response (path_str out1) (lit "demo.apk")).
Proof.
  intros storage app'.
  assert (H1 : tasks (state app1) !! lit "t1" = Some task0)
    by apply lookup_singleton_eq.
  split; [exact H1|]. split; [reflexivity|]. split; [reflexivity|].
  destruct (@completed_task_is_downloadable runtime tool_ok storage (lit "t1")
              (lit "apk1") edit_rules app1 task0 H1 eq_refl eq_refl
              (tool_ok_delivers _ _)) as (Hbefore & task & Htask & Hdone & _).
  split; [exact Hbefore|]. exists task. split; [exact Htask|].
  intros Hc. etrans; [exact (Hdone Hc)|]. vm_compute. reflexivity.
Defined.

Lemma deleted_package_is_gone_witness :
  let storage := StorageService.default in
  let run := Storage.delete_apk storage (lit "apk1") [lit "t1"] disk_up in
  run = (inr tt, run.2)
  /\ present run.2 (Storage.get_apk_path storage (lit "apk1")) = false
  /\ present run.2 cache1 = false
  /\ present run.2 work1 = false.
Proof.
  intros storage run.
  assert (H1 : run = (inr tt, run.2))
    by (apply pair_eta; vm_compute; reflexivity).
  split; [exact H1|].
  destruct (deleted_package_is_gone storage (lit "apk1") [lit "t1"] disk_up
              run.2 H1) as (Hapk & Hcache & Htasks & _).
  split; [exact Hapk|]. split; [exact Hcache|].
  apply (Htasks (lit "t1")). by left.
Defined.

Lemma delete_apk_spares_the_others_witness :
  let storage := StorageService.default in
  let t' := (Storage.delete_apk storage (lit "apk1") [lit "t1"] disk_up).2 in
  (DOTDOT ∉ parts (StorageService.base_dir storage))
  /\ plain_name (lit "apk1")
  /\ plain_name (lit "apk2")
  /\ Forall plain_name [lit "t1"]
  /\ plain_name (lit "t2")
  /\ lit "apk2" <> lit "apk1"
  /\ (lit "t2" ∉ [lit "t1"])
  /\ t' !! locate (Storage.get_apk_path storage (lit "apk2"))
     = disk_up !! locate (Storage.get_apk_path storage (lit "apk2"))
  /\ (forall l,
        locate (StorageService.get_cache_dir storage (lit "apk2")) `prefix_of` l ->
        t' !! l = disk_up !! l).
Proof.
  intros storage t'.
  assert (H1 : DOTDOT ∉ parts (StorageService.base_dir storage))
    by by_computation.
  assert (H2 : Forall plain_name [lit "t1"])
    by (constructor; [exact plain_t1|constructor]).
  assert (H3 : lit "apk2" <> lit "apk1") by by_computation.
  assert (H4 : lit "t2" ∉ [lit "t1"]) by by_computation.
  split; [exact H1|]. split; [exact plain_apk1|]. split; [exact plain_apk2|].
  split; [exact H2|]. split; [exact plain_t2|]. split; [exact H3|].
  split; [exact H4|].
  destruct (delete_apk_spares_the_others storage (lit "apk1") (lit "apk2")
              [lit "t1"] (lit "t2") disk_up H1 plain_apk1 plain_apk2 H2
              plain_t2 H3 H4) as (Hu & Hc & _).
  split; [exact Hu|exact Hc].
Defined.

Lemma delete_apk_forgets_the_package_witness :
  let storage := StorageService.default in
  let run := ApkRouter.delete_apk storage [lit "t1"] (lit "apk1") app_up in
  (forall tid, is_Some (tasks (state app_up) !! tid) -> tid ∈ [lit "t1"])
  /\ run = (inr ApkRouter.success, run.2)
  /\ apk_metadata run.2 = delete (lit "apk1") (apk_metadata app_up)
  /\ tasks (state run.2) !! lit "t1" = None
  /\ present (disk (state run.2)) (Storage.get_apk_path storage (lit "apk1"))
     = false.
Proof.
  intros storage run.
  assert (H1 : forall tid, is_Some (tasks (state app_up) !! tid) ->
                           tid ∈ [lit "t1"]).
  { intros tid [task Htid]. cbn [app_up state tasks] in Htid.
    apply lookup_singleton_Some in Htid as [<- _]. by left. }
  assert (H2 : run = (inr ApkRouter.success, run.2))
    by (apply pair_eta; vm_compute; reflexivity).
  split; [exact H1|]. split; [exact H2|].
  destruct (delete_apk_forgets_the_package storage [lit "t1"] (lit "apk1")
              app_up run.2 H1 H2) as (Hmeta & Htasks & Hapk & _).
  split; [exact Hmeta|]. split; [|exact Hapk].
  rewrite (Htasks (lit "t1")). reflexivity.
Defined.

Lemma failed_upload_leaves_no_trace_witness :
  let storage := StorageService.default in
  let message :=
    lit "apktool 反编译失败 (exit code " ++ str_of_int 1 ++ lit "): "
    ++ lit "brut.directory.DirectoryException" in
  let run := @ApkRouter.upload_apk runtime zip_ok decompiler_fail storage
               [80; 75; 3; 4] (Some (lit "new.apk")) (lit "u1") app_up in
  locate (StorageService.get_cache_dir storage (lit "u1")) <> []
  /\ run = (Returns (ApkRouter.error_response 500 (lit "DECOMPILE_ERROR")
                       message), run.2)
  /\ apk_metadata run.2 = apk_metadata app_up
  /\ present (disk (state run.2)) (Storage.get_apk_path storage (lit "u1"))
     = false.
Proof.
  intros storage message run.
  assert (H1 : locate (StorageService.get_cache_dir storage (lit "u1")) <> [])
    by by_computation.
  assert (H2 : run = (Returns (ApkRouter.error_response 500
                                 (lit "DECOMPILE_ERROR") message), run.2))
    by (apply pair_eta; vm_compute; reflexivity).
  split; [exact H1|]. split; [exact H2|].
  destruct (@failed_upload_leaves_no_trace runtime zip_ok decompiler_fail
              storage _ _ _ app_up run.2 _ _ _ H1 H2)
    as [(Hcode & _)|[(Hcode & _)|[(_ & Hkind & _)|(_ & _ & Hmeta & _ & Hapk & _)]]].
  - discriminate Hcode.
  - discriminate Hcode.
  - exfalso. revert Hkind. by_computation.
  - split; [exact Hmeta|exact Hapk].
Defined.

Lemma accepted_upload_is_recorded_witness :
  let storage := StorageService.default in
  let run := @ApkRouter.upload_apk runtime zip_ok decompiler_ok storage
               [80; 75; 3; 4] (Some (lit "new.apk")) (lit "u1") app_up in
  run = (Returns (ApkRouter.upload_response (lit "u1") (lit "new.apk") 4
                    CacheStatus.READY), run.2)
  /\ apk_metadata run.2
     = <[lit "u1" := mkMeta (lit "new.apk") CacheStatus.READY 4 utcnow]>
         (apk_metadata app_up)
  /\ tasks (state run.2) = tasks (state app_up).
Proof.
  intros storage run.
  assert (H1 : run = (Returns (ApkRouter.upload_response (lit "u1")
                                 (lit "new.apk") 4 CacheStatus.READY), run.2))
    by (apply pair_eta; vm_compute; reflexivity).
  split; [exact H1|].
  destruct (@accepted_upload_is_recorded runtime zip_ok decompiler_ok storage
              _ _ _ app_up run.2 _ _ _ _ H1)
    as (_ & _ & _ & _ & _ & _ & _ & Hmeta & Htasks & _).
  split; [exact Hmeta|exact Htasks].
Defined.

Lemma ensured_directories_exist_witness :
  let storage := StorageService.default in
  let t' := (Storage._ensure_directories storage disk0).2 in
  Storage._ensure_directories storage disk0 = (Returns tt, t')
  /\ (is_dir (Storage.uploads_dir storage) t').1 = Returns true
  /\ (forall l e, disk0 !! l = Some e -> t' !! l = Some e).
Proof.
  intros storage t'.
  assert (H1 : Storage._ensure_directories storage disk0 = (Returns tt, t'))
    by run_outcome.
  split; [exact H1|].
  destruct (ensured_directories_exist storage disk0 t' H1)
    as (Hu & _ & _ & _ & Hkeep).
  split; [exact Hu|exact Hkeep].
Defined.

End FurtherWitnesses.

(** ** Reading a file through the API *)

Section FileRequests.
Context `{Runtime}.
Import Spec Cover Api Storage ApkRouter.


End FileRequests.

Section FileWitness.
Import Spec Cover Api Storage ApkRouter Demo Scene.


End FileWitness.
